(** * The refinery of a rig: state record, lifecycle and merge queue

    A shallow embedding of [internal/refinery]: the data types of the
    package, the [Manager] operations that load and save the state file,
    start and stop the refinery, answer status queries and list the
    merge queue, and the helpers they rely on.  The operating system
    (files, processes, the clock, the [git] command) is an explicit
    [World] that every operation reads and updates. *)

From Stdlib Require Import ZArith List String Ascii Bool Lia.
From Stdlib Require Import DecimalString DecimalPos DecimalZ SpecFloat.
Import ListNotations.

Open Scope string_scope.
Open Scope Z_scope.

(** ** Go's [strings] and [fmt], as far as the package uses them *)

Module strings.

(** [strings.HasPrefix] *)
Definition HasPrefix (s p : string) : bool := String.prefix p s.

Fixpoint drop (n : nat) (s : string) : string :=
  match n, s with
  | O, _ => s
  | S n', String _ t => drop n' t
  | S _, EmptyString => EmptyString
  end.

(** [strings.TrimPrefix] *)
Definition TrimPrefix (s p : string) : string :=
  if HasPrefix s p then drop (String.length p) s else s.

(** [strings.Contains] *)
Fixpoint Contains (s sub : string) : bool :=
  if HasPrefix s sub then true
  else match s with
       | EmptyString => false
       | String _ t => Contains t sub
       end.

(** The white space of [strings.TrimSpace] in the ASCII range. *)
Definition isSpace (c : ascii) : bool :=
  match nat_of_ascii c with
  | 9%nat | 10%nat | 11%nat | 12%nat | 13%nat | 32%nat => true
  | _ => false
  end.

Fixpoint trimLeft (s : string) : string :=
  match s with
  | String c t => if isSpace c then trimLeft t else s
  | EmptyString => EmptyString
  end.

Fixpoint trimRight (s : string) : string :=
  match s with
  | String c t =>
      match trimRight t with
      | EmptyString => if isSpace c then EmptyString else String c EmptyString
      | t' => String c t'
      end
  | EmptyString => EmptyString
  end.

(** [strings.TrimSpace] *)
Definition TrimSpace (s : string) : string := trimRight (trimLeft s).

(** [strings.Split s sep] for a separator that is not empty: the pieces
    of [s] between the occurrences of [sep], found from the left.
    [skip] counts the characters of a separator still to pass over,
    [cur] is the piece read so far. *)
Fixpoint splitFrom (sep : string) (skip : nat) (cur : string) (s : string)
  : list string :=
  match s with
  | EmptyString => [cur]
  | String c t =>
      match skip with
      | S k => splitFrom sep k cur t
      | O =>
          if HasPrefix s sep
          then cur :: splitFrom sep (Nat.pred (String.length sep)) EmptyString t
          else splitFrom sep O (cur ++ String c EmptyString) t
      end
  end.

Definition Split (s sep : string) : list string :=
  splitFrom sep O EmptyString s.

End strings.

(** Go's [unicode/utf8], as far as the state file needs it. *)
Module utf8.

Definition between (lo hi : nat) (c : ascii) : bool :=
  (Nat.leb lo (nat_of_ascii c) && Nat.leb (nat_of_ascii c) hi)%bool.

(** A continuation byte. *)
Definition cont (c : ascii) : bool := between 128 191 c.



End utf8.

Module fmt.

(** The verb [%d] on an integer. *)
Definition itoa (z : Z) : string := NilZero.string_of_int (Z.to_int z).

End fmt.

(** ** Go's [regexp], as far as the package uses it

    A backtracking matcher with capture groups.  The match it finds is
    the one [regexp] documents for its default (leftmost-first)
    semantics: at the leftmost start position, the first one a
    backtracking search reaches, greedy operators trying the longer
    alternative first.  The pattern of this package only tests single
    ASCII characters, so matching bytes and matching runes agree. *)

Module regexp.

Inductive Regexp : Type :=
| Empty                                   (* matches the empty string *)
| Lit (c : ascii)                         (* one given character *)
| AnyCharNotNL                            (* [.] *)
| NoneOf (cs : list ascii)                (* [[^...]] *)
| BeginText                               (* [^] *)
| EndText                                 (* [$] *)
| Concat (r1 r2 : Regexp)
| Alternate (r1 r2 : Regexp)
| Quest (r : Regexp)                      (* [r?], greedy *)
| Plus (r : Regexp)                       (* [r+], greedy *)
| Capture (i : nat) (r : Regexp)          (* [(r)], group number [i] *)
| NonCapture (r : Regexp).                (* [(?:r)] *)

(** A position in the subject: how many characters lie before it, and
    the characters from it on. *)
Record cursor : Type := { pos : nat; rest : string }.

Definition advance (cur : cursor) (t : string) : cursor :=
  {| pos := S (pos cur); rest := t |}.

Definition captures : Type := nat -> string.

Definition noCaptures : captures := fun _ => EmptyString.

Definition setCapture (i : nat) (s : string) (cs : captures) : captures :=
  fun j => if Nat.eqb j i then s else cs j.

(** The text between two positions, the second not before the first. *)
Definition between (from to : cursor) : string :=
  String.substring 0 (pos to - pos from) (rest from).

Definition memb (c : ascii) (cs : list ascii) : bool :=
  existsb (Ascii.eqb c) cs.

Definition newline : ascii := ascii_of_nat 10.

Definition orElse {A} (x : option A) (y : option A) : option A :=
  match x with Some _ => x | None => y end.

Definition cont : Type := cursor -> captures -> option captures.

(** One character that passes a test. *)
Definition oneChar (test : ascii -> bool) (cur : cursor) (cs : captures)
           (k : cont) : option captures :=
  match rest cur with
  | String x t => if test x then k (advance cur t) cs else None
  | EmptyString => None
  end.

(** One or more rounds of [step], as many as possible first.  A round
    that consumes nothing ends the repetition.  [fuel] bounds the
    number of rounds; the length of the subject is enough. *)
Fixpoint repeatGreedy (step : cursor -> captures -> cont -> option captures)
         (k : cont) (fuel : nat) (cur : cursor) (cs : captures)
  : option captures :=
  match fuel with
  | O => None
  | S fuel' =>
      step cur cs
        (fun cur' cs' =>
           if Nat.leb (pos cur') (pos cur) then k cur' cs'
           else orElse (repeatGreedy step k fuel' cur' cs') (k cur' cs'))
  end.

Fixpoint backtrack (r : Regexp) (cur : cursor) (cs : captures) (k : cont)
         {struct r} : option captures :=
  match r with
  | Empty => k cur cs
  | Lit c => oneChar (Ascii.eqb c) cur cs k
  | AnyCharNotNL => oneChar (fun x => negb (Ascii.eqb x newline)) cur cs k
  | NoneOf l => oneChar (fun x => negb (memb x l)) cur cs k
  | BeginText => if Nat.eqb (pos cur) 0 then k cur cs else None
  | EndText =>
      match rest cur with
      | EmptyString => k cur cs
      | String _ _ => None
      end
  | Concat r1 r2 =>
      backtrack r1 cur cs (fun cur' cs' => backtrack r2 cur' cs' k)
  | Alternate r1 r2 =>
      orElse (backtrack r1 cur cs k) (backtrack r2 cur cs k)
  | Quest r1 =>
      orElse (backtrack r1 cur cs k) (k cur cs)
  | Plus r1 =>
      repeatGreedy (backtrack r1) k (S (String.length (rest cur))) cur cs
  | Capture i r1 =>
      backtrack r1 cur cs
        (fun cur' cs' => k cur' (setCapture i (between cur cur') cs'))
  | NonCapture r1 => backtrack r1 cur cs k
  end.

(** The search of [FindStringSubmatch]: the first start position, from
    the left, at which the pattern matches.  Group 0 is the whole
    match. *)
Fixpoint searchFrom (r : Regexp) (fuel : nat) (cur : cursor)
  : option captures :=
  match backtrack r cur noCaptures
          (fun cur' cs' => Some (setCapture 0 (between cur cur') cs')) with
  | Some cs => Some cs
  | None =>
      match fuel, rest cur with
      | S fuel', String _ t => searchFrom r fuel' (advance cur t)
      | _, _ => None
      end
  end.

Fixpoint numCaptures (r : Regexp) : nat :=
  match r with
  | Capture i r1 => Nat.max i (numCaptures r1)
  | Concat r1 r2 | Alternate r1 r2 => Nat.max (numCaptures r1) (numCaptures r2)
  | Quest r1 | Plus r1 | NonCapture r1 => numCaptures r1
  | _ => O
  end.

(** [Regexp.FindStringSubmatch]: [None] for Go's [nil], otherwise the
    text of the match followed by the text of each group, the empty
    string for a group that took no part in the match. *)
Definition FindStringSubmatch (r : Regexp) (s : string)
  : option (list string) :=
  match searchFrom r (String.length s) {| pos := 0; rest := s |} with
  | Some cs => Some (map cs (seq 0 (S (numCaptures r))))
  | None => None
  end.

Fixpoint lits (s : string) : Regexp :=
  match s with
  | EmptyString => Empty
  | String c t => Concat (Lit c) (lits t)
  end.

End regexp.

(** ** Go's [float64] and [time], as far as the package uses them *)

Module float64.

(** IEEE 754 binary64, on the specification of the standard library:
    every operation rounds to nearest, ties to even. *)
Definition t : Type := spec_float.

Definition prec : Z := 53.
Definition emax : Z := 1024.

(** The conversion [float64(n)] of an integer. *)
Definition ofInt (n : Z) : t := binary_normalize prec emax n 0 false.

Definition add (x y : t) : t := SFadd prec emax x y.
Definition div (x y : t) : t := SFdiv prec emax x y.

(** The conversion [int(x)] of a finite value: the fraction is
    discarded (truncation towards zero). *)
Definition toInt (x : t) : Z :=
  match x with
  | S754_finite s m e =>
      let a := match e with
               | Zneg p => Z.shiftr (Zpos m) (Zpos p)
               | _ => Z.shiftl (Zpos m) e
               end in
      if s then - a else a
  | _ => 0
  end.

End float64.

Module time.

(** An instant, in nanoseconds since the Unix epoch.  A [time.Time]
    also carries a location and, when it comes from [time.Now], a
    reading of the monotonic clock; the model keeps the instant, and
    takes the two clocks to agree. *)
Definition Time : Type := Z.

(** [time.Duration]: a signed 64-bit count of nanoseconds. *)
Definition Duration : Type := Z.

Definition Nanosecond : Duration := 1.
Definition Microsecond : Duration := 1000 * Nanosecond.
Definition Millisecond : Duration := 1000 * Microsecond.
Definition Second : Duration := 1000 * Millisecond.
Definition Minute : Duration := 60 * Second.
Definition Hour : Duration := 60 * Minute.

Definition minDuration : Duration := - 2 ^ 63.
Definition maxDuration : Duration := 2 ^ 63 - 1.

(** The zero value of [time.Time]: 1 January of the year 1, UTC. *)
Definition zeroTime : Time := -62135596800 * Second.

(** The instants that [Time.MarshalJSON] writes: RFC 3339 has four
    digits for the year, and the method returns an error for a year
    outside of the range [0,9999].  The year is taken in UTC here. *)
Definition yearZero : Time := -62167219200 * Second.
Definition yearTenThousand : Time := 253402300800 * Second.

Definition representable (t : Time) : bool :=
  ((yearZero <=? t) && (t <? yearTenThousand))%bool.

(** [Time.Sub]: the difference [t - u], kept inside the range of a
    [Duration] by saturation. *)
Definition Sub (t u : Time) : Duration :=
  let d := t - u in
  if d <? minDuration then minDuration
  else if maxDuration <? d then maxDuration
  else d.

(** [Time.Unix]: whole seconds since the epoch. *)
Definition Unix (t : Time) : Z := t / Second.

(** [Duration.Seconds], [Duration.Minutes] and [Duration.Hours]: the
    integer quotient plus the remainder as a fraction, in [float64].
    Go's [/] and [%] on integers truncate, as [Z.quot] and [Z.rem]. *)
Definition Seconds (d : Duration) : float64.t :=
  let sec := Z.quot d Second in
  let nsec := Z.rem d Second in
  float64.add (float64.ofInt sec)
              (float64.div (float64.ofInt nsec) (float64.ofInt 1000000000)).

Definition Minutes (d : Duration) : float64.t :=
  let min := Z.quot d Minute in
  let nsec := Z.rem d Minute in
  float64.add (float64.ofInt min)
              (float64.div (float64.ofInt nsec) (float64.ofInt (60 * 1000000000))).

Definition Hours (d : Duration) : float64.t :=
  let hour := Z.quot d Hour in
  let nsec := Z.rem d Hour in
  float64.add (float64.ofInt hour)
              (float64.div (float64.ofInt nsec)
                           (float64.ofInt (60 * 60 * 1000000000))).

End time.

(** ** The data types of the package (types.go) *)

(** [type State string] *)
Definition State : Type := string.

Definition StateStopped : State := "stopped".
Definition StateRunning : State := "running".
Definition StatePaused : State := "paused".

(** [type MRStatus string] *)
Definition MRStatus : Type := string.

Definition MRPending : MRStatus := "pending".
Definition MRProcessing : MRStatus := "processing".
Definition MRMerged : MRStatus := "merged".
Definition MRFailed : MRStatus := "failed".
Definition MRSkipped : MRStatus := "skipped".

Module MergeRequest.
Record t : Type := Build {
  ID : string;
  Branch : string;
  Worker : string;
  IssueID : string;
  SwarmID : string;
  TargetBranch : string;
  CreatedAt : time.Time;
  Status : MRStatus;
  Error : string
}.

(** The zero value of the struct. *)
Definition zero : t := Build "" "" "" "" "" "" time.zeroTime "" "".
End MergeRequest.

Module RefineryStats.
Record t : Type := Build {
  TotalMerged : Z;
  TotalFailed : Z;
  TotalSkipped : Z;
  TodayMerged : Z;
  TodayFailed : Z
}.

Definition zero : t := Build 0 0 0 0 0.
End RefineryStats.

Module Refinery.
(** A pointer field that may be [nil] is an [option]; [PID] is [0]
    when no process is recorded. *)
Record t : Type := Build {
  RigName : string;
  State : State;
  PID : Z;
  StartedAt : option time.Time;
  CurrentMR : option MergeRequest.t;
  LastMergeAt : option time.Time;
  Stats : RefineryStats.t
}.

Definition zero : t := Build "" "" 0 None None None RefineryStats.zero.

(** Assignments to the fields the manager writes. *)
Definition setState (s : string) (r : t) : t :=
  Build (RigName r) s (PID r) (StartedAt r) (CurrentMR r) (LastMergeAt r) (Stats r).
Definition setPID (p : Z) (r : t) : t :=
  Build (RigName r) (State r) p (StartedAt r) (CurrentMR r) (LastMergeAt r) (Stats r).
Definition setStartedAt (a : option time.Time) (r : t) : t :=
  Build (RigName r) (State r) (PID r) a (CurrentMR r) (LastMergeAt r) (Stats r).
End Refinery.

Module QueueItem.
Record t : Type := Build {
  Position : Z;
  MR : option MergeRequest.t;
  Age : string
}.
End QueueItem.

(** ** Errors *)

(** What a failing system call reports. *)
Inductive Errno : Type := ENOENT | EACCES | EROFS | ENOSPC | EIO.

(** [os.IsNotExist] *)
Definition IsNotExist (e : Errno) : bool :=
  match e with ENOENT => true | _ => false end.

(** The values of Go's [error] that the package produces or passes on:
    its three sentinel errors, a failed system call, the error of
    [json.MarshalIndent] on a record with a timestamp it cannot write,
    and the ways in which [json.Unmarshal] rejects a state file (of a
    file with several faults the model reports the first). *)
Inductive error : Type :=
| ErrNotRunning
| ErrAlreadyRunning
| ErrNoQueue
| PathError (e : Errno)
| MarshalerError
| SyntaxError
| UnmarshalTypeError (field : string)
| TimeError (field : string).

(** A Go result pair [(value, error)] of which exactly one part counts. *)
Inductive result (A : Type) : Type :=
| Ok (a : A)
| Err (e : error).
Arguments Ok {A} a.
Arguments Err {A} e.

Definition rbind {A B} (x : result A) (k : A -> result B) : result B :=
  match x with Ok a => k a | Err e => Err e end.

Definition rmap {A B} (f : A -> B) (x : result A) : result B :=
  match x with Ok a => Ok (f a) | Err e => Err e end.

(** ** The state file as a JSON document (encoding/json)

    The model of [encoding/json] stops at the document tree: what the
    package determines is which members a record has (the field tags
    and their [omitempty]) and how members are read back into the
    struct.  Printing a tree as text and parsing the text of a tree are
    the library's business.  A [string] is written and read as it is,
    which is what the library does with valid UTF-8 (the encoder puts
    U+FFFD in the place of any other byte; [utf8.ValidString] tells
    the two apart), and an [int] is any integer. *)

Module json.

#[local] Set Warnings "-register-all".

Inductive Value : Type :=
| Null
| Bool (b : bool)
| Int (n : Z)                    (* a number literal that is an integer *)
| NonInt (literal : string)      (* any other number literal *)
| String_ (s : string)
| Array (elems : list Value)
| Object (members : list (string * Value)).

(** The bytes of a file: the text of a JSON value, or something else. *)
Inductive Data : Type :=
| Malformed
| Text (v : Value).

(** The timestamp format of [time.Time] in JSON (RFC 3339 with
    nanoseconds), taken as an interface: the text of an instant of the
    years 0 to 9999 reads back as that instant.  The text of any other
    instant is never asked for ([marshalTime] below). *)
Class TimeFormat : Type := {
  MarshalTime : time.Time -> string;
  UnmarshalTime : string -> option time.Time;
  UnmarshalTime_MarshalTime :
    forall t, time.representable t = true ->
              UnmarshalTime (MarshalTime t) = Some t
}.

Section Codec.
Context {TF : TimeFormat}.

(** *** Marshal *)

(** A member tagged [omitempty] is left out when the field holds its
    empty value: [0], the empty string, a [nil] pointer. *)
Definition omitIf (empty : bool) (m : string * Value)
  : list (string * Value) :=
  if empty then [] else [m].

(** A pointer field tagged [omitempty]: no member for [nil]; the
    encoding of what it points to may fail. *)
Definition optional {A} (name : string) (f : A -> result Value) (x : option A)
  : result (list (string * Value)) :=
  match x with
  | Some a => rbind (f a) (fun v => Ok [(name, v)])
  | None => Ok []
  end.

(** [Time.MarshalJSON]: an error for a year outside of the range
    [0,9999]. *)
Definition marshalTime (t : time.Time) : result Value :=
  if time.representable t then Ok (String_ (MarshalTime t))
  else Err MarshalerError.

Definition marshalMergeRequest (mr : MergeRequest.t) : result Value :=
  rbind (marshalTime (MergeRequest.CreatedAt mr)) (fun created =>
  Ok (Object
    ([("id", String_ (MergeRequest.ID mr));
      ("branch", String_ (MergeRequest.Branch mr));
      ("worker", String_ (MergeRequest.Worker mr));
      ("issue_id", String_ (MergeRequest.IssueID mr))]
     ++ omitIf (String.eqb (MergeRequest.SwarmID mr) "")
          ("swarm_id", String_ (MergeRequest.SwarmID mr))
     ++ [("target_branch", String_ (MergeRequest.TargetBranch mr));
         ("created_at", created);
         ("status", String_ (MergeRequest.Status mr))]
     ++ omitIf (String.eqb (MergeRequest.Error mr) "")
          ("error", String_ (MergeRequest.Error mr))))).

Definition marshalStats (st : RefineryStats.t) : Value :=
  Object
    [("total_merged", Int (RefineryStats.TotalMerged st));
     ("total_failed", Int (RefineryStats.TotalFailed st));
     ("total_skipped", Int (RefineryStats.TotalSkipped st));
     ("today_merged", Int (RefineryStats.TodayMerged st));
     ("today_failed", Int (RefineryStats.TodayFailed st))].

(** [json.MarshalIndent] on a [*Refinery]: the members in the order of
    the fields; the error of a timestamp that cannot be written is the
    error of the call. *)
Definition Marshal (r : Refinery.t) : result Data :=
  rbind (optional "started_at" marshalTime (Refinery.StartedAt r))
    (fun started =>
  rbind (optional "current_mr" marshalMergeRequest (Refinery.CurrentMR r))
    (fun current =>
  rbind (optional "last_merge_at" marshalTime (Refinery.LastMergeAt r))
    (fun last =>
  Ok (Text (Object
    ([("rig_name", String_ (Refinery.RigName r));
      ("state", String_ (Refinery.State r))]
     ++ omitIf (Refinery.PID r =? 0) ("pid", Int (Refinery.PID r))
     ++ started
     ++ current
     ++ last
     ++ [("stats", marshalStats (Refinery.Stats r))])))))).

(** *** Unmarshal *)

(** Member names match a field tag without regard to (ASCII) case. *)
Definition lower (c : ascii) : ascii :=
  let n := nat_of_ascii c in
  if (Nat.leb 65 n && Nat.leb n 90)%bool then ascii_of_nat (n + 32) else c.

Fixpoint toLower (s : string) : string :=
  match s with
  | EmptyString => EmptyString
  | String c t => String (lower c) (toLower t)
  end.

Definition names (key tag : string) : bool := String.eqb (toLower key) tag.

(** A JSON value read into a field of the given type.  [null] leaves
    the field as it is. *)
Definition intoString (field : string) (v : Value) (old : string)
  : result string :=
  match v with
  | Null => Ok old
  | String_ s => Ok s
  | _ => Err (UnmarshalTypeError field)
  end.

Definition intoInt (field : string) (v : Value) (old : Z) : result Z :=
  match v with
  | Null => Ok old
  | Int n => Ok n
  | _ => Err (UnmarshalTypeError field)
  end.

Definition intoTime (field : string) (v : Value) (old : time.Time)
  : result time.Time :=
  match v with
  | Null => Ok old
  | String_ s =>
      match UnmarshalTime s with
      | Some t => Ok t
      | None => Err (TimeError field)
      end
  | _ => Err (TimeError field)
  end.

(** A pointer field: [null] makes it [nil]; any other value is read
    into what it points to, allocated from [zero] when it is [nil]. *)
Definition intoPointer {A} (zero : A) (into : Value -> A -> result A)
           (v : Value) (old : option A) : result (option A) :=
  match v with
  | Null => Ok None
  | _ =>
      match into v (match old with Some a => a | None => zero end) with
      | Ok a => Ok (Some a)
      | Err e => Err e
      end
  end.

(** The members of an object are read in order, each into the field
    it names; a member that names no field is skipped. *)
Fixpoint intoMembers {A} (set : string -> Value -> A -> result A)
         (ms : list (string * Value)) (a : A) : result A :=
  match ms with
  | [] => Ok a
  | (key, v) :: rest =>
      match set key v a with
      | Ok a' => intoMembers set rest a'
      | Err e => Err e
      end
  end.

Definition intoStruct {A} (field : string)
           (set : string -> Value -> A -> result A)
           (v : Value) (old : A) : result A :=
  match v with
  | Null => Ok old
  | Object ms => intoMembers set ms old
  | _ => Err (UnmarshalTypeError field)
  end.

Definition setStatsField (key : string) (v : Value) (st : RefineryStats.t)
  : result RefineryStats.t :=
  let '(RefineryStats.Build tm tf ts dm df) := st in
  if names key "total_merged" then
    rmap (fun x => RefineryStats.Build x tf ts dm df) (intoInt key v tm)
  else if names key "total_failed" then
    rmap (fun x => RefineryStats.Build tm x ts dm df) (intoInt key v tf)
  else if names key "total_skipped" then
    rmap (fun x => RefineryStats.Build tm tf x dm df) (intoInt key v ts)
  else if names key "today_merged" then
    rmap (fun x => RefineryStats.Build tm tf ts x df) (intoInt key v dm)
  else if names key "today_failed" then
    rmap (fun x => RefineryStats.Build tm tf ts dm x) (intoInt key v df)
  else Ok st.

Definition setMergeRequestField (key : string) (v : Value)
           (mr : MergeRequest.t) : result MergeRequest.t :=
  let '(MergeRequest.Build id br wk iss sw tb ca st er) := mr in
  if names key "id" then
    rmap (fun x => MergeRequest.Build x br wk iss sw tb ca st er) (intoString key v id)
  else if names key "branch" then
    rmap (fun x => MergeRequest.Build id x wk iss sw tb ca st er) (intoString key v br)
  else if names key "worker" then
    rmap (fun x => MergeRequest.Build id br x iss sw tb ca st er) (intoString key v wk)
  else if names key "issue_id" then
    rmap (fun x => MergeRequest.Build id br wk x sw tb ca st er) (intoString key v iss)
  else if names key "swarm_id" then
    rmap (fun x => MergeRequest.Build id br wk iss x tb ca st er) (intoString key v sw)
  else if names key "target_branch" then
    rmap (fun x => MergeRequest.Build id br wk iss sw x ca st er) (intoString key v tb)
  else if names key "created_at" then
    rmap (fun x => MergeRequest.Build id br wk iss sw tb x st er) (intoTime key v ca)
  else if names key "status" then
    rmap (fun x => MergeRequest.Build id br wk iss sw tb ca x er) (intoString key v st)
  else if names key "error" then
    rmap (fun x => MergeRequest.Build id br wk iss sw tb ca st x) (intoString key v er)
  else Ok mr.

Definition setRefineryField (key : string) (v : Value) (r : Refinery.t)
  : result Refinery.t :=
  let '(Refinery.Build rn st pid sa cur lm stats) := r in
  if names key "rig_name" then
    rmap (fun x => Refinery.Build x st pid sa cur lm stats) (intoString key v rn)
  else if names key "state" then
    rmap (fun x => Refinery.Build rn x pid sa cur lm stats) (intoString key v st)
  else if names key "pid" then
    rmap (fun x => Refinery.Build rn st x sa cur lm stats) (intoInt key v pid)
  else if names key "started_at" then
    rmap (fun x => Refinery.Build rn st pid x cur lm stats)
         (intoPointer time.zeroTime (intoTime key) v sa)
  else if names key "current_mr" then
    rmap (fun x => Refinery.Build rn st pid sa x lm stats)
         (intoPointer MergeRequest.zero (intoStruct key setMergeRequestField) v cur)
  else if names key "last_merge_at" then
    rmap (fun x => Refinery.Build rn st pid sa cur x stats)
         (intoPointer time.zeroTime (intoTime key) v lm)
  else if names key "stats" then
    rmap (fun x => Refinery.Build rn st pid sa cur lm x)
         (intoStruct key setStatsField v stats)
  else Ok r.

(** [json.Unmarshal(data, &ref)] into a fresh [var ref Refinery]. *)
Definition Unmarshal (data : Data) : result Refinery.t :=
  match data with
  | Malformed => Err SyntaxError
  | Text v => intoStruct "Refinery" setRefineryField v Refinery.zero
  end.

End Codec.

End json.

(** ** The world outside the program *)

Module rig.
(** The two fields of [rig.Rig] that the package reads. *)
Record Rig : Type := { Name : string; Path : string }.
End rig.

(** What a path holds. *)
Inductive FileState : Type :=
| NoFile
| Unreadable (e : Errno)
| Holds (data : json.Data).

(** How a command ended: it ran and exited with a status, or it could
    not be started. *)
Inductive CmdResult : Type :=
| Exited (status : Z) (out : string)
| NotStarted (e : Errno).

Inductive Signal : Type := Interrupt | Kill.

Record World : Type := {
  (** the file system: what each path holds (a file is taken to be its
      path: two paths name two files); what [os.MkdirAll] reports
      for a directory and what [os.WriteFile] reports when it opens a
      path for writing ([None]: success); the directories that
      [os.MkdirAll] has seen to, in the order of the calls *)
  files : string -> FileState;
  mkdirAllErr : string -> option Errno;
  writeFileErr : string -> option Errno;
  dirs : list string;
  (** processes: the identifier of the calling process, whether
      [os.FindProcess] finds a process, and the signals sent so far *)
  pid : Z;
  findProcessOk : Z -> bool;
  signals : list (Z * Signal);
  (** the clock: its successive readings, and how many were taken *)
  clock : nat -> time.Time;
  ticks : nat;
  (** [git branch -r --list origin/polecat/*], by working directory *)
  gitRemoteBranches : string -> CmdResult;
  (** lines printed on standard output *)
  stdout : list string
}.

Definition setFiles (f : string -> FileState) (w : World) : World :=
  {| files := f; mkdirAllErr := mkdirAllErr w; writeFileErr := writeFileErr w;
     dirs := dirs w; pid := pid w; findProcessOk := findProcessOk w;
     signals := signals w; clock := clock w; ticks := ticks w;
     gitRemoteBranches := gitRemoteBranches w; stdout := stdout w |}.

Definition setDirs (l : list string) (w : World) : World :=
  {| files := files w; mkdirAllErr := mkdirAllErr w; writeFileErr := writeFileErr w;
     dirs := l; pid := pid w; findProcessOk := findProcessOk w;
     signals := signals w; clock := clock w; ticks := ticks w;
     gitRemoteBranches := gitRemoteBranches w; stdout := stdout w |}.

Definition setSignals (l : list (Z * Signal)) (w : World) : World :=
  {| files := files w; mkdirAllErr := mkdirAllErr w; writeFileErr := writeFileErr w;
     dirs := dirs w; pid := pid w; findProcessOk := findProcessOk w;
     signals := l; clock := clock w; ticks := ticks w;
     gitRemoteBranches := gitRemoteBranches w; stdout := stdout w |}.

Definition setTicks (n : nat) (w : World) : World :=
  {| files := files w; mkdirAllErr := mkdirAllErr w; writeFileErr := writeFileErr w;
     dirs := dirs w; pid := pid w; findProcessOk := findProcessOk w;
     signals := signals w; clock := clock w; ticks := n;
     gitRemoteBranches := gitRemoteBranches w; stdout := stdout w |}.

Definition setStdout (l : list string) (w : World) : World :=
  {| files := files w; mkdirAllErr := mkdirAllErr w; writeFileErr := writeFileErr w;
     dirs := dirs w; pid := pid w; findProcessOk := findProcessOk w;
     signals := signals w; clock := clock w; ticks := ticks w;
     gitRemoteBranches := gitRemoteBranches w; stdout := l |}.

(** A computation that reads and updates the world. *)
Definition M (A : Type) : Type := World -> A * World.

Definition ret {A} (a : A) : M A := fun w => (a, w).

Definition bind {A B} (c : M A) (k : A -> M B) : M B :=
  fun w => let '(a, w') := c w in k a w'.

Declare Scope io_scope.
Delimit Scope io_scope with io.
Notation "x <- c ;; k" := (bind c (fun x => k))
  (at level 61, c at next level, right associativity) : io_scope.
Notation "c ;; k" := (bind c (fun _ => k))
  (at level 61, right associativity) : io_scope.
Open Scope io_scope.

(** How a call ends: it returns a value, or it never returns. *)
Inductive Outcome (A : Type) : Type :=
| Returns (a : A)
| Blocks.
Arguments Returns {A} a.
Arguments Blocks {A}.

Module os.

Definition ReadFile (path : string) : M (Errno + json.Data) :=
  fun w =>
    (match files w path with
     | NoFile => inl ENOENT
     | Unreadable e => inl e
     | Holds d => inr d
     end, w).

(** [os.MkdirAll]: when it reports no error the directory is there. *)
Definition MkdirAll (dir : string) : M (option Errno) :=
  fun w =>
    match mkdirAllErr w dir with
    | Some e => (Some e, w)
    | None => (None, setDirs (dirs w ++ [dir]) w)
    end.

(** [os.WriteFile] opens the file, which creates or empties it, and
    writes the data.  The error of the model is that of opening the
    file (no permission, a read-only file system, a directory that is
    missing): nothing has been emptied or written then.  A write that
    breaks off after the file was opened is not part of the model. *)
Definition WriteFile (path : string) (data : json.Data) : M (option Errno) :=
  fun w =>
    match writeFileErr w path with
    | Some e => (Some e, w)
    | None =>
        (None,
         setFiles (fun p => if String.eqb p path then Holds data else files w p) w)
    end.

Definition Getpid : M Z := fun w => (pid w, w).

(** [os.FindProcess] followed by [Signal] with the interrupt signal;
    the caller ignores what [Signal] reports. *)
Definition FindProcess (p : Z) : M bool := fun w => (findProcessOk w p, w).

Definition SignalInterrupt (p : Z) : M unit :=
  fun w => (tt, setSignals (signals w ++ [(p, Interrupt)]) w).

(** [proc.Signal(nil)], [true] when it reports no error.  The value
    [nil] is no signal that package [os] can send: for every process
    the call reports an error (unsupported signal type). *)
Definition SignalNil (p : Z) : M bool := ret false.

End os.

Module filepath.

(** [filepath.Clean], for the separator [/]: runs of separators become
    one, [.] elements go, an inner [..] goes with the element before
    it, [..] at the root goes; the empty result is [.].  [out] holds
    the elements kept so far, the last one first. *)
Fixpoint cleanInto (rooted : bool) (out : list string) (elems : list string)
  : list string :=
  match elems with
  | [] => rev out
  | e :: more =>
      if (String.eqb e "" || String.eqb e ".")%bool then
        cleanInto rooted out more
      else if String.eqb e ".." then
        match out with
        | top :: below =>
            if String.eqb top ".." then cleanInto rooted (e :: out) more
            else cleanInto rooted below more
        | [] =>
            if rooted then cleanInto rooted out more
            else cleanInto rooted (e :: out) more
        end
      else cleanInto rooted (e :: out) more
  end.

Definition Clean (path : string) : string :=
  let rooted := strings.HasPrefix path "/" in
  let body := String.concat "/" (cleanInto rooted [] (strings.Split path "/")) in
  if rooted then "/" ++ body
  else if String.eqb body "" then "." else body.

(** [filepath.Join]: the elements from the first one that is not empty
    on, joined by separators, and the result cleaned. *)
Fixpoint Join (elems : list string) : string :=
  match elems with
  | [] => ""
  | e :: more =>
      if String.eqb e "" then Join more
      else Clean (String.concat "/" elems)
  end.

Fixpoint dirOf (s : string) : option string :=
  match s with
  | EmptyString => None
  | String c t =>
      match dirOf t with
      | Some d => Some (String c d)
      | None => if Ascii.eqb c "/" then Some EmptyString else None
      end
  end.

(** [filepath.Dir]: the path up to its last separator, cleaned. *)
Definition Dir (path : string) : string :=
  match dirOf path with
  | Some d => Clean (d ++ "/")
  | None => Clean ""
  end.

End filepath.

Definition Now : M time.Time :=
  fun w => (clock w (ticks w), setTicks (S (ticks w)) w).

(** [time.Since] *)
Definition Since (t : time.Time) : M time.Duration :=
  now <- Now ;; ret (time.Sub now t).

Definition Println (line : string) : M unit :=
  fun w => (tt, setStdout (stdout w ++ [line]) w).

(** ** The manager (manager.go) *)

(** [processExists]: whether a process with the given PID exists, as the
    package tests it: the process is found and [Signal(nil)] on it
    reports no error. *)
Definition processExists (p : Z) : M bool :=
  found <- os.FindProcess p ;;
  if found then os.SignalNil p else ret false.

(** [formatAge], from the elapsed time on: the label of a duration. *)
Definition formatDuration (d : time.Duration) : string :=
  if d <? time.Minute then
    fmt.itoa (float64.toInt (time.Seconds d)) ++ "s ago"
  else if d <? time.Hour then
    fmt.itoa (float64.toInt (time.Minutes d)) ++ "m ago"
  else if d <? 24 * time.Hour then
    fmt.itoa (float64.toInt (time.Hours d)) ++ "h ago"
  else
    fmt.itoa (float64.toInt (float64.div (time.Hours d) (float64.ofInt 24)))
      ++ "d ago".

(** [formatAge] formats the duration since the given time. *)
Definition formatAge (t : time.Time) : M string :=
  d <- Since t ;;
  ret (formatDuration d).

(** The pattern of [branchToMR]: [^polecat/([^/]+)(?:/(.+))?$] *)
Definition branchPattern : regexp.Regexp :=
  regexp.Concat regexp.BeginText
    (regexp.Concat (regexp.lits "polecat/")
       (regexp.Concat (regexp.Capture 1 (regexp.Plus (regexp.NoneOf ["/"%char])))
          (regexp.Concat
             (regexp.Quest
                (regexp.NonCapture
                   (regexp.Concat (regexp.Lit "/")
                      (regexp.Capture 2 (regexp.Plus regexp.AnyCharNotNL)))))
             regexp.EndText))).

Module Manager.

Record t : Type := { rig : rig.Rig; workDir : string }.

(** [stateFile] returns the path to the refinery state file. *)
Definition stateFile (m : t) : string :=
  filepath.Join [rig.Path (rig m); ".gastown"; "refinery.json"].

(** [branchToMR] converts a branch name to a merge request; [None] is
    Go's [nil]. *)
Definition branchToMR (m : t) (branch : string) : M (option MergeRequest.t) :=
  match regexp.FindStringSubmatch branchPattern branch with
  | None => ret None
  | Some matches =>
      let worker := nth 1 matches "" in
      let issueID := if Nat.ltb 2 (List.length matches)
                     then nth 2 matches "" else "" in
      stamp <- Now ;;
      created <- Now ;;
      ret (Some
        {| MergeRequest.ID := "mr-" ++ worker ++ "-" ++ fmt.itoa (time.Unix stamp);
           MergeRequest.Branch := branch;
           MergeRequest.Worker := worker;
           MergeRequest.IssueID := issueID;
           MergeRequest.SwarmID := "";
           MergeRequest.TargetBranch := "main";
           MergeRequest.CreatedAt := created;
           MergeRequest.Status := MRPending;
           MergeRequest.Error := "" |})
  end.

(** The loop of [discoverWorkBranches] over the lines of the output. *)
Fixpoint collectBranches (lines : list string) (branches : list string)
  : list string :=
  match lines with
  | [] => branches
  | line :: more =>
      let branch := strings.TrimSpace line in
      if (negb (String.eqb branch "") && negb (strings.Contains branch "->"))%bool
      then collectBranches more (branches ++ [strings.TrimPrefix branch "origin/"])
      else collectBranches more branches
  end.

(** [discoverWorkBranches] finds branches that look like polecat work.
    [cmd.Run] reports an error when the command cannot be started or
    exits with a status other than [0]. *)
Definition discoverWorkBranches (m : t) : M (result (list string)) :=
  fun w =>
    match gitRemoteBranches w (workDir m) with
    | Exited 0 out => (Ok (collectBranches (strings.Split out (String regexp.newline "")) []), w)
    | Exited _ _ => (Ok [], w)
    | NotStarted _ => (Ok [], w)
    end.

(** [run] is the processing loop of the foreground mode: two lines of
    output, then [select {}], which never returns. *)
Definition run (m : t) (ref : Refinery.t) : M (Outcome (option error)) :=
  Println "Refinery running (stub mode)..." ;;
  Println "Press Ctrl+C to stop" ;;
  ret Blocks.

Section Store.
Context {TF : json.TimeFormat}.

(** [loadState] loads refinery state from disk. *)
Definition loadState (m : t) : M (result Refinery.t) :=
  r <- os.ReadFile (stateFile m) ;;
  match r with
  | inl e =>
      if IsNotExist e then
        ret (Ok {| Refinery.RigName := rig.Name (rig m);
                   Refinery.State := StateStopped;
                   Refinery.PID := 0;
                   Refinery.StartedAt := None;
                   Refinery.CurrentMR := None;
                   Refinery.LastMergeAt := None;
                   Refinery.Stats := RefineryStats.zero |})
      else ret (Err (PathError e))
  | inr data => ret (json.Unmarshal data)
  end.

(** [saveState] persists refinery state to disk. *)
Definition saveState (m : t) (ref : Refinery.t) : M (option error) :=
  let dir := filepath.Dir (stateFile m) in
  e <- os.MkdirAll dir ;;
  match e with
  | Some e => ret (Some (PathError e))
  | None =>
      match json.Marshal ref with
      | Err e => ret (Some e)
      | Ok data =>
          e <- os.WriteFile (stateFile m) data ;;
          ret (option_map PathError e)
      end
  end.

(** [Status] returns the current refinery status. *)
Definition Status (m : t) : M (result Refinery.t) :=
  r <- loadState m ;;
  match r with
  | Err e => ret (Err e)
  | Ok ref =>
      if (String.eqb (Refinery.State ref) StateRunning
          && (0 <? Refinery.PID ref))%bool
      then
        alive <- processExists (Refinery.PID ref) ;;
        if negb alive then
          let ref := Refinery.setPID 0 (Refinery.setState StateStopped ref) in
          saveState m ref ;;
          ret (Ok ref)
        else ret (Ok ref)
      else ret (Ok ref)
  end.

(** [Start] starts the refinery.  If [foreground] is true, runs in
    the current process (blocking). *)
Definition Start (m : t) (foreground : bool) : M (Outcome (option error)) :=
  r <- loadState m ;;
  match r with
  | Err e => ret (Returns (Some e))
  | Ok ref =>
      live <- (if (String.eqb (Refinery.State ref) StateRunning
                   && (0 <? Refinery.PID ref))%bool
               then processExists (Refinery.PID ref)
               else ret false) ;;
      if live then ret (Returns (Some ErrAlreadyRunning))
      else
        now <- Now ;;
        self <- os.Getpid ;;
        let ref := Refinery.setPID self
                     (Refinery.setStartedAt (Some now)
                        (Refinery.setState StateRunning ref)) in
        e <- saveState m ref ;;
        match e with
        | Some e => ret (Returns (Some e))
        | None =>
            if foreground then run m ref
            else ret (Returns None)
        end
  end.

(** [Stop] stops the refinery. *)
Definition Stop (m : t) : M (option error) :=
  r <- loadState m ;;
  match r with
  | Err e => ret (Some e)
  | Ok ref =>
      if negb (String.eqb (Refinery.State ref) StateRunning)
      then ret (Some ErrNotRunning)
      else
        other <- (if 0 <? Refinery.PID ref
                  then self <- os.Getpid ;;
                       ret (negb (Refinery.PID ref =? self))
                  else ret false) ;;
        (if other then
           found <- os.FindProcess (Refinery.PID ref) ;;
           if found then os.SignalInterrupt (Refinery.PID ref) else ret tt
         else ret tt) ;;
        let ref := Refinery.setPID 0 (Refinery.setState StateStopped ref) in
        saveState m ref
  end.

(** The loop of [Queue] over the discovered branches: [items] and
    [pos] are the variables of the same names. *)
Fixpoint queueBranches (m : t) (branches : list string)
         (items : list QueueItem.t) (pos : Z) : M (list QueueItem.t) :=
  match branches with
  | [] => ret items
  | branch :: more =>
      mr <- branchToMR m branch ;;
      match mr with
      | Some mr' =>
          age <- formatAge (MergeRequest.CreatedAt mr') ;;
          queueBranches m more
            (items ++ [{| QueueItem.Position := pos;
                          QueueItem.MR := Some mr';
                          QueueItem.Age := age |}])
            (pos + 1)
      | None => queueBranches m more items pos
      end
  end.

(** [Queue] returns the current merge queue. *)
Definition Queue (m : t) : M (result (list QueueItem.t)) :=
  b <- discoverWorkBranches m ;;
  match b with
  | Err e => ret (Err e)
  | Ok branches =>
      r <- loadState m ;;
      match r with
      | Err e => ret (Err e)
      | Ok ref =>
          items <- match Refinery.CurrentMR ref with
                   | Some cur =>
                       age <- formatAge (MergeRequest.CreatedAt cur) ;;
                       ret [{| QueueItem.Position := 0;
                               QueueItem.MR := Some cur;
                               QueueItem.Age := age |}]
                   | None => ret []
                   end ;;
          items' <- queueBranches m branches items 1 ;;
          ret (Ok items')
      end
  end.

End Store.

End Manager.

(** [NewManager] creates a new refinery manager for a rig. *)
Definition NewManager (r : rig.Rig) : Manager.t :=
  {| Manager.rig := r; Manager.workDir := rig.Path r |}.

(** * Properties *)

(** ** The state file: what is written reads back *)

#[local] Arguments json.names : simpl never.
#[local] Arguments json.marshalMergeRequest : simpl never.
#[local] Arguments json.marshalStats : simpl never.

(** Reading the members of a document step by step: the comparison of a
    member name with a field tag is computed, the rest is unfolded. *)
Ltac json_names :=
  repeat match goal with
         | |- context [json.names ?k ?t] =>
             let b := eval vm_compute in (json.names k t) in
             change (json.names k t) with b
         end.

Ltac json_eval := repeat (progress (cbn; json_names)).

Section CodecFacts.
Context {TF : json.TimeFormat}.

Lemma Unmarshal_marshalStats key st old :
  json.intoStruct key json.setStatsField (json.marshalStats st) old = Ok st.
Proof.
  destruct st, old. unfold json.marshalStats. json_eval. reflexivity.
Qed.

Lemma Unmarshal_marshalMergeRequest key mr v :
  json.marshalMergeRequest mr = Ok v ->
  json.intoStruct key json.setMergeRequestField v MergeRequest.zero = Ok mr.
Proof.
  destruct mr as [id br wk iss sw tb ca st er].
  unfold json.marshalMergeRequest, json.marshalTime;
    cbn [MergeRequest.ID MergeRequest.Branch
    MergeRequest.Worker MergeRequest.IssueID MergeRequest.SwarmID
    MergeRequest.TargetBranch MergeRequest.CreatedAt MergeRequest.Status
    MergeRequest.Error].
  destruct (time.representable ca) eqn:Hca; cbn [rbind]; [|discriminate].
  intros [= <-].
  destruct (String.eqb_spec sw ""), (String.eqb_spec er ""); subst;
    json_eval; rewrite (json.UnmarshalTime_MarshalTime _ Hca); reflexivity.
Qed.

Lemma intoPointer_marshalMergeRequest key mr v :
  json.marshalMergeRequest mr = Ok v ->
  json.intoPointer MergeRequest.zero
    (json.intoStruct key json.setMergeRequestField) v None = Ok (Some mr).
Proof.
  intros H. unfold json.intoPointer.
  rewrite (Unmarshal_marshalMergeRequest key mr v H).
  revert H. unfold json.marshalMergeRequest.
  destruct (json.marshalTime _); cbn [rbind]; [|discriminate].
  now intros [= <-].
Qed.

(** The timestamps of a record are ones that [Time.MarshalJSON] writes:
    they lie in the years 0 to 9999. *)
Definition writes (t : option time.Time) : bool :=
  match t with
  | Some t => time.representable t
  | None => true
  end.

Definition marshalable (r : Refinery.t) : bool :=
  (writes (Refinery.StartedAt r)
   && writes (option_map MergeRequest.CreatedAt (Refinery.CurrentMR r))
   && writes (Refinery.LastMergeAt r))%bool.

(** [json.Marshal] fails on a timestamp it cannot write, and on nothing
    else. *)
Lemma Marshal_marshalable (r : Refinery.t) :
  marshalable r = true -> exists data, json.Marshal r = Ok data.
Proof.
  destruct r as [rn st pid sa cur lm stats].
  unfold marshalable, json.Marshal, json.optional, json.marshalMergeRequest,
    json.marshalTime, writes;
    cbn [Refinery.StartedAt Refinery.CurrentMR Refinery.LastMergeAt option_map].
  destruct sa as [sa|], cur as [cur|], lm as [lm|]; cbn [option_map];
    repeat match goal with
           | |- context [time.representable ?t] =>
               destruct (time.representable t); cbn [rbind andb]
           end;
    cbn [rbind andb]; try discriminate; eauto.
Qed.

Lemma Marshal_error (r : Refinery.t) e :
  json.Marshal r = Err e -> e = MarshalerError /\ marshalable r = false.
Proof.
  destruct r as [rn st pid sa cur lm stats].
  unfold marshalable, json.Marshal, json.optional, json.marshalMergeRequest,
    json.marshalTime, writes;
    cbn [Refinery.StartedAt Refinery.CurrentMR Refinery.LastMergeAt option_map].
  destruct sa as [sa|], cur as [cur|], lm as [lm|]; cbn [option_map];
    repeat match goal with
           | |- context [time.representable ?t] =>
               destruct (time.representable t); cbn [rbind andb]
           end;
    cbn [rbind andb]; try discriminate; intros [= <-]; split; reflexivity.
Qed.

Lemma Marshal_Ok (r : Refinery.t) data :
  json.Marshal r = Ok data -> marshalable r = true.
Proof.
  intros H. destruct (marshalable r) eqn:E; [reflexivity|].
  destruct (json.Marshal r) as [d|e] eqn:EM; [|discriminate].
  exfalso. clear H.
  revert EM E. destruct r as [rn st pid sa cur lm stats].
  unfold marshalable, json.Marshal, json.optional, json.marshalMergeRequest,
    json.marshalTime, writes;
    cbn [Refinery.StartedAt Refinery.CurrentMR Refinery.LastMergeAt option_map].
  destruct sa as [sa|], cur as [cur|], lm as [lm|]; cbn [option_map];
    repeat match goal with
           | |- context [time.representable ?t] =>
               destruct (time.representable t); cbn [rbind andb]
           end;
    cbn [rbind andb]; discriminate.
Qed.

(** What [json.Marshal] writes, [json.Unmarshal] reads back as the
    same record. *)
Lemma Unmarshal_Marshal (r : Refinery.t) data :
  json.Marshal r = Ok data -> json.Unmarshal data = Ok r.
Proof.
  destruct r as [rn st pid sa cur lm stats].
  unfold json.Marshal, json.Unmarshal, json.optional;
    cbn [Refinery.RigName Refinery.State Refinery.PID Refinery.StartedAt
         Refinery.CurrentMR Refinery.LastMergeAt Refinery.Stats].
  destruct sa as [sa|]; cbn [rbind];
    [unfold json.marshalTime at 1;
     destruct (time.representable sa) eqn:Hsa; cbn [rbind]; [|discriminate]|];
  (destruct cur as [cur|]; cbn [rbind];
    [destruct (json.marshalMergeRequest cur) as [vc|] eqn:Hcur;
     cbn [rbind]; [|discriminate]|]);
  (destruct lm as [lm|]; cbn [rbind];
    [unfold json.marshalTime at 1;
     destruct (time.representable lm) eqn:Hlm; cbn [rbind]; [|discriminate]|]);
  intros [= <-];
  destruct (Z.eqb_spec pid 0); subst;
    json_eval;
    repeat (first [ rewrite (json.UnmarshalTime_MarshalTime _ Hsa)
                  | rewrite (json.UnmarshalTime_MarshalTime _ Hlm)
                  | rewrite (intoPointer_marshalMergeRequest _ _ _ Hcur)
                  | rewrite Unmarshal_marshalStats ];
            json_eval);
    reflexivity.
Qed.

End CodecFacts.

(** A timestamp format that satisfies the interface: the decimal text of
    the nanoseconds since the epoch.  The concrete runs below use it. *)
Definition parseDecimal (s : string) : option Z :=
  option_map Z.of_int (NilZero.int_of_string s).

Lemma parseDecimal_itoa (z : Z) : parseDecimal (fmt.itoa z) = Some z.
Proof.
  unfold parseDecimal, fmt.itoa.
  rewrite NilZero.isi.
  - cbn. now rewrite DecimalZ.of_to.
  - destruct z; cbn; try discriminate.
    intros [= H]. now apply (Unsigned.to_uint_nonnil p).
  - destruct z; cbn; try discriminate.
    intros [= H]. now apply (Unsigned.to_uint_nonnil p).
Qed.

#[export] Instance UnixNanoFormat : json.TimeFormat :=
  {| json.MarshalTime := fmt.itoa;
     json.UnmarshalTime := parseDecimal;
     json.UnmarshalTime_MarshalTime := fun t _ => parseDecimal_itoa t |}.

(** ** Loading and saving *)

Section StoreFacts.
Context {TF : json.TimeFormat}.

(** The record that [loadState] makes up when there is no state file. *)
Definition defaultRecord (m : Manager.t) : Refinery.t :=
  {| Refinery.RigName := rig.Name (Manager.rig m);
     Refinery.State := StateStopped;
     Refinery.PID := 0;
     Refinery.StartedAt := None;
     Refinery.CurrentMR := None;
     Refinery.LastMergeAt := None;
     Refinery.Stats := RefineryStats.zero |}.

(** The world after a successful save of [r]: the directory seen to,
    the state file holding the document of [r]. *)
Definition written (m : Manager.t) (r : Refinery.t) (w : World) : World :=
  match json.Marshal r with
  | Ok data =>
      setFiles (fun p => if String.eqb p (Manager.stateFile m)
                         then Holds data else files w p)
               (setDirs (dirs w ++ [filepath.Dir (Manager.stateFile m)]) w)
  | Err _ => w
  end.

(** The state store accepts a write. *)
Definition writable (m : Manager.t) (w : World) : Prop :=
  mkdirAllErr w (filepath.Dir (Manager.stateFile m)) = None /\
  writeFileErr w (Manager.stateFile m) = None.

Lemma loadState_eq m w :
  Manager.loadState m w =
  (match files w (Manager.stateFile m) with
   | NoFile => Ok (defaultRecord m)
   | Unreadable e =>
       if IsNotExist e then Ok (defaultRecord m) else Err (PathError e)
   | Holds d => json.Unmarshal d
   end, w).
Proof.
  unfold Manager.loadState, bind, ret, os.ReadFile.
  destruct (files w (Manager.stateFile m)) as [|e|d]; try reflexivity.
  destruct (IsNotExist e); reflexivity.
Qed.

Lemma loadState_world m w : snd (Manager.loadState m w) = w.
Proof. now rewrite loadState_eq. Qed.

Lemma saveState_eq m r w :
  Manager.saveState m r w =
  match mkdirAllErr w (filepath.Dir (Manager.stateFile m)) with
  | Some e => (Some (PathError e), w)
  | None =>
      let w1 := setDirs (dirs w ++ [filepath.Dir (Manager.stateFile m)]) w in
      match json.Marshal r with
      | Err e => (Some e, w1)
      | Ok _ =>
          match writeFileErr w (Manager.stateFile m) with
          | Some e => (Some (PathError e), w1)
          | None => (None, written m r w)
          end
      end
  end.
Proof.
  unfold Manager.saveState, bind, ret, os.MkdirAll, os.WriteFile, written.
  destruct (mkdirAllErr w _); [reflexivity|].
  destruct (json.Marshal r); [|reflexivity].
  cbn [writeFileErr setDirs].
  destruct (writeFileErr w _); reflexivity.
Qed.

Lemma saveState_None m r w :
  fst (Manager.saveState m r w) = None <->
  writable m w /\ marshalable r = true.
Proof.
  rewrite saveState_eq. unfold writable.
  destruct (mkdirAllErr w _); cbn; [intuition discriminate|].
  destruct (json.Marshal r) as [d|e] eqn:EM; cbn.
  - apply Marshal_Ok in EM.
    destruct (writeFileErr w _); cbn; intuition discriminate.
  - apply Marshal_error in EM. destruct EM as [_ EM]. rewrite EM.
    intuition discriminate.
Qed.

Lemma saveState_writable m r w :
  writable m w -> marshalable r = true ->
  Manager.saveState m r w = (None, written m r w).
Proof.
  intros [H1 H2] H3. rewrite saveState_eq, H1, H2.
  destruct (Marshal_marshalable r H3) as [d Hd]. now rewrite Hd.
Qed.

Lemma saveState_saved m r w :
  fst (Manager.saveState m r w) = None ->
  Manager.saveState m r w = (None, written m r w).
Proof.
  intros H. apply saveState_None in H. destruct H as [H1 H2].
  now apply saveState_writable.
Qed.

(** A save that fails reports a failed system call or the encoder's
    error, and has written no file. *)
Lemma saveState_not_sentinel m r w e :
  fst (Manager.saveState m r w) = Some e ->
  e = MarshalerError \/ exists c, e = PathError c.
Proof.
  rewrite saveState_eq.
  destruct (mkdirAllErr w _); cbn; [intros [= <-]; eauto|].
  destruct (json.Marshal r) as [d|e'] eqn:EM; cbn.
  - destruct (writeFileErr w _); cbn; [intros [= <-]; eauto|discriminate].
  - apply Marshal_error in EM. destruct EM as [-> _]. intros [= <-]. eauto.
Qed.


Lemma saveState_failed_files m r w e :
  fst (Manager.saveState m r w) = Some e ->
  files (snd (Manager.saveState m r w)) = files w.
Proof.
  rewrite saveState_eq.
  destruct (mkdirAllErr w _); cbn; [reflexivity|].
  destruct (json.Marshal r); cbn; [|reflexivity].
  destruct (writeFileErr w _); cbn; [reflexivity|discriminate].
Qed.

(** A save leaves alone what is not the file system. *)
Lemma saveState_frame m r w :
  let w' := snd (Manager.saveState m r w) in
  mkdirAllErr w' = mkdirAllErr w /\ writeFileErr w' = writeFileErr w /\
  pid w' = pid w /\ findProcessOk w' = findProcessOk w /\
  signals w' = signals w /\ clock w' = clock w /\ ticks w' = ticks w /\
  gitRemoteBranches w' = gitRemoteBranches w /\ stdout w' = stdout w.
Proof.
  rewrite saveState_eq.
  destruct (mkdirAllErr w _); [repeat split|]. cbv zeta. unfold written.
  destruct (json.Marshal r); [|repeat split].
  destruct (writeFileErr w _); repeat split.
Qed.

Lemma files_written m r w data :
  json.Marshal r = Ok data ->
  files (written m r w) =
  fun p => if String.eqb p (Manager.stateFile m) then Holds data else files w p.
Proof. intros H. unfold written. now rewrite H. Qed.

Lemma loadState_written m r w :
  marshalable r = true ->
  Manager.loadState m (written m r w) = (Ok r, written m r w).
Proof.
  intros H. destruct (Marshal_marshalable r H) as [d Hd].
  rewrite loadState_eq, (files_written m r w d Hd).
  now rewrite String.eqb_refl, (Unmarshal_Marshal r d Hd).
Qed.

Lemma loadState_saved m r w :
  fst (Manager.saveState m r w) = None ->
  fst (Manager.loadState m (snd (Manager.saveState m r w))) = Ok r.
Proof.
  intros H. rewrite (saveState_saved _ _ _ H). cbn [snd].
  apply saveState_None in H. destruct H as [_ H].
  now rewrite loadState_written.
Qed.

End StoreFacts.

(** Worlds and records for the concrete runs. *)
Module Example.

Definition theRig : rig.Rig := {| rig.Name := "gastown"; rig.Path := "/rigs/gastown" |}.

Definition m : Manager.t := NewManager theRig.

(** A world with no state file, in which every write succeeds,
    [os.FindProcess] finds every process, and the clock advances by one
    millisecond per reading from 2023-11-14 22:13:20 UTC. *)
Definition fresh : World :=
  {| files := fun _ => NoFile;
     mkdirAllErr := fun _ => None;
     writeFileErr := fun _ => None;
     dirs := [];
     pid := 4711;
     findProcessOk := fun _ => true;
     signals := [];
     clock := fun n => 1700000000 * time.Second + Z.of_nat n * time.Millisecond;
     ticks := 0;
     gitRemoteBranches := fun _ => Exited 0 "";
     stdout := [] |}.

(** The same world with a state file that holds [r]. *)
Definition holding (r : Refinery.t) : World :=
  setFiles (fun p => if String.eqb p (Manager.stateFile m)
                     then match json.Marshal r with
                          | Ok data => Holds data
                          | Err _ => NoFile
                          end
                     else NoFile) fresh.

(** A world in which the state file holds [r] and cannot be written. *)
Definition readOnly (r : Refinery.t) : World :=
  {| files := files (holding r);
     mkdirAllErr := fun _ => None;
     writeFileErr := fun _ => Some EACCES;
     dirs := [];
     pid := 4711;
     findProcessOk := fun _ => true;
     signals := [];
     clock := clock fresh;
     ticks := 0;
     gitRemoteBranches := fun _ => Exited 0 "";
     stdout := [] |}.

Definition request : MergeRequest.t :=
  {| MergeRequest.ID := "mr-Toast-1699990000";
     MergeRequest.Branch := "polecat/Toast/gt-abc";
     MergeRequest.Worker := "Toast";
     MergeRequest.IssueID := "gt-abc";
     MergeRequest.SwarmID := "swarm-7";
     MergeRequest.TargetBranch := "main";
     MergeRequest.CreatedAt := 1699990000 * time.Second;
     MergeRequest.Status := MRFailed;
     MergeRequest.Error := "merge conflict" |}.

(** A record with every optional field set. *)
Definition full : Refinery.t :=
  {| Refinery.RigName := "gastown";
     Refinery.State := StateRunning;
     Refinery.PID := 4242;
     Refinery.StartedAt := Some (1699980000 * time.Second);
     Refinery.CurrentMR := Some request;
     Refinery.LastMergeAt := Some (1699985000 * time.Second + 5);
     Refinery.Stats := RefineryStats.Build 12 3 1 2 0 |}.

(** A running record left behind by process 4242. *)
Definition stale : Refinery.t :=
  {| Refinery.RigName := "gastown";
     Refinery.State := StateRunning;
     Refinery.PID := 4242;
     Refinery.StartedAt := Some (1699980000 * time.Second);
     Refinery.CurrentMR := None;
     Refinery.LastMergeAt := None;
     Refinery.Stats := RefineryStats.zero |}.

End Example.

Section RoundTrip.
Context {TF : json.TimeFormat}.




End RoundTrip.



(** ** Status, Start and Stop *)

Section Lifecycle.
Context {TF : json.TimeFormat}.

(** The record that [Status] and [Stop] write: stopped, no process. *)
Definition stopped (ref : Refinery.t) : Refinery.t :=
  Refinery.setPID 0 (Refinery.setState StateStopped ref).

(** The record that [Start] writes at time [now] in process [self]. *)
Definition started (now : time.Time) (self : Z) (ref : Refinery.t) : Refinery.t :=
  Refinery.setPID self
    (Refinery.setStartedAt (Some now) (Refinery.setState StateRunning ref)).

(** The test that [Status] and [Start] make before they probe the
    process: the record says running and names a process. *)
Definition claimsProcess (ref : Refinery.t) : bool :=
  (String.eqb (Refinery.State ref) StateRunning && (0 <? Refinery.PID ref))%bool.

(** The liveness check fails for every process: [Signal(nil)] always
    reports an error. *)
Lemma processExists_eq p w : processExists p w = (false, w).
Proof.
  unfold processExists, bind, ret, os.FindProcess, os.SignalNil.
  destruct (findProcessOk w p); reflexivity.
Qed.

Lemma loadState_pair m w ref :
  fst (Manager.loadState m w) = Ok ref -> Manager.loadState m w = (Ok ref, w).
Proof.
  intros H. rewrite (surjective_pairing (Manager.loadState m w)).
  now rewrite H, loadState_world.
Qed.

Lemma loadState_files m w1 w2 :
  files w1 = files w2 ->
  fst (Manager.loadState m w1) = fst (Manager.loadState m w2).
Proof.
  intros H. rewrite !loadState_eq. cbn. now rewrite H.
Qed.

Lemma claimsProcess_true ref :
  claimsProcess ref = true <->
  Refinery.State ref = StateRunning /\ 0 < Refinery.PID ref.
Proof.
  unfold claimsProcess.
  rewrite Bool.andb_true_iff, String.eqb_eq, Z.ltb_lt. reflexivity.
Qed.

Lemma Status_eq m w ref :
  fst (Manager.loadState m w) = Ok ref ->
  Manager.Status m w =
  if (claimsProcess ref && negb (fst (processExists (Refinery.PID ref) w)))%bool
  then (Ok (stopped ref), snd (Manager.saveState m (stopped ref) w))
  else (Ok ref, w).
Proof.
  intros H. apply loadState_pair in H.
  unfold Manager.Status, bind. rewrite H.
  fold (claimsProcess ref).
  destruct (claimsProcess ref); [|reflexivity].
  rewrite processExists_eq. cbn [fst andb negb].
  fold (stopped ref).
  destruct (Manager.saveState m (stopped ref) w); reflexivity.
Qed.

(** C1 (amended). When the stored record says running and names a
    process that fails the liveness check, [Status] returns the record
    with state stopped and the process identifier cleared, and it has
    tried to save that record before it returns.  What the save reports
    is dropped: [Status] reports success either way, and a load that
    follows sees the corrected record when the save succeeded. *)
Theorem Status_heals_stale_record (m : Manager.t) (w : World) (ref : Refinery.t) :
  fst (Manager.loadState m w) = Ok ref ->
  Refinery.State ref = StateRunning ->
  0 < Refinery.PID ref ->
  fst (processExists (Refinery.PID ref) w) = false ->
  fst (Manager.Status m w) = Ok (stopped ref) /\
  Refinery.State (stopped ref) = StateStopped /\
  Refinery.PID (stopped ref) = 0 /\
  snd (Manager.Status m w) = snd (Manager.saveState m (stopped ref) w) /\
  (fst (Manager.saveState m (stopped ref) w) = None ->
   fst (Manager.loadState m (snd (Manager.Status m w))) = Ok (stopped ref)).
Proof.
  intros Hload Hstate Hpid Hdead.
  rewrite (Status_eq _ _ _ Hload), Hdead.
  assert (claimsProcess ref = true) as -> by now apply claimsProcess_true.
  cbn [andb negb fst snd].
  repeat split; trivial.
  apply loadState_saved.
Qed.

End Lifecycle.

Lemma Status_heals_stale_record_witness :
  fst (Manager.loadState Example.m (Example.holding Example.stale)) = Ok Example.stale /\
  fst (Manager.Status Example.m (Example.holding Example.stale))
  = Ok (stopped Example.stale) /\
  fst (Manager.loadState Example.m
         (snd (Manager.Status Example.m (Example.holding Example.stale))))
  = Ok (stopped Example.stale).
Proof.
  assert (fst (Manager.loadState Example.m (Example.holding Example.stale))
          = Ok Example.stale) as Hload by (vm_compute; reflexivity).
  assert (Refinery.State Example.stale = StateRunning) as Hrun by reflexivity.
  assert (0 < Refinery.PID Example.stale) as Hpid by reflexivity.
  assert (fst (processExists (Refinery.PID Example.stale)
                 (Example.holding Example.stale)) = false) as Hdead
      by reflexivity.
  destruct (Status_heals_stale_record Example.m (Example.holding Example.stale)
              Example.stale Hload Hrun Hpid Hdead)
    as (Hret & _ & _ & _ & Hsaved).
  split; [exact Hload|].
  split; [exact Hret|].
  apply Hsaved. vm_compute. reflexivity.
Defined.

(** C1, as stated, fails when the store refuses the write: [Status]
    answers stopped, and the load that follows still sees the record
    as running with its process identifier. *)
Lemma Status_correction_lost_on_read_only_store :
  fst (Manager.loadState Example.m (Example.readOnly Example.stale)) = Ok Example.stale /\
  Refinery.State Example.stale = StateRunning /\
  fst (processExists (Refinery.PID Example.stale) (Example.readOnly Example.stale)) = false /\
  fst (Manager.Status Example.m (Example.readOnly Example.stale))
  = Ok (stopped Example.stale) /\
  fst (Manager.loadState Example.m
         (snd (Manager.Status Example.m (Example.readOnly Example.stale))))
  = Ok Example.stale /\
  stopped Example.stale <> Example.stale.
Proof.
  repeat split; try (vm_compute; reflexivity).
  vm_compute. discriminate.
Qed.

Section StartStop.
Context {TF : json.TimeFormat}.

(** The world after [Stop] has dealt with the recorded process: an
    interrupt is sent to a process other than the caller, if found. *)
Definition interrupted (ref : Refinery.t) (w : World) : World :=
  if ((0 <? Refinery.PID ref) && negb (Refinery.PID ref =? pid w)
      && findProcessOk w (Refinery.PID ref))%bool
  then setSignals (signals w ++ [(Refinery.PID ref, Interrupt)]) w
  else w.

(** How a successful [Start] ends: the background mode returns, the
    foreground mode stays in the processing loop. *)
Definition startedOutcome (foreground : bool) : Outcome (option error) :=
  if foreground then Blocks else Returns None.

Lemma Start_eq m foreground w ref :
  fst (Manager.loadState m w) = Ok ref ->
  Manager.Start m foreground w =
  if (claimsProcess ref && fst (processExists (Refinery.PID ref) w))%bool
  then (Returns (Some ErrAlreadyRunning), w)
  else
    let w1 := setTicks (S (ticks w)) w in
    let ref' := started (clock w (ticks w)) (pid w) ref in
    match fst (Manager.saveState m ref' w1) with
    | Some e => (Returns (Some e), snd (Manager.saveState m ref' w1))
    | None =>
        if foreground then Manager.run m ref' (snd (Manager.saveState m ref' w1))
        else (Returns None, snd (Manager.saveState m ref' w1))
    end.
Proof.
  intros H. apply loadState_pair in H.
  unfold Manager.Start, bind. rewrite H.
  fold (claimsProcess ref).
  destruct (claimsProcess ref); cbn [andb]; rewrite ?processExists_eq; cbn [fst];
    unfold Now, os.Getpid, ret; cbn [pid setTicks];
    fold (started (clock w (ticks w)) (pid w) ref);
    destruct (Manager.saveState m _ _) as [[e|] w2]; cbn [fst snd];
    try destruct foreground; reflexivity.
Qed.

Lemma Stop_eq m w ref :
  fst (Manager.loadState m w) = Ok ref ->
  Manager.Stop m w =
  if negb (String.eqb (Refinery.State ref) StateRunning)
  then (Some ErrNotRunning, w)
  else Manager.saveState m (stopped ref) (interrupted ref w).
Proof.
  intros H. apply loadState_pair in H.
  unfold Manager.Stop, bind. rewrite H.
  destruct (String.eqb (Refinery.State ref) StateRunning); cbn [negb]; [|reflexivity].
  unfold interrupted, os.Getpid, os.FindProcess, os.SignalInterrupt, ret.
  fold (stopped ref).
  destruct (0 <? Refinery.PID ref); cbn [andb]; [|reflexivity].
  destruct (Refinery.PID ref =? pid w); cbn [negb andb]; [reflexivity|].
  destruct (findProcessOk w (Refinery.PID ref)); reflexivity.
Qed.


Lemma files_run m ref w : files (snd (Manager.run m ref w)) = files w.
Proof. reflexivity. Qed.

Lemma run_Blocks m ref w : fst (Manager.run m ref w) = Blocks.
Proof. reflexivity. Qed.

(** What a save reports depends on the store and the record only. *)
Lemma saveState_fst m r w w' :
  mkdirAllErr w' = mkdirAllErr w -> writeFileErr w' = writeFileErr w ->
  fst (Manager.saveState m r w') = fst (Manager.saveState m r w).
Proof.
  intros H1 H2. rewrite !saveState_eq, H1, H2.
  destruct (mkdirAllErr w _); [reflexivity|]. cbv zeta.
  destruct (json.Marshal r); [|reflexivity].
  destruct (writeFileErr w _); reflexivity.
Qed.

Lemma saveState_fst_interrupted m r ref w :
  fst (Manager.saveState m r (interrupted ref w)) = fst (Manager.saveState m r w).
Proof.
  apply saveState_fst; unfold interrupted; destruct (_ && _ && _)%bool; reflexivity.
Qed.

(** [Start] never takes the branch that refuses. *)
Lemma Start_eq_save m foreground w ref :
  fst (Manager.loadState m w) = Ok ref ->
  Manager.Start m foreground w =
  let w1 := setTicks (S (ticks w)) w in
  let ref' := started (clock w (ticks w)) (pid w) ref in
  match fst (Manager.saveState m ref' w1) with
  | Some e => (Returns (Some e), snd (Manager.saveState m ref' w1))
  | None =>
      if foreground then Manager.run m ref' (snd (Manager.saveState m ref' w1))
      else (Returns None, snd (Manager.saveState m ref' w1))
  end.
Proof.
  intros H. rewrite (Start_eq _ _ _ _ H), processExists_eq. cbn [fst].
  now rewrite Bool.andb_false_r.
Qed.

(** What [Start] does when the save of the new record succeeds. *)
Lemma Start_goes_ahead m foreground w ref :
  fst (Manager.loadState m w) = Ok ref ->
  fst (Manager.saveState m (started (clock w (ticks w)) (pid w) ref) w) = None ->
  fst (Manager.Start m foreground w) = startedOutcome foreground /\
  fst (Manager.loadState m (snd (Manager.Start m foreground w)))
  = Ok (started (clock w (ticks w)) (pid w) ref).
Proof.
  intros Hload Hs.
  rewrite (Start_eq_save _ _ _ _ Hload). cbv zeta.
  rewrite <- (saveState_fst m _ w (setTicks (S (ticks w)) w)) in Hs
    by reflexivity.
  rewrite Hs.
  destruct foreground; cbn [startedOutcome].
  - rewrite run_Blocks. split; [reflexivity|].
    rewrite (loadState_files m _ _ (files_run m _ _)).
    now apply loadState_saved.
  - cbn [fst snd]. split; [reflexivity|]. now apply loadState_saved.
Qed.


Lemma marshalable_started now self ref :
  marshalable ref = true ->
  marshalable (started now self ref) = time.representable now.
Proof.
  unfold marshalable, started. cbn. intros H.
  apply Bool.andb_true_iff in H. destruct H as [H H3].
  apply Bool.andb_true_iff in H. destruct H as [_ H2].
  now rewrite H2, H3, !Bool.andb_true_r.
Qed.


(** C2 (the code departs from the claim).  The liveness check of
    [Start] fails for every process, also for one that is alive:
    [Signal(nil)] reports an error whatever the process.  So [Start]
    never fails with [ErrAlreadyRunning], not even when the loaded
    record says running and names a live process.  Whatever the record,
    [Start] sets the state to running, stamps the start time with the
    current time, records the process identifier of the caller and
    saves the record: what the save reports is what [Start] reports,
    and when the save succeeds the store holds a running record with
    that start time and that process identifier.  [Start] after a
    successful [Stop] succeeds and stamps the start time anew, when
    the current time is one that the encoding can write. *)
Theorem Start_never_reports_already_running
        (m : Manager.t) (foreground : bool) (w : World) (ref : Refinery.t) :
  fst (Manager.loadState m w) = Ok ref ->
  let now := clock w (ticks w) in
  let ref' := started now (pid w) ref in
  fst (processExists (Refinery.PID ref) w) = false /\
  fst (Manager.Start m foreground w) <> Returns (Some ErrAlreadyRunning) /\
  (Refinery.State ref' = StateRunning /\
   Refinery.StartedAt ref' = Some now /\
   Refinery.PID ref' = pid w /\
   (forall e, fst (Manager.saveState m ref' w) = Some e ->
              fst (Manager.Start m foreground w) = Returns (Some e)) /\
   (fst (Manager.saveState m ref' w) = None ->
    fst (Manager.Start m foreground w) = startedOutcome foreground /\
    exists saved,
      fst (Manager.loadState m (snd (Manager.Start m foreground w))) = Ok saved /\
      Refinery.State saved = StateRunning /\
      Refinery.StartedAt saved = Some now /\
      Refinery.PID saved = pid w)) /\
  (fst (Manager.Stop m w) = None ->
   let w1 := snd (Manager.Stop m w) in
   time.representable (clock w1 (ticks w1)) = true ->
   fst (Manager.Start m foreground w1) = startedOutcome foreground /\
   exists again,
     fst (Manager.loadState m (snd (Manager.Start m foreground w1))) = Ok again /\
     Refinery.State again = StateRunning /\
     Refinery.StartedAt again = Some (clock w1 (ticks w1)) /\
     Refinery.PID again = pid w1).
Proof.
  intros Hload now ref'.
  assert (forall e, fst (Manager.saveState m ref' w) = Some e ->
                    fst (Manager.Start m foreground w) = Returns (Some e)) as Hfail.
  { intros e He.
    rewrite (Start_eq_save _ _ _ _ Hload). cbv zeta. fold now. fold ref'.
    rewrite (saveState_fst m ref' w (setTicks (S (ticks w)) w)) by reflexivity.
    now rewrite He. }
  split; [now rewrite processExists_eq|].
  split; [|split].
  - destruct (fst (Manager.saveState m ref' w)) as [e|] eqn:Es.
    + rewrite (Hfail e eq_refl). intros [= ->].
      apply saveState_not_sentinel in Es.
      destruct Es as [Es|[c Es]]; discriminate.
    + destruct (Start_goes_ahead m foreground w ref Hload Es) as [-> _].
      destruct foreground; discriminate.
  - split; [reflexivity|]. split; [reflexivity|]. split; [reflexivity|].
    split; [exact Hfail|].
    intros Hs.
    destruct (Start_goes_ahead m foreground w ref Hload Hs) as [Hout Hnew].
    split; [exact Hout|].
    exists ref'. repeat split. exact Hnew.
  - intros Hstop w1 Hnow.
    assert (Manager.Stop m w
            = Manager.saveState m (stopped ref) (interrupted ref w)) as Heq.
    { rewrite (Stop_eq _ _ _ Hload) in Hstop |- *.
      destruct (negb (String.eqb (Refinery.State ref) StateRunning));
        [discriminate|reflexivity]. }
    unfold w1 in *. rewrite Heq in Hstop, Hnow |- *.
    assert (fst (Manager.loadState m
                   (snd (Manager.saveState m (stopped ref) (interrupted ref w))))
            = Ok (stopped ref)) as Hload2 by now apply loadState_saved.
    pose proof Hstop as Hw. apply saveState_None in Hw. destruct Hw as [Hw Hm].
    rewrite (saveState_saved _ _ _ Hstop) in Hload2, Hnow |- *. cbn [snd] in *.
    set (w2 := written m (stopped ref) (interrupted ref w)) in *.
    assert (fst (Manager.saveState m
                   (started (clock w2 (ticks w2)) (pid w2) (stopped ref)) w2) = None)
      as Hs2.
    { apply saveState_None. split.
      - unfold w2, written. destruct (json.Marshal (stopped ref)); exact Hw.
      - rewrite marshalable_started by exact Hm. exact Hnow. }
    destruct (Start_goes_ahead m foreground w2 (stopped ref) Hload2 Hs2)
      as [Hout Hnew].
    split; [exact Hout|].
    exists (started (clock w2 (ticks w2)) (pid w2) (stopped ref)).
    repeat split. exact Hnew.
Qed.

End StartStop.

(** The input on which C2 fails: the process that has started the
    refinery, and is alive, calls [Start] again.  The second call is
    not refused; it succeeds like the first. *)
Lemma Start_never_reports_already_running_witness :
  let w1 := snd (Manager.Start Example.m false Example.fresh) in
  fst (Manager.Start Example.m false Example.fresh) = Returns None /\
  fst (Manager.loadState Example.m w1)
  = Ok (started (1700000000 * time.Second) 4711 (defaultRecord Example.m)) /\
  pid w1 = 4711 /\
  fst (Manager.Start Example.m false w1) = Returns None /\
  fst (Manager.Start Example.m false w1) <> Returns (Some ErrAlreadyRunning).
Proof.
  cbv zeta.
  set (w1 := snd (Manager.Start Example.m false Example.fresh)).
  assert (fst (Manager.loadState Example.m w1)
          = Ok (started (1700000000 * time.Second) 4711 (defaultRecord Example.m)))
    as Hload by (vm_compute; reflexivity).
  destruct (Start_never_reports_already_running Example.m false w1 _ Hload)
    as (_ & Hnot & (_ & _ & _ & _ & Hok) & _).
  split; [vm_compute; reflexivity|].
  split; [exact Hload|].
  split; [reflexivity|].
  split; [|exact Hnot].
  apply Hok. vm_compute. reflexivity.
Defined.

Section StopFacts.
Context {TF : json.TimeFormat}.

Lemma Stop_load_error m w e :
  fst (Manager.loadState m w) = Err e -> Manager.Stop m w = (Some e, w).
Proof.
  intros H. unfold Manager.Stop, bind.
  rewrite (surjective_pairing (Manager.loadState m w)), H, loadState_world.
  reflexivity.
Qed.

Lemma Start_load_error m foreground w e :
  fst (Manager.loadState m w) = Err e ->
  Manager.Start m foreground w = (Returns (Some e), w).
Proof.
  intros H. unfold Manager.Start, bind.
  rewrite (surjective_pairing (Manager.loadState m w)), H, loadState_world.
  reflexivity.
Qed.

Lemma Status_load_error m w e :
  fst (Manager.loadState m w) = Err e -> Manager.Status m w = (Err e, w).
Proof.
  intros H. unfold Manager.Status, bind.
  rewrite (surjective_pairing (Manager.loadState m w)), H, loadState_world.
  reflexivity.
Qed.

(** C3. [Stop] fails with [ErrNotRunning] exactly when the state of the
    loaded record is not running, as it is for a stopped and for a
    paused record.  When the state is running, [Stop] sets it to
    stopped, clears the process identifier and saves the record: what
    the save reports is what [Stop] reports, and when it succeeds the
    store holds the updated record. *)
Theorem Stop_spec (m : Manager.t) (w : World) (ref : Refinery.t) :
  fst (Manager.loadState m w) = Ok ref ->
  (fst (Manager.Stop m w) = Some ErrNotRunning <->
   Refinery.State ref <> StateRunning) /\
  (Refinery.State ref = StateStopped \/ Refinery.State ref = StatePaused ->
   fst (Manager.Stop m w) = Some ErrNotRunning) /\
  (Refinery.State ref = StateRunning ->
   Refinery.State (stopped ref) = StateStopped /\
   Refinery.PID (stopped ref) = 0 /\
   fst (Manager.Stop m w) = fst (Manager.saveState m (stopped ref) w) /\
   (fst (Manager.Stop m w) = None ->
    fst (Manager.loadState m (snd (Manager.Stop m w))) = Ok (stopped ref))).
Proof.
  intros Hload. rewrite (Stop_eq _ _ _ Hload).
  destruct (String.eqb_spec (Refinery.State ref) StateRunning) as [E|E];
    cbn [negb fst].
  - split; [|split].
    + split; [|tauto]. intros Hs.
      apply saveState_not_sentinel in Hs.
      destruct Hs as [Hs|[c Hs]]; discriminate.
    + rewrite E. intros [H|H]; discriminate.
    + intros _.
      repeat split; [apply saveState_fst_interrupted|].
      apply loadState_saved.
  - split; [|split].
    + tauto.
    + reflexivity.
    + tauto.
Qed.

(** C10. After a [Start] that succeeds, in the background mode as well
    as in the foreground mode, the record in the store names the
    process that called [Start]: the identifier is [os.Getpid ()] in
    both modes, and no other process is involved. *)
Theorem Start_records_own_pid (m : Manager.t) (foreground : bool) (w : World) :
  fst (Manager.Start m foreground w) = Returns None \/
  fst (Manager.Start m foreground w) = Blocks ->
  exists ref',
    fst (Manager.loadState m (snd (Manager.Start m foreground w))) = Ok ref' /\
    Refinery.PID ref' = pid w /\
    pid (snd (Manager.Start m foreground w)) = pid w.
Proof.
  intros Hok.
  destruct (fst (Manager.loadState m w)) as [ref|e] eqn:Hload.
  2:{ rewrite (Start_load_error _ _ _ _ Hload) in Hok.
      destruct Hok; discriminate. }
  rewrite (Start_eq_save _ _ _ _ Hload) in Hok |- *.
  cbv zeta in Hok |- *.
  destruct (fst (Manager.saveState m _ _)) as [e|] eqn:Es.
  { destruct Hok; discriminate. }
  exists (started (clock w (ticks w)) (pid w) ref).
  pose proof (loadState_saved _ _ _ Es) as Hback.
  rewrite (saveState_saved _ _ _ Es) in Hback |- *. cbn [snd] in *.
  destruct foreground.
  - rewrite (loadState_files m _ _ (files_run m _ _)).
    rewrite Hback. repeat split.
    unfold written. now destruct (json.Marshal _).
  - cbn [snd]. rewrite Hback. repeat split.
    unfold written. now destruct (json.Marshal _).
Qed.

End StopFacts.

Lemma Stop_spec_witness :
  fst (Manager.loadState Example.m (Example.holding Example.stale)) = Ok Example.stale /\
  fst (Manager.Stop Example.m (Example.holding Example.stale)) = None /\
  fst (Manager.loadState Example.m
         (snd (Manager.Stop Example.m (Example.holding Example.stale))))
  = Ok (stopped Example.stale).
Proof.
  assert (fst (Manager.loadState Example.m (Example.holding Example.stale))
          = Ok Example.stale) as Hload by (vm_compute; reflexivity).
  split; [exact Hload|].
  destruct (Stop_spec Example.m (Example.holding Example.stale) Example.stale Hload)
    as (_ & _ & Hrun).
  destruct Hrun as (_ & _ & Hsame & Hsaved); [reflexivity|].
  assert (fst (Manager.Stop Example.m (Example.holding Example.stale)) = None) as Hnone.
  { rewrite Hsame. reflexivity. }
  split; [exact Hnone|]. apply Hsaved. exact Hnone.
Defined.

Lemma Start_records_own_pid_witness :
  fst (Manager.Start Example.m true Example.fresh) = Blocks /\
  exists ref',
    fst (Manager.loadState Example.m (snd (Manager.Start Example.m true Example.fresh)))
    = Ok ref' /\
    Refinery.PID ref' = 4711 /\
    pid (snd (Manager.Start Example.m true Example.fresh)) = 4711.
Proof.
  assert (fst (Manager.Start Example.m true Example.fresh) = Blocks) as H
      by reflexivity.
  split; [exact H|].
  apply (Start_records_own_pid Example.m true Example.fresh).
  right. exact H.
Defined.

(** ** The records that the lifecycle writes *)

Section Invariant.
Context {TF : json.TimeFormat}.

(** The invariant of the specification for a stopped agent. *)
Definition stoppedIsIdle (r : Refinery.t) : Prop :=
  Refinery.State r = StateStopped ->
  Refinery.CurrentMR r = None /\ Refinery.PID r = 0.

(** The part of it about the process identifier. *)
Definition stoppedHasNoProcess (r : Refinery.t) : Prop :=
  Refinery.State r = StateStopped -> Refinery.PID r = 0.

(** Going from [w] to [w'] an operation left the files alone, or wrote
    to the state file one record, which satisfies [P]. *)
Definition wroteOnly (m : Manager.t) (P : Refinery.t -> Prop) (w w' : World) : Prop :=
  files w' = files w \/
  exists r, files w' = files (written m r w) /\ P r.

Lemma wroteOnly_saveState m (P : Refinery.t -> Prop) r w0 w :
  files w0 = files w -> P r ->
  wroteOnly m P w (snd (Manager.saveState m r w0)).
Proof.
  intros Hf HP.
  destruct (fst (Manager.saveState m r w0)) as [e|] eqn:Es.
  - left. now rewrite (saveState_failed_files _ _ _ _ Es).
  - right. exists r. split; [|exact HP].
    rewrite (saveState_saved _ _ _ Es). cbn [snd].
    apply saveState_None in Es. destruct Es as [_ Es].
    destruct (Marshal_marshalable r Es) as [d Hd].
    rewrite !(files_written _ _ _ d Hd). now rewrite Hf.
Qed.

(** C8 (amended). The record that [loadState] makes up when there is no
    state file is stopped with no current merge request and no process.
    Every record that [Status], [Start] and [Stop] write satisfies:
    stopped implies no process identifier; and it carries the current
    merge request of the loaded record unchanged, so that a stopped
    record it writes has no current merge request when the loaded
    record had none. *)
Theorem lifecycle_writes_keep_invariant
        (m : Manager.t) (foreground : bool) (w : World) (ref : Refinery.t) :
  fst (Manager.loadState m w) = Ok ref ->
  let P r := stoppedHasNoProcess r /\
             Refinery.CurrentMR r = Refinery.CurrentMR ref /\
             (Refinery.CurrentMR ref = None -> stoppedIsIdle r) in
  stoppedIsIdle (defaultRecord m) /\
  (files w (Manager.stateFile m) = NoFile -> ref = defaultRecord m) /\
  wroteOnly m P w (snd (Manager.Status m w)) /\
  wroteOnly m P w (snd (Manager.Start m foreground w)) /\
  wroteOnly m P w (snd (Manager.Stop m w)).
Proof.
  intros Hload P.
  assert (forall r, Refinery.CurrentMR r = Refinery.CurrentMR ref ->
                    stoppedHasNoProcess r -> P r) as HP.
  { intros r Hc Hp. repeat split; trivial.
    - now rewrite Hc.
    - now apply Hp. }
  split; [|split; [|split; [|split]]].
  - intros _. split; reflexivity.
  - intros Hnone. rewrite loadState_eq, Hnone in Hload. cbn in Hload. congruence.
  - rewrite (Status_eq _ _ _ Hload).
    destruct (claimsProcess ref && _)%bool; cbn [snd]; [|left; reflexivity].
    apply wroteOnly_saveState; [reflexivity|].
    apply HP; [reflexivity|]. intros _. reflexivity.
  - rewrite (Start_eq _ _ _ _ Hload).
    destruct (claimsProcess ref && _)%bool; cbn [snd]; [left; reflexivity|].
    cbv zeta.
    assert (wroteOnly m P w
              (snd (Manager.saveState m (started (clock w (ticks w)) (pid w) ref)
                      (setTicks (S (ticks w)) w)))) as Hsave.
    { apply wroteOnly_saveState; [reflexivity|].
      apply HP; [reflexivity|]. intros Hs. discriminate Hs. }
    destruct (fst (Manager.saveState m _ _)); cbn [snd]; [exact Hsave|].
    destruct foreground; [|exact Hsave].
    destruct Hsave as [Hf|(r & Hf & Hr)];
      [left|right; exists r; split; [|exact Hr]];
      now rewrite files_run.
  - rewrite (Stop_eq _ _ _ Hload).
    destruct (negb _); cbn [snd]; [left; reflexivity|].
    apply wroteOnly_saveState.
    + unfold interrupted. destruct (_ && _ && _)%bool; reflexivity.
    + apply HP; [reflexivity|]. intros _. reflexivity.
Qed.

End Invariant.

Lemma lifecycle_writes_keep_invariant_witness :
  fst (Manager.loadState Example.m (Example.holding Example.stale)) = Ok Example.stale /\
  wroteOnly Example.m
    (fun r => stoppedHasNoProcess r /\
              Refinery.CurrentMR r = Refinery.CurrentMR Example.stale /\
              (Refinery.CurrentMR Example.stale = None -> stoppedIsIdle r))
    (Example.holding Example.stale)
    (snd (Manager.Stop Example.m (Example.holding Example.stale))).
Proof.
  assert (fst (Manager.loadState Example.m (Example.holding Example.stale))
          = Ok Example.stale) as Hload by (vm_compute; reflexivity).
  split; [exact Hload|].
  apply (lifecycle_writes_keep_invariant Example.m false
           (Example.holding Example.stale) Example.stale Hload).
Defined.

(** C8, as stated, fails for a running record that carries a current
    merge request: [Stop] writes it back as stopped, and so does the
    self-healing [Status], with the merge request still in place. *)
Lemma stopped_record_keeps_current_request :
  fst (Manager.loadState Example.m (Example.holding Example.full)) = Ok Example.full /\
  fst (Manager.Stop Example.m (Example.holding Example.full)) = None /\
  fst (Manager.loadState Example.m
         (snd (Manager.Stop Example.m (Example.holding Example.full))))
  = Ok (stopped Example.full) /\
  fst (Manager.loadState Example.m
         (snd (Manager.Status Example.m (Example.holding Example.full))))
  = Ok (stopped Example.full) /\
  Refinery.State (stopped Example.full) = StateStopped /\
  Refinery.CurrentMR (stopped Example.full) = Some Example.request /\
  ~ stoppedIsIdle (stopped Example.full).
Proof.
  repeat split; try (vm_compute; reflexivity).
  intros H. destruct H as [H _]; [reflexivity|]. discriminate H.
Qed.

(** ** The pattern of a work branch *)

Section RegexpFacts.
Import regexp.

Fixpoint runLength (test : ascii -> bool) (s : string) : nat :=
  match s with
  | String x t => if test x then S (runLength test t) else O
  | EmptyString => O
  end.

Lemma orElse_None {A} (x : option A) : orElse x None = x.
Proof. now destruct x. Qed.

Lemma runLength_pos_head test s n :
  runLength test s = S n ->
  match s with String x _ => test x = true | EmptyString => False end.
Proof.
  destruct s as [|x t]; cbn; [discriminate|].
  now destruct (test x).
Qed.

Lemma repeatGreedy_oneChar test (k : cont) s :
  (forall cur' cs',
      match rest cur' with String x _ => test x = true | EmptyString => False end ->
      k cur' cs' = None) ->
  forall p cs fuel,
    (String.length s < fuel)%nat ->
    repeatGreedy (oneChar test) k fuel {| pos := p; rest := s |} cs =
    match runLength test s with
    | O => None
    | S n => k {| pos := p + S n; rest := strings.drop (S n) s |} cs
    end.
Proof.
  intros Hk. induction s as [|x t IH]; intros p cs fuel Hfuel.
  - destruct fuel; [inversion Hfuel|]. reflexivity.
  - destruct fuel as [|fuel]; [inversion Hfuel|].
    cbn [repeatGreedy oneChar rest runLength].
    destruct (test x) eqn:Hx; [|reflexivity].
    unfold advance; cbn [pos].
    replace (Nat.leb (S p) p) with false by (symmetry; apply Nat.leb_gt; lia).
    rewrite IH by (cbn in Hfuel; lia).
    destruct (runLength test t) as [|n] eqn:Hn.
    + cbn [orElse strings.drop]. now rewrite Nat.add_1_r.
    + rewrite (Hk {| pos := S p; rest := t |} cs)
        by (apply (runLength_pos_head _ _ _ Hn)).
      rewrite orElse_None. cbn [strings.drop].
      now replace (S p + S n)%nat with (p + S (S n))%nat by lia.
Qed.

Lemma backtrack_lits pre : forall s p cs (k : cont),
  backtrack (lits pre) {| pos := p; rest := s |} cs k =
  if String.prefix pre s
  then k {| pos := p + String.length pre; rest := strings.drop (String.length pre) s |} cs
  else None.
Proof.
  induction pre as [|c pre IH]; intros s p cs k.
  - cbn. destruct s; now rewrite Nat.add_0_r.
  - cbn [lits backtrack oneChar rest String.prefix String.length strings.drop].
    destruct s as [|x t]; [reflexivity|].
    unfold oneChar; cbn [rest String.prefix].
    destruct (Ascii.eqb_spec c x) as [->|Hne].
    + destruct (ascii_dec x x) as [_|N]; [|contradiction].
      unfold advance; cbn [pos]. rewrite IH.
      now replace (S p + String.length pre)%nat with (p + S (String.length pre))%nat by lia.
    + destruct (ascii_dec c x) as [E|_]; [subst; contradiction|reflexivity].
Qed.

Definition notSlash (x : ascii) : bool := negb (memb x ["/"%char]).
Definition notNewline (x : ascii) : bool := negb (Ascii.eqb x newline).

Definition parseBranch (b : string) : option (string * string) :=
  if String.prefix "polecat/" b then
    let s := strings.drop 8 b in
    match runLength notSlash s with
    | O => None
    | S n =>
        let worker := String.substring 0 (S n) s in
        match strings.drop (S n) s with
        | EmptyString => Some (worker, EmptyString)
        | String _ issue =>
            match runLength notNewline issue with
            | O => None
            | S j =>
                match strings.drop (S j) issue with
                | EmptyString => Some (worker, issue)
                | String _ _ => None
                end
            end
        end
    end
  else None.

Lemma searchFrom_anchored fuel : forall p s,
  searchFrom branchPattern fuel {| pos := S p; rest := s |} = None.
Proof.
  induction fuel as [|fuel IH]; intros p s.
  - reflexivity.
  - cbn [searchFrom]. 
    change (backtrack branchPattern {| pos := S p; rest := s |} noCaptures _) with (@None captures).
    cbn [rest]. destruct s as [|x t]; [reflexivity|].
    unfold advance; cbn [pos]. apply IH.
Qed.

Lemma drop_runLength_head test s :
  match strings.drop (runLength test s) s with
  | String y _ => test y = false
  | EmptyString => True
  end.
Proof.
  induction s as [|x t IH]; cbn; [exact I|].
  destruct (test x) eqn:E; cbn; [exact IH|exact E].
Qed.

Lemma length_drop n : forall s, (String.length (strings.drop n s) = String.length s - n)%nat.
Proof.
  induction n as [|n IH]; intros s; cbn.
  - lia.
  - destruct s; cbn; [reflexivity|apply IH].
Qed.

Lemma runLength_le test s : (runLength test s <= String.length s)%nat.
Proof.
  induction s as [|x t IH]; cbn; [lia|]. destruct (test x); lia.
Qed.

Lemma substring_all s : String.substring 0 (String.length s) s = s.
Proof. induction s; cbn; [reflexivity|now f_equal]. Qed.

Lemma substring_drop_empty n : forall s,
  strings.drop n s = EmptyString -> String.substring 0 n s = s.
Proof.
  induction n as [|n IH]; intros s; cbn.
  - intros ->. reflexivity.
  - destruct s as [|x t]; [reflexivity|]. intros H. cbn. f_equal. now apply IH.
Qed.

Lemma drop_empty_length n : forall s,
  (n <= String.length s)%nat -> strings.drop n s = EmptyString -> n = String.length s.
Proof.
  induction n as [|n IH]; intros s Hle; cbn.
  - intros ->. reflexivity.
  - destruct s as [|x t]; cbn in *; [lia|]. intros H. f_equal. apply IH; [lia|exact H].
Qed.

Lemma prefix_length p : forall b,
  String.prefix p b = true ->
  String.length b = (String.length p + String.length (strings.drop (String.length p) b))%nat.
Proof.
  induction p as [|c p IH]; intros b; cbn.
  - reflexivity.
  - destruct b as [|x t]; [discriminate|]. cbn [String.prefix].
    destruct (ascii_dec c x) as [E|E]; intros H; [|discriminate H].
    cbn. f_equal. now apply IH.
Qed.

Lemma FindStringSubmatch_branchPattern b :
  FindStringSubmatch branchPattern b =
  match parseBranch b with
  | Some (worker, issue) => Some [b; worker; issue]
  | None => None
  end.
Proof.
  unfold FindStringSubmatch, parseBranch.
  assert (forall fuel,
    searchFrom branchPattern fuel {| pos := 0; rest := b |} =
    backtrack branchPattern {| pos := 0; rest := b |} noCaptures
      (fun cur' cs' => Some (setCapture 0 (between {| pos := 0; rest := b |} cur') cs')))
    as Hsearch.
  { intros fuel. destruct fuel; cbn [searchFrom];
      destruct (backtrack branchPattern _ _ _); try reflexivity.
    cbn [rest]. destruct b; [reflexivity|]. apply searchFrom_anchored. }
  rewrite Hsearch. clear Hsearch.
  set (final := fun cur' cs' => Some (setCapture 0 (between {| pos := 0; rest := b |} cur') cs')).
  unfold branchPattern. cbn [backtrack pos Nat.eqb].
  rewrite backtrack_lits.
  destruct (String.prefix "polecat/" b) eqn:Hpre; [|reflexivity].
  pose proof (prefix_length _ _ Hpre) as Hlen.
  change (String.length "polecat/") with 8%nat in *.
  cbn [Nat.add rest numCaptures Nat.max seq map].
  set (s := strings.drop 8 b) in *.
  change (fun (cur : cursor) (cs : captures) (k : cont) =>
            oneChar (fun x : ascii => negb (memb x ["/"%char])) cur cs k)
    with (oneChar notSlash).
  change (fun (cur : cursor) (cs : captures) (k : cont) =>
            oneChar (fun x : ascii => negb (Ascii.eqb x newline)) cur cs k)
    with (oneChar notNewline).
  rewrite repeatGreedy_oneChar; [| |lia].
  2:{ intros cur' cs' Hhead.
      destruct (rest cur') as [|x t] eqn:Hrest; [contradiction|].
      unfold oneChar. rewrite Hrest.
      replace (Ascii.eqb "/" x) with false; [reflexivity|].
      symmetry. apply Ascii.eqb_neq. intros <-. discriminate Hhead. }
  pose proof (drop_runLength_head notSlash s) as Hhead.
  pose proof (runLength_le notSlash s) as Hle.
  destruct (runLength notSlash s) as [|n]; [reflexivity|].
  pose proof (length_drop (S n) s) as Hdrop.
  unfold oneChar at 1. cbn [rest].
  destruct (strings.drop (S n) s) as [|y tail] eqn:Htail.
  - cbn [orElse]. unfold final, between, setCapture; cbn [pos rest Nat.eqb].
    apply drop_empty_length in Htail; [|exact Hle].
    replace (8 + S n - 0)%nat with (String.length b) by lia.
    replace (8 + S n - 8)%nat with (S n) by lia.
    now rewrite substring_all.
  - assert (y = "/"%char) as ->.
    { unfold notSlash, memb in Hhead. cbn in Hhead.
      destruct (Ascii.eqb_spec y "/"); [assumption|discriminate]. }
    cbn [Ascii.eqb Bool.eqb]. unfold advance; cbn [pos rest].
    rewrite repeatGreedy_oneChar; [| |lia].
    2:{ intros cur' cs' Hh. destruct (rest cur'); [contradiction|reflexivity]. }
    pose proof (runLength_le notNewline tail) as Hle2.
    destruct (runLength notNewline tail) as [|j]; [reflexivity|].
    cbn [rest].
    destruct (strings.drop (S j) tail) as [|z rest'] eqn:Hend; [|reflexivity].
    cbn [orElse]. unfold final, between, setCapture; cbn [pos rest Nat.eqb].
    pose proof (substring_drop_empty _ _ Hend) as Hissue.
    apply drop_empty_length in Hend; [|exact Hle2].
    cbn [String.length] in Hdrop.
    replace (S (8 + S n) + S j - 0)%nat with (String.length b) by lia.
    replace (8 + S n - 8)%nat with (S n) by lia.
    replace (S (8 + S n) + S j - S (8 + S n))%nat with (S j) by lia.
    now rewrite substring_all, Hissue.
Qed.

(** Whether a character occurs in a string. *)
Fixpoint occurs (c : ascii) (s : string) : bool :=
  match s with
  | EmptyString => false
  | String x t => (Ascii.eqb x c || occurs c t)%bool
  end.

(** The form of a work branch in the words of the specification:
    [polecat/<worker>] or [polecat/<worker>/<issue>], the worker a
    segment that is not empty, the issue what follows the second
    slash. *)
Definition workBranchForm (b worker issue : string) : Prop :=
  worker <> EmptyString /\ occurs "/" worker = false /\
  ((issue = EmptyString /\ b = "polecat/" ++ worker) \/
   (issue <> EmptyString /\ b = "polecat/" ++ worker ++ "/" ++ issue)).

Lemma append_empty_r s : s ++ EmptyString = s.
Proof. induction s; cbn; [reflexivity|now f_equal]. Qed.

Lemma notSlash_eq x : notSlash x = negb (Ascii.eqb x "/").
Proof. unfold notSlash, memb. cbn. now rewrite Bool.orb_false_r. Qed.

Lemma occurs_app c s1 s2 :
  occurs c (s1 ++ s2) = (occurs c s1 || occurs c s2)%bool.
Proof.
  induction s1 as [|x t IH]; cbn; [reflexivity|].
  now rewrite IH, Bool.orb_assoc.
Qed.

Lemma append_drop n : forall s, String.substring 0 n s ++ strings.drop n s = s.
Proof.
  induction n as [|n IH]; intros s; cbn.
  - now destruct s.
  - destruct s as [|x t]; [reflexivity|]. cbn. now rewrite IH.
Qed.

Lemma prefix_append p : forall b,
  String.prefix p b = true -> b = p ++ strings.drop (String.length p) b.
Proof.
  induction p as [|c p IH]; intros b; cbn.
  - reflexivity.
  - destruct b as [|x t]; [discriminate|]. cbn [String.prefix].
    destruct (ascii_dec c x) as [E|E]; intros H; [|discriminate H].
    subst. cbn. f_equal. now apply IH.
Qed.

Lemma prefix_app p s : String.prefix p (p ++ s) = true.
Proof.
  induction p as [|c p IH]; cbn; [now destruct s|].
  destruct (ascii_dec c c); [exact IH|contradiction].
Qed.

Lemma drop_app p s : strings.drop (String.length p) (p ++ s) = s.
Proof. induction p; cbn; auto. Qed.

Lemma substring_app p s : String.substring 0 (String.length p) (p ++ s) = p.
Proof.
  induction p as [|c p IH]; cbn.
  - now destruct s.
  - now rewrite IH.
Qed.

Lemma occurs_runLength_prefix c test s :
  (forall x, test x = negb (Ascii.eqb x c)) ->
  occurs c (String.substring 0 (runLength test s) s) = false.
Proof.
  intros Ht. induction s as [|x t IH]; cbn; [reflexivity|].
  rewrite Ht. destruct (Ascii.eqb x c) eqn:E; cbn; [reflexivity|].
  now rewrite E, IH.
Qed.

Lemma runLength_app c test w tail :
  (forall x, test x = negb (Ascii.eqb x c)) ->
  occurs c w = false ->
  match tail with String y _ => y = c | EmptyString => True end ->
  runLength test (w ++ tail) = String.length w.
Proof.
  intros Ht. induction w as [|x t IH]; cbn; intros Hw Htail.
  - destruct tail as [|y r]; [reflexivity|]. cbn. subst.
    now rewrite Ht, Ascii.eqb_refl.
  - apply Bool.orb_false_elim in Hw. destruct Hw as [Hx Hw].
    rewrite Ht, Hx. cbn. f_equal. now apply IH.
Qed.

Lemma parseBranch_sound b worker issue :
  parseBranch b = Some (worker, issue) -> workBranchForm b worker issue.
Proof.
  unfold parseBranch.
  destruct (String.prefix "polecat/" b) eqn:Hpre; [|discriminate].
  apply prefix_append in Hpre. change (String.length "polecat/") with 8%nat in Hpre.
  remember (strings.drop 8 b) as s eqn:Hs. clear Hs.
  pose proof (occurs_runLength_prefix "/" notSlash s notSlash_eq) as Hocc.
  pose proof (drop_runLength_head notSlash s) as Hhead.
  pose proof (append_drop (runLength notSlash s) s) as Hsplit.
  destruct (runLength notSlash s) as [|n] eqn:Hn; [discriminate|].
  assert (String.substring 0 (S n) s <> EmptyString) as Hne.
  { destruct s; cbn; [discriminate Hn|discriminate]. }
  destruct (strings.drop (S n) s) as [|y tail] eqn:Htail.
  - intros [= <- <-]. repeat split; trivial. left. split; [reflexivity|].
    rewrite append_empty_r in Hsplit. now rewrite Hsplit.
  - rewrite notSlash_eq in Hhead.
    destruct (Ascii.eqb_spec y "/") as [->|]; [|discriminate].
    destruct (runLength notNewline tail) as [|j] eqn:Hj; [discriminate|].
    destruct (strings.drop (S j) tail); [|discriminate].
    intros [= <- <-]. repeat split; trivial. right. split.
    + destruct tail; [discriminate Hj|discriminate].
    + cbn [append]. now rewrite Hsplit.
Qed.

Lemma runLength_all c test w :
  (forall x, test x = negb (Ascii.eqb x c)) ->
  occurs c w = false -> runLength test w = String.length w.
Proof.
  intros Ht Hw. rewrite <- (append_empty_r w) at 1.
  now apply (runLength_app c).
Qed.

Lemma drop_all w : strings.drop (String.length w) w = EmptyString.
Proof. induction w; cbn; auto. Qed.

Lemma parseBranch_complete b worker issue :
  occurs newline b = false ->
  workBranchForm b worker issue -> parseBranch b = Some (worker, issue).
Proof.
  intros Hnl (Hne & Hslash & Hform).
  assert (exists n, String.length worker = S n) as [n Hn].
  { destruct worker; [contradiction|]. cbn. eauto. }
  unfold parseBranch.
  destruct Hform as [[-> ->]|[Hiss ->]].
  - rewrite prefix_app.
    change 8%nat with (String.length "polecat/"). rewrite drop_app.
    rewrite (runLength_all "/" notSlash worker notSlash_eq Hslash).
    rewrite Hn, <- Hn, drop_all, substring_all.
    reflexivity.
  - rewrite prefix_app.
    change 8%nat with (String.length "polecat/"). rewrite drop_app.
    rewrite (runLength_app "/" notSlash worker ("/" ++ issue) notSlash_eq Hslash eq_refl).
    rewrite Hn, <- Hn, drop_app, substring_app.
    cbn [append].
    rewrite !occurs_app in Hnl.
    apply Bool.orb_false_elim in Hnl. destruct Hnl as [_ Hnl].
    apply Bool.orb_false_elim in Hnl. destruct Hnl as [_ Hnl].
    apply Bool.orb_false_elim in Hnl. destruct Hnl as [_ Hnl].
    assert (exists j, String.length issue = S j) as [j Hj].
    { destruct issue; [contradiction|]. cbn. eauto. }
    rewrite (runLength_all newline notNewline issue (fun x => eq_refl) Hnl).
    rewrite Hj, <- Hj, drop_all.
    reflexivity.
Qed.

Lemma branchToMR_eq m b w :
  Manager.branchToMR m b w =
  match parseBranch b with
  | None => (None, w)
  | Some (worker, issue) =>
      (Some {| MergeRequest.ID :=
                 "mr-" ++ worker ++ "-" ++ fmt.itoa (time.Unix (clock w (ticks w)));
               MergeRequest.Branch := b;
               MergeRequest.Worker := worker;
               MergeRequest.IssueID := issue;
               MergeRequest.SwarmID := "";
               MergeRequest.TargetBranch := "main";
               MergeRequest.CreatedAt := clock w (S (ticks w));
               MergeRequest.Status := MRPending;
               MergeRequest.Error := "" |},
       setTicks (S (S (ticks w))) w)
  end.
Proof.
  unfold Manager.branchToMR. rewrite FindStringSubmatch_branchPattern.
  destruct (parseBranch b) as [[worker issue]|]; reflexivity.
Qed.

(** C5. A branch name (a text without line break) is accepted exactly
    when it has the form [polecat/<worker>] or
    [polecat/<worker>/<issue>] with a worker segment that is not empty.
    The merge request of an accepted branch carries that worker, the
    issue (empty when there is none), the status pending and the
    default target branch.  A name of another form, such as
    [not-a-worker-branch], gives no merge request and no error, and the
    queue passes over it. *)
Theorem branchToMR_spec (m : Manager.t) (b : string) (w : World) :
  occurs regexp.newline b = false ->
  (fst (Manager.branchToMR m b w) <> None <->
   exists worker issue, workBranchForm b worker issue) /\
  (forall worker issue,
      workBranchForm b worker issue <->
      exists mr, fst (Manager.branchToMR m b w) = Some mr /\
                 MergeRequest.Worker mr = worker /\
                 MergeRequest.IssueID mr = issue) /\
  (forall mr,
      fst (Manager.branchToMR m b w) = Some mr ->
      MergeRequest.Branch mr = b /\
      MergeRequest.Status mr = MRPending /\
      MergeRequest.TargetBranch mr = "main") /\
  fst (Manager.branchToMR m "not-a-worker-branch" w) = None /\
  (forall items pos,
      fst (Manager.queueBranches m ["not-a-worker-branch"] items pos w) = items).
Proof.
  intros Hnl.
  assert (forall worker issue,
             workBranchForm b worker issue <->
             exists mr, fst (Manager.branchToMR m b w) = Some mr /\
                        MergeRequest.Worker mr = worker /\
                        MergeRequest.IssueID mr = issue) as Hiff.
  { intros worker issue. rewrite branchToMR_eq. split.
    - intros Hform. rewrite (parseBranch_complete _ _ _ Hnl Hform).
      cbn [fst]. eexists. repeat split.
    - intros (mr & Hmr & <- & <-).
      destruct (parseBranch b) as [[wk iss]|] eqn:Hp; [|discriminate].
      cbn [fst] in Hmr. injection Hmr as <-. cbn.
      now apply parseBranch_sound. }
  split; [|split; [exact Hiff|split; [|split]]].
  - split.
    + intros Hsome.
      destruct (fst (Manager.branchToMR m b w)) as [mr|] eqn:Hmr; [|contradiction].
      exists (MergeRequest.Worker mr), (MergeRequest.IssueID mr).
      apply Hiff. exists mr. repeat split.
    + intros (worker & issue & Hform).
      apply Hiff in Hform. destruct Hform as (mr & -> & _). discriminate.
  - intros mr. rewrite branchToMR_eq.
    destruct (parseBranch b) as [[wk iss]|]; [|discriminate].
    cbn [fst]. intros [= <-]. repeat split.
  - reflexivity.
  - intros items pos. reflexivity.
Qed.

End RegexpFacts.

Lemma branchToMR_spec_witness :
  occurs regexp.newline "polecat/w1/iss1" = false /\
  exists mr,
    fst (Manager.branchToMR Example.m "polecat/w1/iss1" Example.fresh) = Some mr /\
    MergeRequest.Worker mr = "w1" /\
    MergeRequest.IssueID mr = "iss1".
Proof.
  assert (occurs regexp.newline "polecat/w1/iss1" = false) as Hnl by reflexivity.
  split; [exact Hnl|].
  destruct (branchToMR_spec Example.m "polecat/w1/iss1" Example.fresh Hnl)
    as (_ & Hiff & _).
  apply Hiff.
  split; [discriminate|]. split; [reflexivity|].
  right. split; [discriminate|reflexivity].
Defined.

(** ** The queue *)

Section QueueFacts.
Context {TF : json.TimeFormat}.

(** A branch is accepted when [branchToMR] gives a merge request for
    it, that is, when the pattern matches. *)
Definition acceptedBranch (b : string) : bool :=
  match regexp.FindStringSubmatch branchPattern b with
  | Some _ => true
  | None => false
  end.

(** The positions [pos], [pos + 1], ... of [n] consecutive items. *)
Definition positionsFrom (pos : Z) (n : nat) : list Z :=
  map (fun i => pos + Z.of_nat i) (seq 0 n).

(** The source branch that a queue item shows. *)
Definition branchOf (it : QueueItem.t) : option string :=
  option_map MergeRequest.Branch (QueueItem.MR it).

(** The item of the current merge request of a record, if it has one,
    as [Queue] makes it in the world [w]. *)
Definition currentItem (ref : Refinery.t) (w : World) : list QueueItem.t :=
  match Refinery.CurrentMR ref with
  | Some cur =>
      [{| QueueItem.Position := 0;
          QueueItem.MR := Some cur;
          QueueItem.Age :=
            formatDuration (time.Sub (clock w (ticks w)) (MergeRequest.CreatedAt cur)) |}]
  | None => []
  end.

Lemma formatAge_eq t w :
  formatAge t w =
  (formatDuration (time.Sub (clock w (ticks w)) t), setTicks (S (ticks w)) w).
Proof. reflexivity. Qed.

Lemma positionsFrom_S pos n :
  positionsFrom pos (S n) = pos :: positionsFrom (pos + 1) n.
Proof.
  unfold positionsFrom. cbn [seq map].
  rewrite <- seq_shift, map_map. f_equal; [cbn; lia|].
  apply map_ext. intros i. lia.
Qed.

Lemma positionsFrom_1 n : positionsFrom 1 n = map Z.of_nat (seq 1 n).
Proof.
  unfold positionsFrom. rewrite <- seq_shift, map_map.
  apply map_ext. intros i. lia.
Qed.

Lemma acceptedBranch_parse b :
  acceptedBranch b = match parseBranch b with Some _ => true | None => false end.
Proof.
  unfold acceptedBranch. rewrite FindStringSubmatch_branchPattern.
  now destruct (parseBranch b) as [[? ?]|].
Qed.

Lemma queueBranches_spec m branches : forall items pos w,
  exists pending,
    fst (Manager.queueBranches m branches items pos w) = (items ++ pending)%list /\
    map QueueItem.Position pending = positionsFrom pos (List.length pending) /\
    map branchOf pending = map Some (filter acceptedBranch branches).
Proof.
  induction branches as [|b more IH]; intros items pos w.
  - exists []. cbn. now rewrite app_nil_r.
  - cbn [Manager.queueBranches filter]. unfold bind.
    rewrite acceptedBranch_parse, branchToMR_eq.
    destruct (parseBranch b) as [[worker issue]|].
    + rewrite formatAge_eq.
      match goal with
      | |- context [Manager.queueBranches m more (items ++ [?it])%list (pos + 1) ?w'] =>
          destruct (IH (items ++ [it])%list (pos + 1) w') as (pending & Hq & Hpos & Hbr);
          exists (it :: pending)
      end.
      rewrite Hq, <- app_assoc. cbn [app List.length map].
      rewrite positionsFrom_S, Hpos, Hbr. repeat split.
    + destruct (IH items pos w) as (pending & Hq & Hpos & Hbr).
      exists pending. repeat split; assumption.
Qed.

Lemma discoverWorkBranches_world m w : snd (Manager.discoverWorkBranches m w) = w.
Proof.
  unfold Manager.discoverWorkBranches.
  destruct (gitRemoteBranches w _) as [[|p|p] out|e]; reflexivity.
Qed.

(** With branches discovered and a record loaded, [Queue] returns a
    queue. *)
Lemma Queue_returns m w branches ref :
  fst (Manager.discoverWorkBranches m w) = Ok branches ->
  fst (Manager.loadState m w) = Ok ref ->
  exists items, fst (Manager.Queue m w) = Ok items.
Proof.
  intros Hdisc Hload.
  unfold Manager.Queue, bind.
  rewrite (surjective_pairing (Manager.discoverWorkBranches m w)),
    Hdisc, discoverWorkBranches_world.
  rewrite (loadState_pair _ _ _ Hload).
  destruct (Refinery.CurrentMR ref) as [cur|].
  - rewrite formatAge_eq. unfold ret.
    match goal with
    | |- context [Manager.queueBranches m branches ?items 1 ?w'] =>
        destruct (Manager.queueBranches m branches items 1 w') as [items' w'']
    end.
    cbn [fst]. eexists. reflexivity.
  - unfold ret.
    destruct (Manager.queueBranches m branches [] 1 w) as [items' w''].
    cbn [fst]. eexists. reflexivity.
Qed.

(** C4. Whatever the record and the discovered branches are, the queue
    starts with the current merge request of the record at position 0
    when there is one, followed by one item for each accepted
    discovered branch, in the order of discovery, at the positions
    1, 2, ..., N.  Nothing is left out because it shows the same branch
    as another item: the pending items are as many as the accepted
    branches, also when one of them is the branch of the current
    request. *)
Theorem Queue_order (m : Manager.t) (w : World)
        (branches : list string) (ref : Refinery.t) :
  fst (Manager.discoverWorkBranches m w) = Ok branches ->
  fst (Manager.loadState m w) = Ok ref ->
  exists pending,
    fst (Manager.Queue m w) = Ok (currentItem ref w ++ pending)%list /\
    map QueueItem.Position (currentItem ref w) = map (fun _ => 0) (currentItem ref w) /\
    map QueueItem.MR (currentItem ref w)
    = match Refinery.CurrentMR ref with Some cur => [Some cur] | None => [] end /\
    map QueueItem.Position pending = map Z.of_nat (seq 1 (List.length pending)) /\
    map branchOf pending = map Some (filter acceptedBranch branches) /\
    List.length pending = List.length (filter acceptedBranch branches).
Proof.
  intros Hdisc Hload.
  unfold Manager.Queue, bind.
  rewrite (surjective_pairing (Manager.discoverWorkBranches m w)),
    Hdisc, discoverWorkBranches_world.
  rewrite (loadState_pair _ _ _ Hload).
  unfold currentItem.
  destruct (Refinery.CurrentMR ref) as [cur|].
  - rewrite formatAge_eq. unfold ret.
    match goal with
    | |- context [Manager.queueBranches m branches ?items 1 ?w'] =>
        destruct (queueBranches_spec m branches items 1 w')
          as (pending & Hq & Hpos & Hbr)
    end.
    exists pending.
    rewrite (surjective_pairing (Manager.queueBranches m branches _ 1 _)), Hq.
    cbn [fst]. rewrite <- positionsFrom_1.
    repeat split; trivial.
    rewrite <- (length_map branchOf), Hbr, length_map. reflexivity.
  - unfold ret.
    destruct (queueBranches_spec m branches [] 1 w) as (pending & Hq & Hpos & Hbr).
    exists pending.
    rewrite (surjective_pairing (Manager.queueBranches m branches _ 1 _)), Hq.
    cbn [fst]. rewrite <- positionsFrom_1.
    repeat split; trivial.
    rewrite <- (length_map branchOf), Hbr, length_map. reflexivity.
Qed.

End QueueFacts.

(** A world for the queue: the state file holds [Example.full], whose
    current request is on the branch [polecat/Toast/gt-abc], and the
    remote has that branch too, next to two others. *)
Definition queueWorld : World :=
  {| files := files (Example.holding Example.full);
     mkdirAllErr := fun _ => None;
     writeFileErr := fun _ => None;
     dirs := [];
     pid := 4711;
     findProcessOk := fun _ => true;
     signals := [];
     clock := clock Example.fresh;
     ticks := 0;
     gitRemoteBranches := fun _ =>
       Exited 0 "  origin/HEAD -> origin/main
  origin/polecat/w1/iss1
  origin/polecat/w2
  origin/polecat/Toast/gt-abc
";
     stdout := [] |}.

Lemma Queue_order_witness :
  fst (Manager.discoverWorkBranches Example.m queueWorld)
  = Ok ["polecat/w1/iss1"; "polecat/w2"; "polecat/Toast/gt-abc"] /\
  fst (Manager.loadState Example.m queueWorld) = Ok Example.full /\
  exists pending,
    fst (Manager.Queue Example.m queueWorld)
    = Ok (currentItem Example.full queueWorld ++ pending)%list /\
    map QueueItem.Position pending = [1; 2; 3] /\
    map branchOf pending
    = [Some "polecat/w1/iss1"; Some "polecat/w2"; Some "polecat/Toast/gt-abc"].
Proof.
  assert (fst (Manager.discoverWorkBranches Example.m queueWorld)
          = Ok ["polecat/w1/iss1"; "polecat/w2"; "polecat/Toast/gt-abc"]) as Hd
      by (vm_compute; reflexivity).
  assert (fst (Manager.loadState Example.m queueWorld) = Ok Example.full) as Hl
      by (vm_compute; reflexivity).
  split; [exact Hd|]. split; [exact Hl|].
  destruct (Queue_order Example.m queueWorld _ Example.full Hd Hl)
    as (pending & Hq & _ & _ & Hpos & Hbr & Hlen).
  exists pending.
  split; [exact Hq|].
  change (filter acceptedBranch
            ["polecat/w1/iss1"; "polecat/w2"; "polecat/Toast/gt-abc"])
    with ["polecat/w1/iss1"; "polecat/w2"; "polecat/Toast/gt-abc"] in Hbr, Hlen.
  split; [|exact Hbr].
  rewrite Hpos, Hlen. reflexivity.
Defined.

(** The run of the specification: the current request at position 0,
    then the discovered branches in their order, the branch of the
    current request a second time among them. *)
Example Queue_of_queueWorld :
  match fst (Manager.Queue Example.m queueWorld) with
  | Ok items => map (fun it => (QueueItem.Position it, branchOf it)) items
  | Err _ => []
  end
  = [(0, Some "polecat/Toast/gt-abc"); (1, Some "polecat/w1/iss1");
     (2, Some "polecat/w2"); (3, Some "polecat/Toast/gt-abc")].
Proof. vm_compute. reflexivity. Qed.

(** ** Branch discovery *)

Section Discovery.
Context {TF : json.TimeFormat}.

(** C6 (amended). Branch discovery never reports an error.  It returns
    the branches listed by a [git] command that ran and exited with
    status 0, and an empty sequence whenever the command failed, be it
    that it exited with another status or that it could not be started:
    the cause of the failure is not looked at.  So the only error that
    the queue query passes on is one from loading the state. *)
Theorem discoverWorkBranches_never_fails (m : Manager.t) (w : World) :
  fst (Manager.discoverWorkBranches m w)
  = Ok match gitRemoteBranches w (Manager.workDir m) with
       | Exited 0 out =>
           Manager.collectBranches (strings.Split out (String regexp.newline "")) []
       | Exited _ _ => []
       | NotStarted _ => []
       end /\
  match fst (Manager.Queue m w) with
  | Ok _ => True
  | Err e => fst (Manager.loadState m w) = Err e
  end.
Proof.
  split.
  - unfold Manager.discoverWorkBranches.
    destruct (gitRemoteBranches w _) as [[|p|p] out|e]; reflexivity.
  - assert (exists branches, fst (Manager.discoverWorkBranches m w) = Ok branches)
      as [branches Hd].
    { unfold Manager.discoverWorkBranches.
      destruct (gitRemoteBranches w _) as [[|p|p] out|e]; cbn [fst]; eauto. }
    destruct (fst (Manager.loadState m w)) as [ref|e] eqn:Hl.
    + destruct (Queue_returns m w branches ref Hd Hl) as (items & Hq).
      rewrite Hq. exact I.
    + unfold Manager.Queue, bind.
      rewrite (surjective_pairing (Manager.discoverWorkBranches m w)),
        Hd, discoverWorkBranches_world.
      rewrite (surjective_pairing (Manager.loadState m w)), Hl.
      reflexivity.
Qed.

End Discovery.

(** With no remote there is nothing to list: the command prints
    nothing, and discovery returns the empty sequence. *)
Example discoverWorkBranches_no_remote :
  gitRemoteBranches Example.fresh (Manager.workDir Example.m) = Exited 0 "" /\
  fst (Manager.discoverWorkBranches Example.m Example.fresh) = Ok [].
Proof. split; reflexivity. Qed.

(** A world in which [git] cannot be run for lack of permission. *)
Definition gitDenied : World :=
  {| files := files (Example.holding Example.full);
     mkdirAllErr := fun _ => None;
     writeFileErr := fun _ => None;
     dirs := [];
     pid := 4711;
     findProcessOk := fun _ => true;
     signals := [];
     clock := clock Example.fresh;
     ticks := 0;
     gitRemoteBranches := fun _ => NotStarted EACCES;
     stdout := [] |}.

(** C6, as stated, fails: when the version-control query fails for lack
    of permission, discovery returns an empty sequence and no error, and
    the queue query returns a queue, not an error. *)
Lemma discovery_failure_is_not_reported :
  gitRemoteBranches gitDenied (Manager.workDir Example.m) = NotStarted EACCES /\
  fst (Manager.discoverWorkBranches Example.m gitDenied) = Ok [] /\
  fst (Manager.Queue Example.m gitDenied)
  = Ok (currentItem Example.full gitDenied) /\
  (forall e, fst (Manager.Queue Example.m gitDenied) <> Err e).
Proof.
  split; [reflexivity|]. split; [reflexivity|].
  split; [vm_compute; reflexivity|].
  intros e. vm_compute. discriminate.
Qed.

(** ** The age label *)

Lemma Sub_back (now : time.Time) (d : time.Duration) :
  time.minDuration <= d <= time.maxDuration -> time.Sub now (now - d) = d.
Proof.
  intros [Hlo Hhi]. unfold time.Sub.
  replace (now - (now - d)) with d by lia.
  destruct (Z.ltb_spec d time.minDuration); [lia|].
  destruct (Z.ltb_spec time.maxDuration d); [lia|reflexivity].
Qed.

Lemma formatAge_elapsed (w : World) (d : time.Duration) :
  time.minDuration <= d <= time.maxDuration ->
  fst (formatAge (clock w (ticks w) - d) w) = formatDuration d.
Proof.
  intros Hd. unfold formatAge, Since, Now, bind, ret. cbn [fst].
  now rewrite Sub_back.
Qed.

(** The unit of the label follows the elapsed time exactly: seconds
    under a minute, minutes under an hour, hours under a day, days from
    then on.  The number in front is a [float64] quotient cut to an
    integer. *)
Lemma formatDuration_unit (d : time.Duration) :
  exists n : Z,
    formatDuration d =
    fmt.itoa n ++
      (if d <? time.Minute then "s ago"
       else if d <? time.Hour then "m ago"
       else if d <? 24 * time.Hour then "h ago"
       else "d ago").
Proof.
  unfold formatDuration.
  destruct (d <? time.Minute); [eexists; reflexivity|].
  destruct (d <? time.Hour); [eexists; reflexivity|].
  destruct (d <? 24 * time.Hour); eexists; reflexivity.
Qed.

(** The label with the number cut down to whole units, by integer
    division of the elapsed nanoseconds. *)
Definition wholeUnitsLabel (d : time.Duration) : string :=
  if d <? time.Minute then fmt.itoa (d / time.Second) ++ "s ago"
  else if d <? time.Hour then fmt.itoa (d / time.Minute) ++ "m ago"
  else if d <? 24 * time.Hour then fmt.itoa (d / time.Hour) ++ "h ago"
  else fmt.itoa (d / (24 * time.Hour)) ++ "d ago".

Definition agreesWithWholeUnits (d : time.Duration) : bool :=
  String.eqb (formatDuration d) (wholeUnitsLabel d).

(** *** The [float64] arithmetic of the label

    [Duration.Seconds], [Minutes] and [Hours] add the whole units and
    the remainder as a fraction, and [formatAge] cuts the sum to an
    integer.  The lemmas below follow the roundings of these
    operations on the mantissas. *)

Section Binary64.

Lemma digits2_pos_bounds p :
  2 ^ (Zpos (digits2_pos p) - 1) <= Zpos p < 2 ^ Zpos (digits2_pos p).
Proof.
  induction p as [p IH|p IH|]; cbn [digits2_pos].
  - rewrite Pos2Z.inj_succ, (Pos2Z.inj_xI p).
    replace (Z.succ (Zpos (digits2_pos p)) - 1) with (Z.succ (Zpos (digits2_pos p) - 1)) by lia.
    rewrite !Z.pow_succ_r by lia.
    set (A := 2 ^ (Zpos (digits2_pos p) - 1)) in *.
    set (B := 2 ^ Zpos (digits2_pos p)) in *. clearbody A B. lia.
  - rewrite Pos2Z.inj_succ, (Pos2Z.inj_xO p).
    replace (Z.succ (Zpos (digits2_pos p)) - 1) with (Z.succ (Zpos (digits2_pos p) - 1)) by lia.
    rewrite !Z.pow_succ_r by lia.
    set (A := 2 ^ (Zpos (digits2_pos p) - 1)) in *.
    set (B := 2 ^ Zpos (digits2_pos p)) in *. clearbody A B. lia.
  - cbn. lia.
Qed.

Lemma digits2_pos_unique p k :
  2 ^ (k - 1) <= Zpos p < 2 ^ k -> Zpos (digits2_pos p) = k.
Proof.
  intros [Hlo Hhi]. pose proof (digits2_pos_bounds p) as [Dlo Dhi].
  assert (0 < k) as Hk.
  { destruct (Z.lt_ge_cases 0 k) as [|Hle]; [assumption|].
    exfalso. destruct (Z.eq_dec k 0) as [->|]; [cbn in Hhi; lia|].
    rewrite Z.pow_neg_r in Hhi by lia. lia. }
  destruct (Z.lt_trichotomy (Zpos (digits2_pos p)) k) as [Hlt|[Heq|Hgt]]; [|exact Heq|].
  - exfalso.
    assert (2 ^ Zpos (digits2_pos p) <= 2 ^ (k - 1)) by (apply Z.pow_le_mono_r; lia).
    lia.
  - exfalso.
    assert (2 ^ k <= 2 ^ (Zpos (digits2_pos p) - 1)) by (apply Z.pow_le_mono_r; lia).
    lia.
Qed.

Lemma iter_pos_nat {A} (f : A -> A) p : forall x,
  iter_pos f p x = Nat.iter (Pos.to_nat p) f x.
Proof.
  induction p as [p IH|p IH|]; intros x; cbn [iter_pos].
  - rewrite !IH, Pos2Nat.inj_xI, Nat.iter_succ_r.
    replace (2 * Pos.to_nat p)%nat with (Pos.to_nat p + Pos.to_nat p)%nat by lia.
    now rewrite Nat.iter_add.
  - rewrite !IH, Pos2Nat.inj_xO.
    replace (2 * Pos.to_nat p)%nat with (Pos.to_nat p + Pos.to_nat p)%nat by lia.
    now rewrite Nat.iter_add.
  - reflexivity.
Qed.

Lemma shr_1_m mrs : 0 <= shr_m mrs -> shr_m (shr_1 mrs) = shr_m mrs / 2.
Proof.
  destruct mrs as [m r s]. cbn [shr_m shr_1].
  destruct m as [|[p|p|]|p]; cbn [shr_m]; intros H; try lia;
    try reflexivity.
  - rewrite (Pos2Z.inj_xI p). Z.to_euclidean_division_equations. lia.
  - rewrite (Pos2Z.inj_xO p). Z.to_euclidean_division_equations. lia.
Qed.

Lemma shr_iter_m k : forall mrs,
  0 <= shr_m mrs ->
  shr_m (Nat.iter k shr_1 mrs) = shr_m mrs / 2 ^ Z.of_nat k.
Proof.
  induction k as [|k IH]; intros mrs H.
  - cbn. now rewrite Z.div_1_r.
  - rewrite Nat.iter_succ, shr_1_m.
    + rewrite IH by exact H. rewrite Z.div_div by lia.
      rewrite Nat2Z.inj_succ, Z.pow_succ_r by lia. f_equal. lia.
    + rewrite IH by exact H. apply Z.div_pos; lia.
Qed.


Lemma Zdigits2_bounds m :
  0 < m -> 2 ^ (Zdigits2 m - 1) <= m < 2 ^ Zdigits2 m.
Proof.
  destruct m as [|p|p]; try lia. intros _. apply digits2_pos_bounds.
Qed.

Lemma Zdigits2_unique m k :
  2 ^ (k - 1) <= m < 2 ^ k -> 0 < m -> Zdigits2 m = k.
Proof.
  destruct m as [|p|p]; try lia. intros H _. now apply digits2_pos_unique.
Qed.

Lemma shr_record_of_loc_m m l : shr_m (shr_record_of_loc m l) = m.
Proof. destruct l as [|[]]; reflexivity. Qed.

Lemma shr_fexp_spec m e l :
  0 < m -> 53 <= Zdigits2 m -> -1074 <= e + Zdigits2 m - 53 ->
  shr_m (fst (shr_fexp 53 1024 m e l)) = m / 2 ^ (Zdigits2 m - 53) /\
  snd (shr_fexp 53 1024 m e l) = e + (Zdigits2 m - 53).
Proof.
  intros Hm Hd He. unfold shr_fexp, shr.
  replace (fexp 53 1024 (Zdigits2 m + e) - e) with (Zdigits2 m - 53)
    by (unfold fexp, emin; lia).
  destruct (Zdigits2 m - 53) as [|p|p] eqn:E; try lia; cbn [fst snd].
  - rewrite shr_record_of_loc_m, Z.div_1_r. split; [reflexivity|lia].
  - rewrite iter_pos_nat, shr_iter_m, shr_record_of_loc_m, positive_nat_Z.
    + split; reflexivity.
    + rewrite shr_record_of_loc_m. lia.
Qed.

Lemma round_nearest_even_cases m l :
  round_nearest_even m l = m \/ round_nearest_even m l = m + 1.
Proof.
  destruct l as [|[]]; cbn; auto. destruct (Z.even m); auto.
Qed.

Lemma pow2_split a b : 0 <= a -> 0 <= b -> 2 ^ (a + b) = 2 ^ a * 2 ^ b.
Proof. intros. now apply Z.pow_add_r. Qed.

Lemma top53_bounds m :
  0 < m -> 53 <= Zdigits2 m ->
  2 ^ 52 <= m / 2 ^ (Zdigits2 m - 53) < 2 ^ 53.
Proof.
  intros Hm Hd. pose proof (Zdigits2_bounds m Hm) as [Hlo Hhi].
  assert (0 < 2 ^ (Zdigits2 m - 53)) as Hp by (apply Z.pow_pos_nonneg; lia).
  split.
  - apply Z.div_le_lower_bound; [exact Hp|].
    rewrite <- pow2_split by lia.
    now replace (Zdigits2 m - 53 + 52) with (Zdigits2 m - 1) by lia.
  - apply Z.div_lt_upper_bound; [exact Hp|].
    rewrite <- pow2_split by lia.
    now replace (Zdigits2 m - 53 + 53) with (Zdigits2 m) by lia.
Qed.

(** Rounding a mantissa of at least 53 bits: the result is the top 53
    bits, or one more, at the exponent that goes with them; when one
    more makes 54 bits, it is [2 ^ 52] at the next exponent. *)
Lemma binary_round_aux_bracket mx ex lx :
  0 < mx -> 53 <= Zdigits2 mx ->
  -1074 <= ex + Zdigits2 mx - 53 -> ex + Zdigits2 mx - 53 < 971 ->
  exists m3 e3,
    binary_round_aux 53 1024 false mx ex lx = S754_finite false m3 e3 /\
    ((e3 = ex + (Zdigits2 mx - 53) /\
      (Zpos m3 = mx / 2 ^ (Zdigits2 mx - 53) \/
       Zpos m3 = mx / 2 ^ (Zdigits2 mx - 53) + 1) /\
      Zpos m3 < 2 ^ 53) \/
     (e3 = ex + (Zdigits2 mx - 53) + 1 /\
      Zpos m3 = 2 ^ 52 /\
      mx / 2 ^ (Zdigits2 mx - 53) + 1 = 2 ^ 53)).
Proof.
  intros Hm Hd Hlo Hhi. unfold binary_round_aux.
  destruct (shr_fexp_spec mx ex lx Hm Hd Hlo) as [H1m H1e].
  destruct (shr_fexp 53 1024 mx ex lx) as [mrs' e'].
  cbn [fst snd] in H1m, H1e. subst e'.
  pose proof (top53_bounds mx Hm Hd) as Htop.
  set (m1 := mx / 2 ^ (Zdigits2 mx - 53)) in *.
  set (e1 := ex + (Zdigits2 mx - 53)) in *.
  rewrite H1m.
  set (m2 := round_nearest_even m1 (loc_of_shr_record mrs')).
  assert (m2 = m1 \/ m2 = m1 + 1) as Hm2 by apply round_nearest_even_cases.
  clearbody m2.
  change (2 ^ 52) with 4503599627370496 in *.
  change (2 ^ 53) with 9007199254740992 in *.
  assert (m2 < 9007199254740992 \/ m2 = 9007199254740992) as [Hlt|Heq] by lia.
  - assert (Zdigits2 m2 = 53) as Hd2.
    { apply Zdigits2_unique; [|lia].
      change (2 ^ (53 - 1)) with 4503599627370496.
      change (2 ^ 53) with 9007199254740992. lia. }
    destruct (shr_fexp_spec m2 e1 loc_Exact) as [H2m H2e]; try lia.
    destruct (shr_fexp 53 1024 m2 e1 loc_Exact) as [mrs'' e''].
    cbn [fst snd] in H2m, H2e. rewrite Hd2 in H2m, H2e.
    change (2 ^ (53 - 53)) with 1 in H2m. rewrite Z.div_1_r in H2m.
    rewrite H2m. destruct m2 as [|p|p]; try lia.
    replace (e'' <=? 1024 - 53) with true by (symmetry; apply Z.leb_le; lia).
    exists p, e''. split; [reflexivity|]. left. repeat split; lia.
  - assert (Zdigits2 m2 = 54) as Hd2.
    { apply Zdigits2_unique; [|lia]. subst m2.
      change (2 ^ (54 - 1)) with 9007199254740992.
      change (2 ^ 54) with 18014398509481984. lia. }
    destruct (shr_fexp_spec m2 e1 loc_Exact) as [H2m H2e]; try lia.
    destruct (shr_fexp 53 1024 m2 e1 loc_Exact) as [mrs'' e''].
    cbn [fst snd] in H2m, H2e. rewrite Hd2 in H2m, H2e.
    rewrite H2m, Heq. change (9007199254740992 / 2 ^ (54 - 53)) with (Zpos 4503599627370496).
    cbv iota beta.
    replace (e'' <=? 1024 - 53) with true by (symmetry; apply Z.leb_le; lia).
    exists 4503599627370496%positive, e''. split; [reflexivity|]. right.
    repeat split; lia.
Qed.

Lemma iter_xO p d : Zpos (Pos.iter xO p d) = Zpos p * 2 ^ Zpos d.
Proof.
  induction d as [|d IH] using Pos.peano_ind.
  - cbn. rewrite (Pos2Z.inj_xO p). lia.
  - rewrite Pos.iter_succ, (Pos2Z.inj_xO (Pos.iter xO p d)), IH, Pos2Z.inj_succ.
    rewrite Z.pow_succ_r by lia. lia.
Qed.

Lemma binary_round_aux_exact mx ex :
  0 < mx -> Zdigits2 mx = 53 -> -1074 <= ex -> ex <= 971 ->
  binary_round_aux 53 1024 false mx ex loc_Exact
  = S754_finite false (Z.to_pos mx) ex.
Proof.
  intros Hm Hd Hlo Hhi.
  assert (forall l, shr_fexp 53 1024 mx ex l = (shr_record_of_loc mx l, ex)) as Hs.
  { intros l. unfold shr_fexp. rewrite Hd.
    replace (fexp 53 1024 (53 + ex) - ex) with 0 by (unfold fexp, emin; lia).
    reflexivity. }
  unfold binary_round_aux. rewrite Hs. cbn [shr_record_of_loc loc_of_shr_record
    round_nearest_even shr_m]. rewrite Hs. cbn [shr_record_of_loc shr_m].
  destruct mx as [|p|p]; try lia.
  replace (ex <=? 1024 - 53) with true by (symmetry; apply Z.leb_le; lia).
  reflexivity.
Qed.

(** The conversion of a positive integer of at most 53 bits is exact:
    the integer, shifted to 53 bits. *)
Lemma ofInt_pos n :
  0 < n -> Zdigits2 n <= 53 ->
  float64.ofInt n
  = S754_finite false (Z.to_pos (n * 2 ^ (53 - Zdigits2 n))) (Zdigits2 n - 53).
Proof.
  intros Hn Hd. destruct n as [|p|p]; try lia.
  unfold float64.ofInt, float64.prec, float64.emax, binary_normalize, binary_round.
  pose proof (digits2_pos_bounds p) as Hb.
  cbn [Zdigits2] in *.
  assert (Zdigits2 (Zpos p) = Zpos (digits2_pos p)) as Hdig by reflexivity.
  remember (Zpos (digits2_pos p)) as d eqn:Hdef.
  assert (0 < d) as Hd0 by lia.
  replace (fexp 53 1024 (d + 0)) with (d - 53) by (unfold fexp, emin; lia).
  unfold shl_align.
  destruct (d - 53 - 0) as [|q|q] eqn:E; try lia.
  - assert (d = 53) as Hd53 by lia. rewrite Hd53 in *.
    change (2 ^ (53 - 53)) with 1.
    rewrite Z.mul_1_r. cbn [Z.to_pos].
    rewrite binary_round_aux_exact; try lia; reflexivity.
  - assert (53 - d = Zpos q) as Eq by lia.
    rewrite binary_round_aux_exact; try lia.
    + rewrite iter_xO, Eq. reflexivity.
    + rewrite iter_xO. apply Zdigits2_unique; [|lia].
      rewrite <- Eq. change (53 - 1) with 52.
      assert (2 ^ 52 = 2 ^ (d - 1) * 2 ^ (53 - d)) as ->
          by (rewrite <- pow2_split by lia; f_equal; lia).
      assert (2 ^ 53 = 2 ^ d * 2 ^ (53 - d)) as ->
          by (rewrite <- pow2_split by lia; f_equal; lia).
      assert (0 < 2 ^ (53 - d)) as HC by (apply Z.pow_pos_nonneg; lia).
      destruct Hb as [Hb1 Hb2].
      set (A := 2 ^ (d - 1)) in *. set (B := 2 ^ d) in *.
      set (C := 2 ^ (53 - d)) in *. clearbody A B C. nia.
Qed.

Lemma toInt_finite m e :
  e <= 0 -> float64.toInt (S754_finite false m e) = Zpos m / 2 ^ (- e).
Proof.
  intros He. unfold float64.toInt. destruct e as [|p|p]; try lia.
  - cbn. now rewrite Z.div_1_r.
  - rewrite Z.shiftr_div_pow2 by lia. reflexivity.
Qed.


(** The mantissa and exponent of the conversion of a positive integer of
    at most 53 bits. *)
Lemma ofInt_pos_parts n :
  0 < n -> Zdigits2 n <= 53 ->
  exists m,
    float64.ofInt n = S754_finite false m (Zdigits2 n - 53) /\
    Zpos m = n * 2 ^ (53 - Zdigits2 n) /\
    2 ^ 52 <= Zpos m < 2 ^ 53.
Proof.
  intros Hn Hd. exists (Z.to_pos (n * 2 ^ (53 - Zdigits2 n))).
  assert (0 < 2 ^ (53 - Zdigits2 n)) as HC by (apply Z.pow_pos_nonneg; lia).
  assert (0 < Zdigits2 n) as Hd0.
  { destruct n as [|p|p]; try lia. cbn. lia. }
  split; [now apply ofInt_pos|]. rewrite Z2Pos.id by nia. split; [reflexivity|].
  pose proof (Zdigits2_bounds n Hn) as [Hb1 Hb2].
  assert (2 ^ 52 = 2 ^ (Zdigits2 n - 1) * 2 ^ (53 - Zdigits2 n)) as ->
      by (rewrite <- pow2_split by lia; f_equal; lia).
  assert (2 ^ 53 = 2 ^ Zdigits2 n * 2 ^ (53 - Zdigits2 n)) as ->
      by (rewrite <- pow2_split by lia; f_equal; lia).
  set (A := 2 ^ (Zdigits2 n - 1)) in *. set (B := 2 ^ Zdigits2 n) in *.
  set (C := 2 ^ (53 - Zdigits2 n)) in *. clearbody A B C. nia.
Qed.

Lemma Zdigits2_mono a b : 0 < a -> a <= b -> Zdigits2 a <= Zdigits2 b.
Proof.
  intros Ha Hab.
  pose proof (Zdigits2_bounds a Ha) as [Ha1 _].
  pose proof (Zdigits2_bounds b ltac:(lia)) as [_ Hb2].
  destruct (Z.le_gt_cases (Zdigits2 a) (Zdigits2 b)) as [|Hgt]; [assumption|].
  exfalso.
  assert (2 ^ Zdigits2 b <= 2 ^ (Zdigits2 a - 1)) by (apply Z.pow_le_mono_r; lia).
  lia.
Qed.

(** The quotient of two positive integers, the first at least [c] below
    the second: a fraction that stays [W - 2] units of [2^-53] below 1,
    where [W / 2^53 <= c / U]. *)
Lemma div_fraction r U c W :
  0 < r -> 1 <= c -> r + c <= U -> U < 2 ^ 46 ->
  3 <= W -> W * U <= c * 2 ^ 53 ->
  exists Mv Ev,
    float64.div (float64.ofInt r) (float64.ofInt U) = S754_finite false Mv Ev /\
    Ev <= -53 /\
    Zpos Mv + (W - 2) * 2 ^ (- Ev - 53) <= 2 ^ 53 * 2 ^ (- Ev - 53).
Proof.
  intros Hr Hc HrU HU HW3 HWU.
  assert (Zdigits2 U <= 46) as HdU.
  { pose proof (Zdigits2_bounds U ltac:(lia)) as [Hb _].
    destruct (Z.le_gt_cases (Zdigits2 U) 46) as [|Hgt]; [assumption|]. exfalso.
    assert (2 ^ 46 <= 2 ^ (Zdigits2 U - 1)) by (apply Z.pow_le_mono_r; lia). lia. }
  pose proof (Zdigits2_mono r U Hr ltac:(lia)) as Hdr.
  assert (0 < Zdigits2 r) as Hdr0 by (destruct r; try lia; cbn; lia).
  destruct (ofInt_pos_parts r Hr ltac:(lia)) as (m1 & -> & Hm1 & Hm1b).
  destruct (ofInt_pos_parts U ltac:(lia) ltac:(lia)) as (m2 & -> & Hm2 & Hm2b).
  set (dr := Zdigits2 r) in *. set (dU := Zdigits2 U) in *.
  unfold float64.div, float64.prec, float64.emax, SFdiv, SFdiv_core_binary.
  pose proof (Zdigits2_unique (Zpos m1) 53 Hm1b ltac:(lia)) as Hd1.
  pose proof (Zdigits2_unique (Zpos m2) 53 Hm2b ltac:(lia)) as Hd2.
  rewrite Hd1, Hd2.
  replace (Z.min (fexp 53 1024 (53 + (dr - 53) - (53 + (dU - 53))))
                 (dr - 53 - (dU - 53)))
    with (dr - dU - 53) by (unfold fexp, emin; lia).
  replace (dr - 53 - (dU - 53) - (dr - dU - 53)) with 53 by lia.
  cbv iota beta.
  change (IntDef.Z.shiftl (Zpos m1) 53) with (Z.shiftl (Zpos m1) 53).
  rewrite Z.shiftl_mul_pow2 by lia.
  assert (fst (Z.div_eucl (Zpos m1 * 2 ^ 53) (Zpos m2)) = Zpos m1 * 2 ^ 53 / Zpos m2)
    as Hq by reflexivity.
  change IntDef.Z.div_eucl with Z.div_eucl.
  destruct (Z.div_eucl (Zpos m1 * 2 ^ 53) (Zpos m2)) as [mz rz].
  cbn [fst] in Hq. cbn [xorb].
  (* the quotient has 53 or 54 bits *)
  assert (Zpos m2 * mz <= Zpos m1 * 2 ^ 53) as Hmul
      by (rewrite Hq; apply Z.mul_div_le; lia).
  change (2 ^ 52) with 4503599627370496 in *.
  change (2 ^ 53) with 9007199254740992 in *.
  assert (4503599627370496 <= mz) as Hzlo
      by (rewrite Hq; apply Z.div_le_lower_bound; lia).
  assert (mz < 18014398509481984) as Hzhi
      by (rewrite Hq; apply Z.div_lt_upper_bound; lia).
  assert (exists k, (k = 0 \/ k = 1) /\ Zdigits2 mz = 53 + k /\
                    2 ^ k * 4503599627370496 <= mz) as (k & Hk & Hdz & Hzk).
  { destruct (Z.lt_ge_cases mz 9007199254740992) as [Hlt|Hge]; [exists 0|exists 1];
      (split; [auto|]); (split; [apply Zdigits2_unique; [|lia]|]).
    - change (2 ^ (53 + 0 - 1)) with 4503599627370496.
      change (2 ^ (53 + 0)) with 9007199254740992. lia.
    - change (2 ^ 0) with 1. lia.
    - change (2 ^ (53 + 1 - 1)) with 9007199254740992.
      change (2 ^ (53 + 1)) with 18014398509481984. lia.
    - change (2 ^ 1) with 2. lia. }
  destruct (binary_round_aux_bracket mz (dr - dU - 53) (new_location (Zpos m2) rz))
    as (m3 & e3 & -> & Hcases); try lia.
  exists m3, e3. split; [reflexivity|].
  rewrite Hdz in Hcases. replace (53 + k - 53) with k in Hcases by lia.
  change (2 ^ 52) with 4503599627370496 in *.
  change (2 ^ 53) with 9007199254740992 in *.
  (* the numerator and the denominator, at a common scale *)
  set (G := 2 ^ (dU - dr)).
  assert (0 < G) as HG by (apply Z.pow_pos_nonneg; lia).
  assert (mz * U <= r * G * 9007199254740992) as Hratio.
  { assert (2 ^ (53 - dr) = 2 ^ (53 - dU) * G) as HC
        by (unfold G; rewrite <- pow2_split by lia; f_equal; lia).
    assert (0 < 2 ^ (53 - dU)) as HC0 by (apply Z.pow_pos_nonneg; lia).
    rewrite Hm1, Hm2, HC in Hmul.
    apply (Z.mul_le_mono_pos_l _ _ (2 ^ (53 - dU))); [exact HC0|].
    replace (2 ^ (53 - dU) * (mz * U)) with (U * 2 ^ (53 - dU) * mz) by ring.
    replace (2 ^ (53 - dU) * (r * G * 9007199254740992))
      with (r * (2 ^ (53 - dU) * G) * 9007199254740992) by ring.
    exact Hmul. }
  assert (2 ^ k * (mz / 2 ^ k) <= mz) as Hfloor
      by (apply Z.mul_div_le; destruct Hk as [-> | ->]; reflexivity).
  (* the rounded mantissa, at the scale of the quotient *)
  assert (exists j, (j = 0 \/ j = 1) /\ e3 = dr - dU - 53 + k + j /\
                    2 ^ (52 + k + j) <= Zpos m3 * 2 ^ (k + j) /\
                    Zpos m3 * 2 ^ (k + j) <= mz + 2 ^ k) as (j & Hj & He3 & Hlo3 & Hhi3).
  { assert (0 < 2 ^ k) as HK by (apply Z.pow_pos_nonneg; lia).
    assert (2 ^ k = 1 \/ 2 ^ k = 2) as HK12 by (destruct Hk as [-> | ->]; auto).
    destruct Hcases as [(He & Hm3 & Hlt)|(He & Hm3 & Hov)]; [exists 0|exists 1];
      (split; [auto|]); (split; [lia|]).
    - pose proof (top53_bounds mz ltac:(lia) ltac:(lia)) as Htop.
      rewrite Hdz in Htop. replace (53 + k - 53) with k in Htop by lia.
      change (2 ^ 52) with 4503599627370496 in Htop.
      replace (52 + k + 0) with (52 + k) by lia. rewrite Z.add_0_r.
      rewrite (pow2_split 52 k) by lia.
      change (2 ^ 52) with 4503599627370496.
      set (K := 2 ^ k) in *. set (X := mz / K) in *. clearbody K X.
      destruct HK12; subst K; lia.
    - replace (52 + k + 1) with (53 + k) by lia.
      rewrite (pow2_split 53 k), (pow2_split k 1) by lia.
      change (2 ^ 53) with 9007199254740992. change (2 ^ 1) with 2.
      set (K := 2 ^ k) in *. set (X := mz / K) in *. clearbody K X.
      destruct HK12; subst K; lia. }
  assert (mz + W * G <= 9007199254740992 * G) as Hbelow.
  { apply (Z.mul_le_mono_pos_r _ _ U); [lia|].
    assert (r * G <= (U - c) * G) as H1 by (apply Z.mul_le_mono_nonneg_r; lia).
    assert (W * U * G <= c * 9007199254740992 * G) as H2
        by (apply Z.mul_le_mono_nonneg_r; lia).
    assert (r * G * 9007199254740992 <= (U - c) * G * 9007199254740992) as H3
        by (apply Z.mul_le_mono_nonneg_r; lia).
    replace ((mz + W * G) * U) with (mz * U + W * U * G) by ring.
    replace ((U - c) * G * 9007199254740992)
      with (9007199254740992 * G * U - c * 9007199254740992 * G) in H3 by ring.
    set (x1 := mz * U) in *. set (x2 := W * U * G) in *.
    set (x3 := c * 9007199254740992 * G) in *.
    set (x4 := 9007199254740992 * G * U) in *.
    set (x5 := r * G * 9007199254740992) in *.
    clearbody x1 x2 x3 x4 x5. lia. }
  assert (Zpos m3 * 2 ^ (k + j) + (W - 2) * G <= 9007199254740992 * G) as Hcore.
  { assert (2 ^ k <= 2) by (destruct Hk as [-> | ->]; cbn; lia).
    assert (2 ^ k <= 2 * G) by lia.
    replace ((W - 2) * G) with (W * G - 2 * G) by ring.
    set (K := 2 ^ k) in *. set (V := Zpos m3 * 2 ^ (k + j)) in *.
    set (WG := W * G) in *.
    clearbody K V WG G. lia. }
  assert (G <= (W - 2) * G) as HWG.
  { replace G with (1 * G) at 1 by ring. apply Z.mul_le_mono_nonneg_r; lia. }
  assert (k + j <= dU - dr) as Hexp.
  { assert (2 ^ (52 + k + j) < 2 ^ (53 + (dU - dr))) as Hpow.
    { rewrite (pow2_split 53 (dU - dr)) by lia. fold G.
      change (2 ^ 53) with 9007199254740992. lia. }
    apply Z.pow_lt_mono_r_iff in Hpow; lia. }
  split; [lia|].
  replace (- e3 - 53) with (dU - dr - (k + j)) by lia.
  assert (G = 2 ^ (dU - dr - (k + j)) * 2 ^ (k + j)) as HGsplit
      by (unfold G; rewrite <- pow2_split by lia; f_equal; lia).
  assert (0 < 2 ^ (k + j)) as HW by (apply Z.pow_pos_nonneg; lia).
  assert (0 < 2 ^ (dU - dr - (k + j))) as HP by (apply Z.pow_pos_nonneg; lia).
  rewrite HGsplit in Hcore.
  apply (Z.mul_le_mono_pos_r _ _ (2 ^ (k + j))); [exact HW|].
  replace ((Zpos m3 + (W - 2) * 2 ^ (dU - dr - (k + j))) * 2 ^ (k + j))
    with (Zpos m3 * 2 ^ (k + j) + (W - 2) * (2 ^ (dU - dr - (k + j)) * 2 ^ (k + j)))
    by ring.
  replace (9007199254740992 * 2 ^ (dU - dr - (k + j)) * 2 ^ (k + j))
    with (9007199254740992 * (2 ^ (dU - dr - (k + j)) * 2 ^ (k + j))) by ring.
  exact Hcore.
Qed.

Lemma div_below_one r U :
  0 < r < U -> U < 2 ^ 46 ->
  exists Mv Ev,
    float64.div (float64.ofInt r) (float64.ofInt U) = S754_finite false Mv Ev /\
    Ev <= -53 /\
    Zpos Mv + 64 * 2 ^ (- Ev - 53) < 2 ^ 53 * 2 ^ (- Ev - 53).
Proof.
  intros [Hr HrU] HU.
  destruct (div_fraction r U 1 128) as (Mv & Ev & Hdiv & HEv & Hv);
    try assumption; try lia.
  exists Mv, Ev. repeat split; try assumption.
  assert (0 < 2 ^ (- Ev - 53)) by (apply Z.pow_pos_nonneg; lia).
  set (P := 2 ^ (- Ev - 53)) in *. clearbody P. lia.
Qed.

(** Adding a fraction below 1 to a positive integer: the sum keeps the
    exponent of the integer, with the fraction cut or rounded up by
    one unit, or it is the next power of two. *)
Lemma add_bracket q Mv Ev :
  0 < q -> Zdigits2 q <= 53 -> Ev <= -53 ->
  Zpos Mv < 2 ^ 53 * 2 ^ (- Ev - 53) ->
  exists m3 e3,
    float64.add (float64.ofInt q) (S754_finite false Mv Ev) = S754_finite false m3 e3 /\
    ((e3 = Zdigits2 q - 53 /\
      q * 2 ^ (53 - Zdigits2 q) <= Zpos m3 /\
      Zpos m3 <= q * 2 ^ (53 - Zdigits2 q) + Zpos Mv / 2 ^ (Zdigits2 q - 53 - Ev) + 1 /\
      Zpos m3 < 2 ^ 53) \/
     (e3 = Zdigits2 q - 52 /\ Zpos m3 = 2 ^ 52 /\
      q * 2 ^ (53 - Zdigits2 q) + Zpos Mv / 2 ^ (Zdigits2 q - 53 - Ev) + 1 = 2 ^ 53)).
Proof.
  intros Hq Hdq HEv Hv.
  destruct (ofInt_pos_parts q Hq Hdq) as (mq & -> & Hmq & Hmqb).
  pose proof (Zdigits2_bounds q Hq) as [Hq1 Hq2].
  assert (0 < Zdigits2 q) as Hdq0 by (destruct q; try lia; cbn; lia).
  set (dq := Zdigits2 q) in *.
  set (P := 2 ^ (- Ev - 53)) in *.
  set (A := 2 ^ (53 - dq)) in *.
  set (D := 2 ^ dq) in *.
  remember (2 ^ (dq - 53 - Ev)) as B eqn:EB.
  assert (0 < P) as HP by (apply Z.pow_pos_nonneg; lia).
  assert (0 < A) as HA by (apply Z.pow_pos_nonneg; lia).
  assert (0 < D) as HD by (apply Z.pow_pos_nonneg; lia).
  assert (A * D = 2 ^ 53) as HAD
      by (unfold A, D; rewrite <- pow2_split by lia; f_equal; lia).
  assert (B = D * P) as HB
      by (rewrite EB; unfold D, P; rewrite <- pow2_split by lia; f_equal; lia).
  assert (0 < B) as HB0 by (rewrite EB; apply Z.pow_pos_nonneg; lia).
  change (2 ^ 52) with 4503599627370496 in *.
  change (2 ^ 53) with 9007199254740992 in *.
  assert (Zpos mq + A <= 9007199254740992) as Hmq_hi.
  { rewrite Hmq, <- HAD. replace (q * A + A) with (A * (q + 1)) by ring.
    apply Z.mul_le_mono_nonneg_l; lia. }
  assert (Zpos Mv < A * B) as HvAB.
  { rewrite HB. replace (A * (D * P)) with (A * D * P) by ring.
    rewrite HAD. exact Hv. }
  assert (0 <= Zpos Mv / B) as Hy0 by (apply Z.div_pos; lia).
  (* the sum of the aligned mantissas *)
  unfold float64.add, float64.prec, float64.emax, SFadd.
  replace (Z.min (dq - 53) Ev) with Ev by lia.
  unfold shl_align at 2. rewrite Z.sub_diag. cbn [fst].
  unfold shl_align at 1.
  destruct (Ev - (dq - 53)) as [|d|d] eqn:Ed; try lia.
  cbn [fst cond_Zopp].
  assert (Zpos (Pos.iter xO mq d) = Zpos mq * B) as Hal.
  { rewrite iter_xO, EB. do 2 f_equal. lia. }
  assert (Zpos (Pos.iter xO mq d) + Zpos Mv = Zpos (Pos.iter xO mq d + Mv)) as Hsum
      by reflexivity.
  rewrite Hsum. cbn [binary_normalize]. unfold binary_round.
  set (sum := (Pos.iter xO mq d + Mv)%positive) in *.
  assert (Zpos sum = Zpos mq * B + Zpos Mv) as HS by (rewrite <- Hsum, Hal; reflexivity).
  assert (Zpos (digits2_pos sum) = dq - Ev) as HdS.
  { apply digits2_pos_unique. rewrite HS.
    assert (2 ^ (dq - Ev - 1) = 4503599627370496 * B) as ->.
    { change 4503599627370496 with (2 ^ 52). rewrite EB.
      rewrite <- pow2_split by lia. f_equal. lia. }
    assert (2 ^ (dq - Ev) = 9007199254740992 * B) as ->.
    { change 9007199254740992 with (2 ^ 53). rewrite EB.
      rewrite <- pow2_split by lia. f_equal. lia. }
    split.
    - assert (4503599627370496 * B <= Zpos mq * B)
        by (apply Z.mul_le_mono_nonneg_r; lia). lia.
    - assert ((Zpos mq + A) * B <= 9007199254740992 * B)
        by (apply Z.mul_le_mono_nonneg_r; lia).
      replace ((Zpos mq + A) * B) with (Zpos mq * B + A * B) in * by ring.
      lia. }
  rewrite HdS.
  replace (fexp 53 1024 (dq - Ev + Ev)) with (dq - 53) by (unfold fexp, emin; lia).
  unfold shl_align.
  destruct (dq - 53 - Ev) as [|d'|d'] eqn:Ed'; try lia.
  rewrite <- Ed' in EB.
  destruct (binary_round_aux_bracket (Zpos sum) Ev loc_Exact)
    as (m3 & e3 & -> & Hcases); cbn [Zdigits2]; try lia.
  cbn [Zdigits2] in Hcases. rewrite HdS in Hcases.
  replace (dq - Ev - 53) with (dq - 53 - Ev) in Hcases by lia.
  rewrite <- EB in Hcases.
  assert (Zpos sum / B = Zpos mq + Zpos Mv / B) as HX.
  { rewrite HS.
    replace (Zpos mq * B + Zpos Mv) with (Zpos Mv + Zpos mq * B) by ring.
    rewrite Z.div_add by lia. lia. }
  rewrite HX, Hmq in Hcases.
  change (2 ^ 52) with 4503599627370496 in *.
  change (2 ^ 53) with 9007199254740992 in *.
  exists m3, e3. split; [reflexivity|].
  destruct Hcases as [(He & Hm3 & Hlt)|(He & Hm3 & Hov)]; [left|right].
  - repeat split; try lia.
  - repeat split; lia.
Qed.

(** Adding a fraction below [1 - 2^-47] to a positive integer below 64
    and cutting the sum gives the integer back. *)
Lemma add_floor q Mv Ev :
  0 < q -> Zdigits2 q <= 6 -> Ev <= -53 ->
  Zpos Mv + 64 * 2 ^ (- Ev - 53) < 2 ^ 53 * 2 ^ (- Ev - 53) ->
  float64.toInt (float64.add (float64.ofInt q) (S754_finite false Mv Ev)) = q.
Proof.
  intros Hq Hdq HEv Hv.
  assert (0 < 2 ^ (- Ev - 53)) as HP by (apply Z.pow_pos_nonneg; lia).
  destruct (add_bracket q Mv Ev Hq ltac:(lia) HEv) as (m3 & e3 & -> & Hcases).
  { set (P := 2 ^ (- Ev - 53)) in *. clearbody P. lia. }
  pose proof (Zdigits2_bounds q Hq) as [Hq1 Hq2].
  assert (0 < Zdigits2 q) as Hdq0 by (destruct q; try lia; cbn; lia).
  set (dq := Zdigits2 q) in *.
  set (P := 2 ^ (- Ev - 53)) in *.
  set (A := 2 ^ (53 - dq)) in *.
  set (D := 2 ^ dq) in *.
  remember (2 ^ (dq - 53 - Ev)) as B eqn:EB.
  assert (0 < A) as HA by (apply Z.pow_pos_nonneg; lia).
  assert (0 < D) as HD by (apply Z.pow_pos_nonneg; lia).
  assert (D <= 64) as HD64
      by (change 64 with (2 ^ 6); apply Z.pow_le_mono_r; lia).
  assert (A * D = 2 ^ 53) as HAD
      by (unfold A, D; rewrite <- pow2_split by lia; f_equal; lia).
  assert (B = D * P) as HB
      by (rewrite EB; unfold D, P; rewrite <- pow2_split by lia; f_equal; lia).
  assert (0 < B) as HB0 by (rewrite EB; apply Z.pow_pos_nonneg; lia).
  change (2 ^ 52) with 4503599627370496 in *.
  change (2 ^ 53) with 9007199254740992 in *.
  assert (Zpos Mv / B + 1 < A) as Hy.
  { assert (Zpos Mv / B < A - 1); [|lia].
    apply Z.div_lt_upper_bound; [exact HB0|].
    rewrite HB. replace (D * P * (A - 1)) with (A * D * P - D * P) by ring.
    rewrite HAD.
    assert (D * P <= 64 * P) by (apply Z.mul_le_mono_nonneg_r; lia).
    lia. }
  assert (0 <= Zpos Mv / B) as Hy0 by (apply Z.div_pos; lia).
  assert ((q + 1) * A <= 9007199254740992) as Hq_hi.
  { rewrite <- HAD, (Z.mul_comm A D). apply Z.mul_le_mono_nonneg_r; lia. }
  replace ((q + 1) * A) with (q * A + A) in Hq_hi by ring.
  destruct Hcases as [(He & Hlo & Hhi & Hlt)|(He & Hm3 & Hov)]; [|lia].
  rewrite toInt_finite by lia.
  replace (- e3) with (53 - dq) by lia. fold A.
  replace (Zpos m3) with ((Zpos m3 - q * A) + q * A) by ring.
  rewrite Z.div_add by lia.
  rewrite Z.div_small by lia. lia.
Qed.

Lemma toInt_ofInt q : 0 < q -> Zdigits2 q <= 53 -> float64.toInt (float64.ofInt q) = q.
Proof.
  intros Hq Hd.
  destruct (ofInt_pos_parts q Hq Hd) as (m & -> & Hm & _).
  assert (0 < Zdigits2 q) by (destruct q; try lia; cbn; lia).
  rewrite toInt_finite by lia.
  replace (- (Zdigits2 q - 53)) with (53 - Zdigits2 q) by lia.
  rewrite Hm. apply Z.div_mul.
  apply Z.pow_nonzero; lia.
Qed.

(** [float64(q) + float64(r)/float64(U)], the shape of
    [Duration.Seconds], [Minutes] and [Hours], cut to an integer: it is
    the quotient whenever this is below 64. *)
Lemma toInt_quot_frac d U :
  0 < U -> U < 2 ^ 46 -> 0 <= d -> d / U < 64 ->
  float64.toInt
    (float64.add (float64.ofInt (Z.quot d U))
                 (float64.div (float64.ofInt (Z.rem d U)) (float64.ofInt U)))
  = d / U.
Proof.
  intros HU HU46 Hd Hq.
  rewrite Z.quot_div_nonneg, Z.rem_mod_nonneg by lia.
  pose proof (Z.mod_pos_bound d U HU) as Hr.
  pose proof (Z.div_pos d U Hd HU) as Hq0.
  set (q := d / U) in *. set (r := d mod U) in *.
  assert (0 < q -> Zdigits2 q <= 6) as Hdq.
  { intros Hpos. pose proof (Zdigits2_bounds q Hpos) as [Hlo _].
    destruct (Z.le_gt_cases (Zdigits2 q) 6) as [|Hgt]; [assumption|exfalso].
    assert (2 ^ 6 <= 2 ^ (Zdigits2 q - 1)) by (apply Z.pow_le_mono_r; lia).
    change (2 ^ 6) with 64 in *. lia. }
  assert (float64.ofInt 0 = S754_zero false) as Hzero by reflexivity.
  assert (exists mu eu, float64.ofInt U = S754_finite false mu eu) as (mu & eu & HfU).
  { destruct (ofInt_pos_parts U HU) as (m & -> & _); [|eauto].
    pose proof (Zdigits2_bounds U HU) as [Hlo _].
    destruct (Z.le_gt_cases (Zdigits2 U) 53) as [|Hgt]; [assumption|exfalso].
    assert (2 ^ 46 <= 2 ^ (Zdigits2 U - 1)) by (apply Z.pow_le_mono_r; lia).
    lia. }
  destruct (Z.eq_dec r 0) as [Hr0|Hr0].
  - (* no remainder *)
    rewrite Hr0, Hzero, HfU. cbn [float64.div SFdiv xorb].
    destruct (Z.eq_dec q 0) as [->|Hq1]; [reflexivity|].
    destruct (ofInt_pos_parts q ltac:(lia) ltac:(lia)) as (m & Hfq & _).
    assert (float64.add (float64.ofInt q) (S754_zero false) = float64.ofInt q) as ->
        by (rewrite Hfq; reflexivity).
    apply toInt_ofInt; lia.
  - destruct (div_below_one r U ltac:(lia) HU46) as (Mv & Ev & -> & HEv & Hv).
    destruct (Z.eq_dec q 0) as [->|Hq1].
    + (* below one unit *)
      rewrite Hzero. cbn [float64.add SFadd].
      rewrite toInt_finite by lia.
      apply Z.div_small. split; [lia|].
      replace (- Ev) with (53 + (- Ev - 53)) by lia.
      rewrite pow2_split by lia.
      assert (0 < 2 ^ (- Ev - 53)) by (apply Z.pow_pos_nonneg; lia).
      lia.
    + apply add_floor; try assumption; lia.
Qed.


Lemma toInt_Seconds d :
  0 <= d -> d < time.Minute -> float64.toInt (time.Seconds d) = d / time.Second.
Proof.
  intros H0 H1. unfold time.Seconds.
  change 1000000000 with time.Second.
  apply toInt_quot_frac; try reflexivity; try assumption.
  apply Z.div_lt_upper_bound; [reflexivity|].
  change (time.Second * 64) with 64000000000.
  change time.Minute with 60000000000 in H1. lia.
Qed.

Lemma toInt_Minutes d :
  0 <= d -> d < time.Hour -> float64.toInt (time.Minutes d) = d / time.Minute.
Proof.
  intros H0 H1. unfold time.Minutes.
  change (60 * 1000000000) with time.Minute.
  apply toInt_quot_frac; try reflexivity; try assumption.
  apply Z.div_lt_upper_bound; [reflexivity|].
  change (time.Minute * 64) with 3840000000000.
  change time.Hour with 3600000000000 in H1. lia.
Qed.

Lemma toInt_Hours d :
  0 <= d -> d < 24 * time.Hour -> float64.toInt (time.Hours d) = d / time.Hour.
Proof.
  intros H0 H1. unfold time.Hours.
  change (60 * 60 * 1000000000) with time.Hour.
  apply toInt_quot_frac; try reflexivity; try assumption.
  apply Z.div_lt_upper_bound; [reflexivity|].
  change (time.Hour * 64) with 230400000000000.
  change (24 * time.Hour) with 86400000000000 in H1. lia.
Qed.

(** A value between [24 D] and three units of its last place below
    [24 (D + 1)], divided by 24 and cut to an integer, gives [D]. *)
Lemma div24_floor m3 e3 D :
  1 <= D -> 2 ^ 52 <= Zpos m3 < 2 ^ 53 -> -52 <= e3 <= 0 ->
  24 * D * 2 ^ (- e3) <= Zpos m3 ->
  Zpos m3 + 3 <= 24 * (D + 1) * 2 ^ (- e3) ->
  float64.toInt (float64.div (S754_finite false m3 e3) (float64.ofInt 24)) = D.
Proof.
  intros HD Hm3 He3 Hlo Hhi.
  assert (float64.ofInt 24 = S754_finite false 6755399441055744 (-48)) as ->
      by reflexivity.
  set (T := 2 ^ (- e3)) in *.
  assert (0 < T) as HT by (apply Z.pow_pos_nonneg; lia).
  unfold float64.div, float64.prec, float64.emax, SFdiv, SFdiv_core_binary.
  pose proof (Zdigits2_unique (Zpos m3) 53 Hm3 ltac:(lia)) as Hd1.
  assert (Zdigits2 (Zpos 6755399441055744) = 53) as Hd2 by reflexivity.
  rewrite Hd1, Hd2.
  replace (Z.min (fexp 53 1024 (53 + e3 - (53 + -48))) (e3 - -48))
    with (e3 - 5) by (unfold fexp, emin; lia).
  replace (e3 - -48 - (e3 - 5)) with 53 by lia.
  cbv iota beta.
  change (IntDef.Z.shiftl (Zpos m3) 53) with (Z.shiftl (Zpos m3) 53).
  rewrite Z.shiftl_mul_pow2 by lia.
  assert (fst (Z.div_eucl (Zpos m3 * 2 ^ 53) 6755399441055744)
          = Zpos m3 * 2 ^ 53 / 6755399441055744) as Hq by reflexivity.
  change IntDef.Z.div_eucl with Z.div_eucl.
  destruct (Z.div_eucl (Zpos m3 * 2 ^ 53) (Zpos 6755399441055744)) as [mz rz].
  cbn [fst] in Hq. cbn [xorb].
  change (2 ^ 52) with 4503599627370496 in *.
  change (2 ^ 53) with 9007199254740992 in *.
  (* the quotient is a third of four times the mantissa *)
  assert (3 * mz <= 4 * Zpos m3 < 3 * mz + 3) as Hmz.
  { pose proof (Z.div_mod (Zpos m3 * 9007199254740992) 6755399441055744 ltac:(lia)) as E.
    pose proof (Z.mod_pos_bound (Zpos m3 * 9007199254740992) 6755399441055744
                  ltac:(lia)) as Er.
    rewrite <- Hq in E. lia. }
  assert (exists k, (k = 0 \/ k = 1) /\ Zdigits2 mz = 53 + k) as (k & Hk & Hdz).
  { destruct (Z.lt_ge_cases mz 9007199254740992) as [Hlt|Hge]; [exists 0|exists 1];
      (split; [auto|]); (apply Zdigits2_unique; [|lia]).
    - change (2 ^ (53 + 0 - 1)) with 4503599627370496.
      change (2 ^ (53 + 0)) with 9007199254740992. lia.
    - change (2 ^ (53 + 1 - 1)) with 9007199254740992.
      change (2 ^ (53 + 1)) with 18014398509481984. lia. }
  destruct (binary_round_aux_bracket mz (e3 - 5) (new_location 6755399441055744 rz))
    as (m4 & e4 & -> & Hcases); try lia.
  rewrite Hdz in Hcases. replace (53 + k - 53) with k in Hcases by lia.
  change (2 ^ 52) with 4503599627370496 in *.
  change (2 ^ 53) with 9007199254740992 in *.
  assert (0 < 2 ^ k) as HK by (apply Z.pow_pos_nonneg; lia).
  pose proof (Z.mul_div_le mz (2 ^ k) HK) as Hfl.
  pose proof (Z.mul_succ_div_gt mz (2 ^ k) HK) as Hfu.
  set (Y := mz / 2 ^ k) in *.
  (* the bounds, at the scale of the quotient *)
  assert (32 * (D * T) <= mz) as Hzlo by lia.
  assert (mz + 4 <= 32 * (D * T) + 32 * T) as Hzhi by lia.
  rewrite toInt_finite by (destruct Hcases as [(He & _)|(He & _)]; lia).
  set (E := 2 ^ (- e4)).
  assert (0 < E) as HE by (apply Z.pow_pos_nonneg;
                           destruct Hcases as [(He & _)|(He & _)]; lia).
  assert (D * E <= Zpos m4 /\ Zpos m4 < D * E + E) as [Hres1 Hres2].
  { destruct Hcases as [(He & Hm4 & Hlt)|(He & Hm4 & Hov)].
    - assert (E * 2 ^ k = 32 * T) as HEK.
      { unfold E, T. rewrite <- pow2_split by lia.
        change 32 with (2 ^ 5). rewrite <- pow2_split by lia. f_equal. lia. }
      assert (D * E * 2 ^ k = 32 * (D * T)) as HDE
          by (rewrite <- Z.mul_assoc, HEK; ring).
      set (DE := D * E) in *. set (DT := D * T) in *.
      destruct Hk as [-> | ->];
        [change (2 ^ 0) with 1 in *|change (2 ^ 1) with 2 in *];
        clearbody DE DT E T Y; lia.
    - assert (E * 2 ^ k * 2 = 32 * T) as HEK.
      { unfold E, T. change 2 with (2 ^ 1) at 3.
        rewrite <- !pow2_split by lia.
        change 32 with (2 ^ 5). rewrite <- pow2_split by lia. f_equal. lia. }
      assert (D * E * 2 ^ k * 2 = 32 * (D * T)) as HDE
          by (rewrite <- !Z.mul_assoc, (Z.mul_assoc E), HEK; ring).
      set (DE := D * E) in *. set (DT := D * T) in *.
      destruct Hk as [-> | ->];
        [change (2 ^ 0) with 1 in *|change (2 ^ 1) with 2 in *];
        clearbody DE DT E T Y; lia. }
  assert (D <= Zpos m4 / E) by (apply Z.div_le_lower_bound; lia).
  assert (Zpos m4 / E < D + 1) by (apply Z.div_lt_upper_bound; lia).
  lia.
Qed.

(** From one day on: the whole days, for an elapsed time that is not
    within ten microseconds of the next whole day. *)
Lemma toInt_Days d :
  24 * time.Hour <= d -> d <= time.maxDuration ->
  d mod (24 * time.Hour) + 10 * time.Microsecond <= 24 * time.Hour ->
  float64.toInt (float64.div (time.Hours d) (float64.ofInt 24)) = d / (24 * time.Hour).
Proof.
  intros Hday Hmax Hmargin. unfold time.Hours.
  change (60 * 60 * 1000000000) with time.Hour.
  rewrite Z.quot_div_nonneg, Z.rem_mod_nonneg
    by (try reflexivity; change (24 * time.Hour) with 86400000000000 in Hday; lia).
  change (24 * time.Hour) with 86400000000000 in *.
  change (10 * time.Microsecond) with 10000 in *.
  change time.maxDuration with 9223372036854775807 in *.
  change time.Hour with 3600000000000 in *.
  set (U := 3600000000000) in *.
  assert (d mod 86400000000000 = d mod U + U * ((d / U) mod 24) /\
          d / 86400000000000 = d / U / 24) as [Hmod Hdiv].
  { unfold U. Z.to_euclidean_division_equations. lia. }
  rewrite Hdiv. rewrite Hmod in Hmargin.
  assert (24 <= d / U < 4194304) as Hq
      by (unfold U; Z.to_euclidean_division_equations; lia).
  pose proof (Z.mod_pos_bound d U ltac:(reflexivity)) as Hr.
  set (q := d / U) in *. set (r := d mod U) in *.
  pose proof (Z.div_mod q 24 ltac:(lia)) as Hq24.
  pose proof (Z.mod_pos_bound q 24 ltac:(lia)) as Hk.
  set (D := q / 24) in *. set (k := q mod 24) in *.
  assert (1 <= D) as HD by lia.
  (* the hours, as a number of at most 22 bits *)
  pose proof (Zdigits2_bounds q ltac:(lia)) as [Hq1 Hq2].
  assert (Zdigits2 q <= 22) as Hdq.
  { destruct (Z.le_gt_cases (Zdigits2 q) 22) as [|Hgt]; [assumption|exfalso].
    assert (2 ^ 22 <= 2 ^ (Zdigits2 q - 1)) by (apply Z.pow_le_mono_r; lia).
    change (2 ^ 22) with 4194304 in *. lia. }
  assert (0 < Zdigits2 q) as Hdq0 by (destruct q; try lia; cbn; lia).
  destruct (ofInt_pos_parts q ltac:(lia) ltac:(lia)) as (mq & Hfq & Hmq & Hmqb).
  set (dq := Zdigits2 q) in *.
  set (A := 2 ^ (53 - dq)) in *.
  set (D2 := 2 ^ dq) in *.
  assert (2 ^ 31 <= A) as HA by (apply Z.pow_le_mono_r; lia).
  assert (A * D2 = 2 ^ 53) as HAD
      by (unfold A, D2; rewrite <- pow2_split by lia; f_equal; lia).
  assert (D2 <= 2 ^ 22) as HD2 by (apply Z.pow_le_mono_r; lia).
  change (2 ^ 22) with 4194304 in *.
  change (2 ^ 31) with 2147483648 in *.
  change (2 ^ 52) with 4503599627370496 in *.
  change (2 ^ 53) with 9007199254740992 in *.
  assert (24 * (D * A) <= q * A) as HloA.
  { replace (24 * (D * A)) with (24 * D * A) by ring.
    apply Z.mul_le_mono_nonneg_r; lia. }
  assert (k <= 22 -> q * A + 2 * A <= 24 * (D * A) + 24 * A) as HhiA.
  { intros Hk22. replace (q * A + 2 * A) with ((q + 2) * A) by ring.
    replace (24 * (D * A) + 24 * A) with (24 * (D + 1) * A) by ring.
    apply Z.mul_le_mono_nonneg_r; lia. }
  assert (q * A + A <= 24 * (D * A) + 24 * A) as HhiA'.
  { replace (q * A + A) with ((q + 1) * A) by ring.
    replace (24 * (D * A) + 24 * A) with (24 * (D + 1) * A) by ring.
    apply Z.mul_le_mono_nonneg_r; lia. }
  destruct (Z.eq_dec r 0) as [Hr0|Hr0].
  - (* a whole number of hours *)
    rewrite Hr0.
    assert (float64.div (float64.ofInt 0) (float64.ofInt U) = S754_zero false) as ->
        by reflexivity.
    assert (float64.add (float64.ofInt q) (S754_zero false) = float64.ofInt q) as ->
        by (rewrite Hfq; reflexivity).
    rewrite Hfq. apply div24_floor; try lia.
    + replace (- (dq - 53)) with (53 - dq) by lia. fold A. rewrite Hmq.
      replace (24 * D * A) with (24 * (D * A)) by ring. exact HloA.
    + replace (- (dq - 53)) with (53 - dq) by lia. fold A. rewrite Hmq.
      replace (24 * (D + 1) * A) with (24 * (D * A) + 24 * A) by ring.
      set (qA := q * A) in *. set (DA := D * A) in *. clearbody qA DA A. lia.
  - (* the fraction of an hour *)
    assert (exists Mv Ev,
               float64.div (float64.ofInt r) (float64.ofInt U) = S754_finite false Mv Ev /\
               Ev <= -53 /\
               Zpos Mv < 9007199254740992 * 2 ^ (- Ev - 53) /\
               (k = 23 -> Zpos Mv + 16777216 * 2 ^ (- Ev - 53)
                          <= 9007199254740992 * 2 ^ (- Ev - 53)))
      as (Mv & Ev & -> & HEv & Hv & Hv23).
    { destruct (Z.eq_dec k 23) as [Hk23|Hk23].
      - destruct (div_fraction r U 10000 16777218) as (Mv & Ev & Hdv & HEv & Hv);
          try reflexivity; try lia.
        exists Mv, Ev. split; [exact Hdv|]. split; [exact HEv|].
        assert (0 < 2 ^ (- Ev - 53)) by (apply Z.pow_pos_nonneg; lia).
        change (2 ^ 53) with 9007199254740992 in Hv.
        change (16777218 - 2) with 16777216 in Hv.
        set (P := 2 ^ (- Ev - 53)) in *. clearbody P. split; [lia|intros _; exact Hv].
      - destruct (div_fraction r U 1 128) as (Mv & Ev & Hdv & HEv & Hv);
          try reflexivity; try lia.
        exists Mv, Ev. split; [exact Hdv|]. split; [exact HEv|].
        assert (0 < 2 ^ (- Ev - 53)) by (apply Z.pow_pos_nonneg; lia).
        change (2 ^ 53) with 9007199254740992 in Hv.
        set (P := 2 ^ (- Ev - 53)) in *. clearbody P. split; [lia|intros; lia]. }
    destruct (add_bracket q Mv Ev ltac:(lia) ltac:(lia) HEv Hv)
      as (m3 & e3 & -> & Hcases).
    fold dq A in Hcases.
    set (P := 2 ^ (- Ev - 53)) in *.
    assert (0 < P) as HP by (apply Z.pow_pos_nonneg; lia).
    remember (2 ^ (dq - 53 - Ev)) as B eqn:EB.
    assert (B = D2 * P) as HB
        by (rewrite EB; unfold D2, P; rewrite <- pow2_split by lia; f_equal; lia).
    assert (0 < D2) as HD20 by (apply Z.pow_pos_nonneg; lia).
    assert (0 < B) as HB0 by (rewrite EB; apply Z.pow_pos_nonneg; lia).
    assert (A * B = 9007199254740992 * P) as HAB
        by (rewrite HB, <- HAD; ring).
    change (2 ^ 52) with 4503599627370496 in *.
    change (2 ^ 53) with 9007199254740992 in *.
    assert (0 <= Zpos Mv / B) as Hy0 by (apply Z.div_pos; lia).
    assert (Zpos Mv / B < A) as Hy1.
    { apply Z.div_lt_upper_bound; [exact HB0|]. rewrite (Z.mul_comm B A), HAB. exact Hv. }
    assert (k = 23 -> Zpos Mv / B + 4 <= A) as Hy23.
    { intros Hk23. specialize (Hv23 Hk23).
      assert (Zpos Mv / B < A - 3); [|lia].
      apply Z.div_lt_upper_bound; [exact HB0|].
      replace (B * (A - 3)) with (A * B - 3 * B) by ring. rewrite HAB.
      assert (4 * B <= 16777216 * P).
      { rewrite HB. replace (4 * (D2 * P)) with (4 * D2 * P) by ring.
        apply Z.mul_le_mono_nonneg_r; lia. }
      lia. }
    set (y := Zpos Mv / B) in *.
    destruct Hcases as [(He & Hlo & Hhi & Hlt)|(He & Hm3 & Hov)].
    + (* the exponent of the hours *)
      apply div24_floor; try lia.
      * rewrite He. replace (- (dq - 53)) with (53 - dq) by lia. fold A.
        replace (24 * D * A) with (24 * (D * A)) by ring. lia.
      * rewrite He. replace (- (dq - 53)) with (53 - dq) by lia. fold A.
        replace (24 * (D + 1) * A) with (24 * (D * A) + 24 * A) by ring.
        destruct (Z.eq_dec k 23) as [Hk23|Hk23].
        -- specialize (Hy23 Hk23).
           set (qA := q * A) in *. set (DA := D * A) in *. clearbody qA DA A y. lia.
        -- specialize (HhiA ltac:(lia)).
           set (qA := q * A) in *. set (DA := D * A) in *. clearbody qA DA A y. lia.
    + (* the next power of two *)
      set (T := 2 ^ (52 - dq)).
      assert (A = 2 * T) as HAT.
      { unfold A, T. replace (53 - dq) with (1 + (52 - dq)) by lia.
        now rewrite pow2_split by lia. }
      assert (0 < T) as HT by (apply Z.pow_pos_nonneg; lia).
      assert (D2 * T = 4503599627370496) as HDT.
      { rewrite HAT in HAD. lia. }
      assert (D2 <= q + 1) as Hnext.
      { destruct (Z.le_gt_cases D2 (q + 1)) as [|Hgt]; [assumption|exfalso].
        assert ((q + 2) * A <= D2 * A) as Hm by (apply Z.mul_le_mono_nonneg_r; lia).
        replace ((q + 2) * A) with (q * A + 2 * A) in Hm by ring.
        rewrite (Z.mul_comm D2 A), HAD in Hm.
        set (qA := q * A) in *. clearbody qA A y. lia. }
      assert (k <> 23) as Hk23.
      { intros Hk23. specialize (Hy23 Hk23).
        assert ((q + 1) * A <= D2 * A) as Hm by (apply Z.mul_le_mono_nonneg_r; lia).
        replace ((q + 1) * A) with (q * A + A) in Hm by ring.
        rewrite (Z.mul_comm D2 A), HAD in Hm.
        set (qA := q * A) in *. clearbody qA A y. lia. }
      apply div24_floor; try lia.
      * rewrite He. replace (- (dq - 52)) with (52 - dq) by lia. fold T. rewrite Hm3.
        rewrite <- HDT. apply Z.mul_le_mono_nonneg_r; lia.
      * rewrite He. replace (- (dq - 52)) with (52 - dq) by lia. fold T. rewrite Hm3.
        assert ((D2 + 1) * T <= 24 * (D + 1) * T) as Hm
            by (apply Z.mul_le_mono_nonneg_r; lia).
        replace ((D2 + 1) * T) with (D2 * T + T) in Hm by ring.
        rewrite HDT in Hm.
        set (X := 24 * (D + 1) * T) in *. clearbody X. lia.
Qed.

(** Under one day the label has the whole seconds, minutes or hours of
    the elapsed time. *)
Lemma formatDuration_under_a_day d :
  0 <= d -> d < 24 * time.Hour -> formatDuration d = wholeUnitsLabel d.
Proof.
  intros H0 H1. unfold formatDuration, wholeUnitsLabel.
  destruct (d <? time.Minute) eqn:E1.
  { apply Z.ltb_lt in E1. now rewrite toInt_Seconds. }
  destruct (d <? time.Hour) eqn:E2.
  { apply Z.ltb_lt in E2. now rewrite toInt_Minutes. }
  apply Z.ltb_lt in H1 as H1'. rewrite H1'.
  now rewrite toInt_Hours.
Qed.


End Binary64.

(** The label has the whole units of the elapsed time, cut down: always
    under one day, and from then on whenever the elapsed time is not
    within ten microseconds of the next whole day. *)
Lemma formatDuration_whole_units (d : time.Duration) :
  0 <= d <= time.maxDuration ->
  d < 24 * time.Hour \/
  d mod (24 * time.Hour) + 10 * time.Microsecond <= 24 * time.Hour ->
  formatDuration d = wholeUnitsLabel d.
Proof.
  intros [H0 Hmax] Hside.
  destruct (Z.lt_ge_cases d (24 * time.Hour)) as [Hlt|Hge].
  { now apply formatDuration_under_a_day. }
  destruct Hside as [Hlt|Hmargin]; [lia|].
  unfold formatDuration, wholeUnitsLabel.
  assert ((d <? time.Minute) = false) as ->
      by (apply Z.ltb_ge; change (24 * time.Hour) with 86400000000000 in Hge;
          change time.Minute with 60000000000; lia).
  assert ((d <? time.Hour) = false) as ->
      by (apply Z.ltb_ge; change (24 * time.Hour) with 86400000000000 in Hge;
          change time.Hour with 3600000000000; lia).
  assert ((d <? 24 * time.Hour) = false) as -> by (apply Z.ltb_ge; lia).
  now rewrite toInt_Days.
Qed.

Lemma Sub_range (t u : time.Time) :
  u <= t -> 0 <= time.Sub t u <= time.maxDuration.
Proof.
  intros Hut. unfold time.Sub.
  assert (time.minDuration < 0 < time.maxDuration) by (split; reflexivity).
  destruct (Z.ltb_spec (t - u) time.minDuration); [lia|].
  destruct (Z.ltb_spec time.maxDuration (t - u)); lia.
Qed.

(** One nanosecond before a whole number of days the label has the
    whole days up to 170 days, and one day more from 171 to 200 days. *)
Lemma formatDuration_before_day_boundary :
  forallb (fun k => agreesWithWholeUnits (Z.of_nat k * (24 * time.Hour) - 1))
          (seq 1 170)
  && forallb (fun k => String.eqb (formatDuration (Z.of_nat k * (24 * time.Hour) - 1))
                                  (fmt.itoa (Z.of_nat k) ++ "d ago"))
             (seq 171 30)
  = true.
Proof. vm_compute. reflexivity. Qed.

(** An elapsed time beyond the range of a [Duration] counts as the
    longest one: about 292 years. *)
Lemma formatAge_saturated (w : World) (t : time.Time) :
  time.maxDuration <= clock w (ticks w) - t ->
  fst (formatAge t w) = "106751d ago".
Proof.
  intros H. unfold formatAge, Since, Now, bind, ret, time.Sub. cbn [fst].
  destruct (Z.ltb_spec (clock w (ticks w) - t) time.minDuration) as [Hlt|_].
  { unfold time.minDuration, time.maxDuration in *. lia. }
  destruct (Z.ltb_spec time.maxDuration (clock w (ticks w) - t)) as [_|Hle].
  - vm_compute. reflexivity.
  - replace (clock w (ticks w) - t) with time.maxDuration by lia.
    vm_compute. reflexivity.
Qed.

(** One nanosecond short of 171 days the elapsed time has 170 whole
    days, and the label says [171d ago]: [Duration.Hours] adds the whole
    hours and the fraction of an hour in [float64], and
    4103 + 0.99999999999972 rounds to 4104. *)
Lemma formatDuration_rounds_up_before_171_days :
  (171 * (24 * time.Hour) - 1) / (24 * time.Hour) = 170 /\
  time.Hours (171 * (24 * time.Hour) - 1) = float64.ofInt 4104 /\
  formatDuration (171 * (24 * time.Hour) - 1) = "171d ago".
Proof. repeat split; vm_compute; reflexivity. Qed.

(** C9. For a timestamp that is not in the future, the label has the
    whole units of the elapsed time, cut down and never rounded: seconds
    under one minute, minutes under one hour, hours under one day, and
    days from then on, as long as the elapsed time is under one day or
    is not within ten microseconds of the next whole day.  The elapsed
    time is the one [time.Since] reports, a [Duration].  In particular
    45 seconds give [45s ago], 90 minutes [1h ago] and 3 days
    [3d ago]. *)
Theorem formatAge_whole_units (w : World) :
  (forall t : time.Time,
     let d := time.Sub (clock w (ticks w)) t in
     t <= clock w (ticks w) ->
     d < 24 * time.Hour \/
     d mod (24 * time.Hour) + 10 * time.Microsecond <= 24 * time.Hour ->
     fst (formatAge t w) = wholeUnitsLabel d) /\
  fst (formatAge (clock w (ticks w) - 45 * time.Second) w) = "45s ago" /\
  fst (formatAge (clock w (ticks w) - 90 * time.Minute) w) = "1h ago" /\
  fst (formatAge (clock w (ticks w) - 3 * (24 * time.Hour)) w) = "3d ago".
Proof.
  split.
  - intros t d Hpast Hside.
    unfold formatAge, Since, Now, bind, ret. cbn [fst]. fold d.
    apply formatDuration_whole_units; [|exact Hside].
    now apply Sub_range.
  - repeat rewrite formatAge_elapsed by (vm_compute; split; discriminate).
    repeat split; vm_compute; reflexivity.
Qed.

(** Three days and five hours before the first reading of the clock. *)
Lemma formatAge_whole_units_witness :
  let w := Example.fresh in
  let t := clock w (ticks w) - (3 * (24 * time.Hour) + 5 * time.Hour) in
  t <= clock w (ticks w) /\
  time.Sub (clock w (ticks w)) t mod (24 * time.Hour) + 10 * time.Microsecond
    <= 24 * time.Hour /\
  fst (formatAge t w) = "3d ago".
Proof.
  intros w t.
  assert (t <= clock w (ticks w)) as H0 by (vm_compute; discriminate).
  assert (time.Sub (clock w (ticks w)) t mod (24 * time.Hour) + 10 * time.Microsecond
          <= 24 * time.Hour) as Hm by (vm_compute; discriminate).
  split; [exact H0|]. split; [exact Hm|].
  exact (proj1 (formatAge_whole_units w) t H0 (or_intror Hm)).
Defined.

(** The zero [time.Time] lies 738837 days before the clock of the
    example world, so that the whole days of the elapsed time are
    738837; [time.Since] reports the longest [Duration], and the label
    counts its days. *)
Lemma formatAge_of_zero_time :
  let w := Example.fresh in
  time.zeroTime < clock w (ticks w) /\
  (clock w (ticks w) - time.zeroTime) / (24 * time.Hour) = 738837 /\
  wholeUnitsLabel (clock w (ticks w) - time.zeroTime) = "738837d ago" /\
  time.Sub (clock w (ticks w)) time.zeroTime = time.maxDuration /\
  fst (formatAge time.zeroTime w) = "106751d ago".
Proof. repeat split; vm_compute; reflexivity. Qed.

(** * Further properties of the manager *)

(** ** Errors *)


(** A world whose state file does not hold a JSON text. *)
Definition corruptStore : World :=
  setFiles (fun p => if String.eqb p (Manager.stateFile Example.m)
                     then Holds json.Malformed else NoFile) Example.fresh.

Section ErrorFacts.
Context {TF : json.TimeFormat}.














Lemma Queue_load_error m w e :
  fst (Manager.loadState m w) = Err e -> Manager.Queue m w = (Err e, w).
Proof.
  intros H. unfold Manager.Queue, bind.
  rewrite (surjective_pairing (Manager.discoverWorkBranches m w)),
    discoverWorkBranches_world.
  assert (exists bs, fst (Manager.discoverWorkBranches m w) = Ok bs) as [bs ->].
  { unfold Manager.discoverWorkBranches.
    destruct (gitRemoteBranches w _) as [[|p|p] out|c]; cbn [fst]; eauto. }
  rewrite (surjective_pairing (Manager.loadState m w)), H, loadState_world.
  reflexivity.
Qed.

(** X1. When the state file cannot be loaded, [Status], [Start], [Stop]
    and [Queue] report the error of the load and do nothing else: no
    write, no signal, no reading of the clock, no output. *)
Theorem load_error_is_passed_on
        (m : Manager.t) (foreground : bool) (w : World) (e : error) :
  fst (Manager.loadState m w) = Err e ->
  Manager.Status m w = (Err e, w) /\
  Manager.Start m foreground w = (Returns (Some e), w) /\
  Manager.Stop m w = (Some e, w) /\
  Manager.Queue m w = (Err e, w).
Proof.
  intros H. repeat split.
  - now apply Status_load_error.
  - now apply Start_load_error.
  - now apply Stop_load_error.
  - now apply Queue_load_error.
Qed.


End ErrorFacts.

Lemma load_error_is_passed_on_witness :
  fst (Manager.loadState Example.m corruptStore) = Err SyntaxError /\
  Manager.Stop Example.m corruptStore = (Some SyntaxError, corruptStore) /\
  Manager.Queue Example.m corruptStore = (Err SyntaxError, corruptStore).
Proof.
  assert (fst (Manager.loadState Example.m corruptStore) = Err SyntaxError) as H
      by reflexivity.
  split; [exact H|].
  destruct (load_error_is_passed_on Example.m false corruptStore SyntaxError H)
    as (_ & _ & Hstop & Hqueue).
  split; [exact Hstop|exact Hqueue].
Defined.

(** ** What the operations leave alone *)

Section FrameFacts.
Context {TF : json.TimeFormat}.

(** X3. [saveState] writes no path but the state file, sends no
    signal, prints nothing and does not read the clock.  It takes its
    steps in order: when the directory cannot be made, it returns that
    error and no file is opened; once the directory is made it stays,
    whatever follows; when the record cannot be encoded, because a
    timestamp lies outside the years 0 to 9999, it returns the
    encoder's error and no file is opened. *)
Theorem saveState_touches_only_the_state_file
        (m : Manager.t) (r : Refinery.t) (w : World) :
  let dir := filepath.Dir (Manager.stateFile m) in
  (forall p, p <> Manager.stateFile m ->
             files (snd (Manager.saveState m r w)) p = files w p) /\
  signals (snd (Manager.saveState m r w)) = signals w /\
  stdout (snd (Manager.saveState m r w)) = stdout w /\
  ticks (snd (Manager.saveState m r w)) = ticks w /\
  (forall e, mkdirAllErr w dir = Some e ->
             fst (Manager.saveState m r w) = Some (PathError e) /\
             files (snd (Manager.saveState m r w)) = files w) /\
  (mkdirAllErr w dir = None ->
   dirs (snd (Manager.saveState m r w)) = (dirs w ++ [dir])%list /\
   (marshalable r = false ->
    fst (Manager.saveState m r w) = Some MarshalerError /\
    files (snd (Manager.saveState m r w)) = files w)).
Proof.
  cbv zeta.
  destruct (saveState_frame m r w) as (_ & _ & _ & _ & Hsig & _ & Htick & _ & Hout).
  split; [|split; [exact Hsig|split; [exact Hout|split; [exact Htick|]]]].
  - intros p Hp.
    destruct (fst (Manager.saveState m r w)) as [e|] eqn:Es.
    + now rewrite (saveState_failed_files _ _ _ _ Es).
    + rewrite (saveState_saved _ _ _ Es). cbn [snd].
      apply saveState_None in Es. destruct Es as [_ Es].
      destruct (Marshal_marshalable r Es) as [d Hd].
      rewrite (files_written _ _ _ d Hd).
      destruct (String.eqb_spec p (Manager.stateFile m)); [contradiction|reflexivity].
  - rewrite saveState_eq. split.
    + intros e ->. split; reflexivity.
    + intros ->. cbv zeta. unfold written.
      destruct (json.Marshal r) as [d|e] eqn:EM.
      * split; [destruct (writeFileErr w _); reflexivity|].
        apply Marshal_Ok in EM. congruence.
      * apply Marshal_error in EM. destruct EM as [-> _].
        split; [reflexivity|]. intros _. split; reflexivity.
Qed.


(** X4. A [Stop] that is refused has done nothing: when it reports
    [ErrNotRunning] no signal was sent, no directory made and no file
    written; the world is as it was. *)
Theorem refused_Stop_changes_nothing (m : Manager.t) (w : World) :
  fst (Manager.Stop m w) = Some ErrNotRunning ->
  snd (Manager.Stop m w) = w.
Proof.
  destruct (fst (Manager.loadState m w)) as [ref|e0] eqn:Hload.
  - rewrite (Stop_eq _ _ _ Hload).
    destruct (negb _); [reflexivity|].
    intros Es. apply saveState_not_sentinel in Es.
    destruct Es as [Es|[c Es]]; discriminate.
  - now rewrite (Stop_load_error _ _ _ Hload).
Qed.

(** X5. [Status] only reads, unless the record says running and names
    a process that fails the liveness check: a record that is not
    running, a running record without process identifier, and a running
    record whose process answers are returned as they are, and nothing
    is written. *)
Theorem Status_of_a_settled_record (m : Manager.t) (w : World) (ref : Refinery.t) :
  fst (Manager.loadState m w) = Ok ref ->
  Refinery.State ref <> StateRunning \/
  Refinery.PID ref <= 0 \/
  fst (processExists (Refinery.PID ref) w) = true ->
  Manager.Status m w = (Ok ref, w).
Proof.
  intros Hload Hsettled. rewrite (Status_eq _ _ _ Hload).
  destruct (claimsProcess ref) eqn:Hc; [|reflexivity].
  apply claimsProcess_true in Hc. destruct Hc as [Hs Hp].
  destruct Hsettled as [H|[H|H]]; [contradiction|lia|].
  now rewrite H.
Qed.

(** What [Status] answers depends on the state file only. *)
Lemma Status_fst m w :
  fst (Manager.Status m w) =
  rmap (fun ref => if claimsProcess ref then stopped ref else ref)
       (fst (Manager.loadState m w)).
Proof.
  destruct (fst (Manager.loadState m w)) as [ref|e] eqn:Hload.
  - rewrite (Status_eq _ _ _ Hload), processExists_eq. cbn [fst negb rmap].
    rewrite Bool.andb_true_r. now destruct (claimsProcess ref).
  - now rewrite (Status_load_error _ _ _ Hload).
Qed.

(** X6. When the state file can be written, asking for the status
    twice, with nothing else happening in between, gives the same
    answer as asking once, whether the first query healed the record,
    could not save it because the directory could not be made or the
    record not encoded, or found nothing to heal. *)
Theorem Status_twice (m : Manager.t) (w : World) :
  writeFileErr w (Manager.stateFile m) = None ->
  fst (Manager.Status m (snd (Manager.Status m w))) = fst (Manager.Status m w).
Proof.
  intros Hwrite.
  destruct (fst (Manager.loadState m w)) as [ref|e] eqn:Hload.
  2:{ rewrite (Status_load_error _ _ _ Hload). cbn [snd].
      now rewrite (Status_load_error _ _ _ Hload). }
  rewrite !Status_fst, Hload.
  rewrite (Status_eq _ _ _ Hload), processExists_eq. cbn [fst negb rmap].
  rewrite Bool.andb_true_r.
  destruct (claimsProcess ref) eqn:Hc; cbn [snd];
    [|rewrite Hload; cbn [rmap]; now rewrite Hc].
  destruct (fst (Manager.saveState m (stopped ref) w)) as [e|] eqn:Es.
  - rewrite (loadState_files m _ w (saveState_failed_files _ _ _ _ Es)), Hload.
    cbn [rmap]. now rewrite Hc.
  - rewrite (loadState_saved _ _ _ Es). reflexivity.
Qed.

Lemma signals_saveState m r w :
  signals (snd (Manager.saveState m r w)) = signals w.
Proof. apply saveState_frame. Qed.


Lemma stdout_saveState m r w :
  stdout (snd (Manager.saveState m r w)) = stdout w.
Proof. apply saveState_frame. Qed.

(** X8. [Start] stays in the processing loop exactly when it is called
    in the foreground mode and has saved the running record: the store
    then holds a record with state running, the time of the call as
    start time and the caller's process identifier, and the two lines
    of the loop have been printed.  A [Start] that returns, in either mode,
    has printed nothing, and a foreground [Start] returns only with an
    error. *)
Theorem Start_output (m : Manager.t) (foreground : bool) (w : World) :
  match fst (Manager.Start m foreground w) with
  | Blocks =>
      foreground = true /\
      (exists ref saved,
         fst (Manager.loadState m w) = Ok ref /\
         fst (Manager.saveState m (started (clock w (ticks w)) (pid w) ref) w) = None /\
         fst (Manager.loadState m (snd (Manager.Start m foreground w))) = Ok saved /\
         Refinery.State saved = StateRunning /\
         Refinery.StartedAt saved = Some (clock w (ticks w)) /\
         Refinery.PID saved = pid w) /\
      stdout (snd (Manager.Start m foreground w))
      = (stdout w ++ ["Refinery running (stub mode)..."; "Press Ctrl+C to stop"])%list
  | Returns None =>
      foreground = false /\ stdout (snd (Manager.Start m foreground w)) = stdout w
  | Returns (Some _) => stdout (snd (Manager.Start m foreground w)) = stdout w
  end.
Proof.
  destruct (fst (Manager.loadState m w)) as [ref|e0] eqn:Hload.
  2:{ now rewrite (Start_load_error _ _ _ _ Hload). }
  rewrite (Start_eq_save _ _ _ _ Hload). cbv zeta.
  destruct (fst (Manager.saveState m _ _)) as [c|] eqn:Es; cbn [fst snd].
  - now rewrite stdout_saveState.
  - destruct foreground; cbn [fst snd].
    + split; [reflexivity|]. split.
      * exists ref, (started (clock w (ticks w)) (pid w) ref).
        split; [reflexivity|]. split.
        -- now rewrite <- (saveState_fst m _ w (setTicks (S (ticks w)) w)).
        -- rewrite (loadState_files m _ _ (files_run m _ _)).
           split; [now apply loadState_saved|]. repeat split.
      * unfold Manager.run, bind, Println, ret. cbn [snd stdout setStdout].
        rewrite stdout_saveState. cbn [stdout setTicks].
        now rewrite <- app_assoc.
    + split; [reflexivity|]. now rewrite stdout_saveState.
Qed.


End FrameFacts.

Lemma refused_Stop_changes_nothing_witness :
  fst (Manager.Stop Example.m Example.fresh) = Some ErrNotRunning /\
  snd (Manager.Stop Example.m Example.fresh) = Example.fresh.
Proof.
  assert (fst (Manager.Stop Example.m Example.fresh) = Some ErrNotRunning) as H
      by reflexivity.
  exact (conj H (refused_Stop_changes_nothing Example.m Example.fresh H)).
Defined.

Lemma Status_twice_witness :
  writeFileErr (Example.holding Example.stale) (Manager.stateFile Example.m) = None /\
  fst (Manager.Status Example.m (Example.holding Example.stale))
  = Ok (stopped Example.stale) /\
  fst (Manager.Status Example.m
         (snd (Manager.Status Example.m (Example.holding Example.stale))))
  = Ok (stopped Example.stale).
Proof.
  assert (writeFileErr (Example.holding Example.stale) (Manager.stateFile Example.m)
          = None) as Hw by reflexivity.
  assert (fst (Manager.Status Example.m (Example.holding Example.stale))
          = Ok (stopped Example.stale)) as Hs by (vm_compute; reflexivity).
  exact (conj Hw (conj Hs
           (eq_trans (Status_twice Example.m (Example.holding Example.stale) Hw) Hs))).
Defined.

Lemma Status_of_a_settled_record_witness :
  fst (Manager.loadState Example.m Example.fresh) = Ok (defaultRecord Example.m) /\
  Refinery.State (defaultRecord Example.m) <> StateRunning /\
  Manager.Status Example.m Example.fresh = (Ok (defaultRecord Example.m), Example.fresh).
Proof.
  assert (fst (Manager.loadState Example.m Example.fresh)
          = Ok (defaultRecord Example.m)) as Hload by reflexivity.
  assert (Refinery.State (defaultRecord Example.m) <> StateRunning) as Hs
      by discriminate.
  split; [exact Hload|]. split; [exact Hs|].
  exact (Status_of_a_settled_record Example.m Example.fresh _ Hload (or_introl Hs)).
Defined.



Section StartAgain.
Context {TF : json.TimeFormat}.


End StartAgain.


Section QuietFacts.
Context {TF : json.TimeFormat}.

(** X11. [Status] and [Start] send no signal.  In particular a [Start]
    that takes over a running record, because the recorded process
    failed the liveness check, does so without interrupting that
    process. *)
Theorem Status_and_Start_send_no_signal
        (m : Manager.t) (foreground : bool) (w : World) :
  signals (snd (Manager.Status m w)) = signals w /\
  signals (snd (Manager.Start m foreground w)) = signals w.
Proof.
  destruct (fst (Manager.loadState m w)) as [ref|e] eqn:Hload.
  2:{ now rewrite (Status_load_error _ _ _ Hload), (Start_load_error _ _ _ _ Hload). }
  split.
  - rewrite (Status_eq _ _ _ Hload).
    destruct (_ && _)%bool; cbn [snd]; [apply signals_saveState|reflexivity].
  - rewrite (Start_eq _ _ _ _ Hload).
    destruct (_ && _)%bool; [reflexivity|]. cbv zeta.
    destruct (fst (Manager.saveState m _ _)); cbn [snd];
      [now rewrite signals_saveState|].
    destruct foreground; cbn [snd].
    + unfold Manager.run, bind, Println, ret. cbn [snd signals setStdout].
      now rewrite signals_saveState.
    + now rewrite signals_saveState.
Qed.


End QuietFacts.


(** ** More on the queue *)

Section QueueMore.
Context {TF : json.TimeFormat}.

Lemma setTicks_ticks w : setTicks (ticks w) w = w.
Proof. now destruct w. Qed.

Lemma queueBranches_world m branches : forall items pos w,
  exists n, (ticks w <= n)%nat /\
            snd (Manager.queueBranches m branches items pos w) = setTicks n w.
Proof.
  induction branches as [|b more IH]; intros items pos w.
  - exists (ticks w). split; [lia|]. cbn. now rewrite setTicks_ticks.
  - cbn [Manager.queueBranches]. unfold bind.
    rewrite branchToMR_eq.
    destruct (parseBranch b) as [[worker issue]|].
    + rewrite formatAge_eq.
      match goal with
      | |- context [Manager.queueBranches m more ?its ?p ?w'] =>
          destruct (IH its p w') as (n & Hn & ->)
      end.
      cbn [ticks setTicks] in Hn. exists n. split; [lia|reflexivity].
    + apply IH.
Qed.

(** X13. [Queue] only looks: beside the query it puts to [git], it
    writes no file, sends no signal and prints nothing.  All that it
    changes is the number of readings taken from the clock. *)
Theorem Queue_only_reads (m : Manager.t) (w : World) :
  exists n, (ticks w <= n)%nat /\ snd (Manager.Queue m w) = setTicks n w.
Proof.
  unfold Manager.Queue, bind.
  rewrite (surjective_pairing (Manager.discoverWorkBranches m w)),
    discoverWorkBranches_world.
  destruct (fst (Manager.discoverWorkBranches m w)) as [branches|e].
  2:{ exists (ticks w). split; [lia|]. cbn. now rewrite setTicks_ticks. }
  rewrite (surjective_pairing (Manager.loadState m w)), loadState_world.
  destruct (fst (Manager.loadState m w)) as [ref|e].
  2:{ exists (ticks w). split; [lia|]. cbn. now rewrite setTicks_ticks. }
  destruct (Refinery.CurrentMR ref) as [cur|].
  - rewrite formatAge_eq. unfold ret.
    match goal with
    | |- context [Manager.queueBranches m branches ?its ?p ?w'] =>
        destruct (queueBranches_world m branches its p w') as (n & Hn & Hw);
        rewrite (surjective_pairing (Manager.queueBranches m branches its p w')), Hw
    end.
    cbn [ticks setTicks] in Hn. exists n. split; [lia|reflexivity].
  - unfold ret.
    destruct (queueBranches_world m branches [] 1 w) as (n & Hn & Hw).
    rewrite (surjective_pairing (Manager.queueBranches m branches [] 1 w)), Hw.
    exists n. split; [lia|reflexivity].
Qed.

(** A pending item as [Queue] makes it: its merge request was created
    at a reading of the clock taken during the call, and its age is
    zero seconds. *)
Definition justDiscovered (w : World) (it : QueueItem.t) : Prop :=
  QueueItem.Age it = "0s ago" /\
  exists mr n, QueueItem.MR it = Some mr /\ (ticks w <= n)%nat /\
               MergeRequest.CreatedAt mr = clock w n.

Lemma formatDuration_under_a_second d :
  0 <= d < time.Second -> formatDuration d = "0s ago".
Proof.
  intros [H0 H1]. unfold formatDuration.
  assert (d < time.Minute) as Hm
      by (change time.Second with 1000000000 in H1;
          change time.Minute with 60000000000; lia).
  apply Z.ltb_lt in Hm as Hm'. rewrite Hm'.
  rewrite toInt_Seconds by assumption.
  now rewrite Z.div_small by lia.
Qed.

Lemma Sub_small a b : 0 <= a - b < time.Second -> time.Sub a b = a - b.
Proof.
  intros [H0 H1]. unfold time.Sub.
  change time.Second with 1000000000 in H1.
  destruct (Z.ltb_spec (a - b) time.minDuration) as [H|_];
    [change time.minDuration with (-9223372036854775808) in H; lia|].
  destruct (Z.ltb_spec time.maxDuration (a - b)) as [H|_];
    [change time.maxDuration with 9223372036854775807 in H; lia|reflexivity].
Qed.

Lemma queueBranches_ages m (w0 : World) branches :
  (forall n, 0 <= clock w0 (S n) - clock w0 n < time.Second) ->
  forall items pos w,
    clock w = clock w0 -> (ticks w0 <= ticks w)%nat ->
    exists pending,
      fst (Manager.queueBranches m branches items pos w) = (items ++ pending)%list /\
      Forall (justDiscovered w0) pending.
Proof.
  intros Hclock. induction branches as [|b more IH]; intros items pos w Hc Ht.
  - exists []. cbn. now rewrite app_nil_r.
  - cbn [Manager.queueBranches]. unfold bind.
    rewrite branchToMR_eq.
    destruct (parseBranch b) as [[worker issue]|].
    + rewrite formatAge_eq.
      match goal with
      | |- context [Manager.queueBranches m more (items ++ [?it])%list ?p ?w'] =>
          destruct (IH (items ++ [it])%list p w') as (pending & Hq & Hall);
          [exact Hc|cbn [ticks setTicks]; lia|];
          exists (it :: pending)
      end.
      rewrite Hq, <- app_assoc. split; [reflexivity|].
      constructor; [|exact Hall].
      split.
      * cbn [QueueItem.Age MergeRequest.CreatedAt clock ticks setTicks].
        rewrite Hc.
        rewrite Sub_small by apply Hclock.
        apply formatDuration_under_a_second, Hclock.
      * eexists _, (S (ticks w)). cbn [QueueItem.MR MergeRequest.CreatedAt].
        split; [reflexivity|]. split; [lia|]. now rewrite Hc.
    + apply IH; assumption.
Qed.

(** X14. Every pending item of the queue is as old as the call: the
    merge request of a discovered branch is stamped with a reading of
    the clock taken by [Queue] itself, not with a time of the branch.
    When the clock moves on by less than a second between two readings,
    the age of every pending item is [0s ago]. *)
Theorem Queue_pending_items_are_new
        (m : Manager.t) (w : World) (branches : list string) (ref : Refinery.t) :
  fst (Manager.discoverWorkBranches m w) = Ok branches ->
  fst (Manager.loadState m w) = Ok ref ->
  (forall n, 0 <= clock w (S n) - clock w n < time.Second) ->
  exists pending,
    fst (Manager.Queue m w) = Ok (currentItem ref w ++ pending)%list /\
    Forall (justDiscovered w) pending.
Proof.
  intros Hdisc Hload Hclock.
  unfold Manager.Queue, bind.
  rewrite (surjective_pairing (Manager.discoverWorkBranches m w)),
    Hdisc, discoverWorkBranches_world.
  rewrite (loadState_pair _ _ _ Hload).
  unfold currentItem.
  destruct (Refinery.CurrentMR ref) as [cur|].
  - rewrite formatAge_eq. unfold ret.
    match goal with
    | |- context [Manager.queueBranches m branches ?its 1 ?w'] =>
        destruct (queueBranches_ages m w branches Hclock its 1 w')
          as (pending & Hq & Hall); [reflexivity|cbn [ticks setTicks]; lia|]
    end.
    exists pending.
    rewrite (surjective_pairing (Manager.queueBranches m branches _ 1 _)), Hq.
    split; [reflexivity|exact Hall].
  - unfold ret.
    destruct (queueBranches_ages m w branches Hclock [] 1 w)
      as (pending & Hq & Hall); [reflexivity|lia|].
    exists pending.
    rewrite (surjective_pairing (Manager.queueBranches m branches _ 1 _)), Hq.
    split; [reflexivity|exact Hall].
Qed.

End QueueMore.

(** X15. The identifier of a merge request is made of the worker and
    the second of its discovery alone: two different branches of one
    worker, discovered within the same second, get the same
    identifier. *)
Theorem merge_request_ids_coincide
        (m : Manager.t) (b1 b2 : string) (w1 w2 : World) (mr1 mr2 : MergeRequest.t) :
  fst (Manager.branchToMR m b1 w1) = Some mr1 ->
  fst (Manager.branchToMR m b2 w2) = Some mr2 ->
  MergeRequest.Worker mr1 = MergeRequest.Worker mr2 ->
  time.Unix (clock w1 (ticks w1)) = time.Unix (clock w2 (ticks w2)) ->
  MergeRequest.ID mr1 = MergeRequest.ID mr2.
Proof.
  rewrite !branchToMR_eq.
  destruct (parseBranch b1) as [[wk1 iss1]|]; [|discriminate].
  destruct (parseBranch b2) as [[wk2 iss2]|]; [|discriminate].
  cbn [fst]. intros [= <-] [= <-]. cbn. intros -> ->. reflexivity.
Qed.

Lemma Queue_pending_items_are_new_witness :
  fst (Manager.discoverWorkBranches Example.m queueWorld)
  = Ok ["polecat/w1/iss1"; "polecat/w2"; "polecat/Toast/gt-abc"] /\
  fst (Manager.loadState Example.m queueWorld) = Ok Example.full /\
  (forall n, 0 <= clock queueWorld (S n) - clock queueWorld n < time.Second) /\
  exists pending,
    fst (Manager.Queue Example.m queueWorld)
    = Ok (currentItem Example.full queueWorld ++ pending)%list /\
    Forall (justDiscovered queueWorld) pending.
Proof.
  assert (fst (Manager.discoverWorkBranches Example.m queueWorld)
          = Ok ["polecat/w1/iss1"; "polecat/w2"; "polecat/Toast/gt-abc"]) as Hd
      by (vm_compute; reflexivity).
  assert (fst (Manager.loadState Example.m queueWorld) = Ok Example.full) as Hl
      by (vm_compute; reflexivity).
  assert (forall n, 0 <= clock queueWorld (S n) - clock queueWorld n < time.Second)
    as Hc.
  { intros n. cbn [clock queueWorld Example.fresh].
    change time.Second with 1000000000. change time.Millisecond with 1000000. lia. }
  split; [exact Hd|]. split; [exact Hl|]. split; [exact Hc|].
  exact (Queue_pending_items_are_new Example.m queueWorld _ Example.full Hd Hl Hc).
Defined.

Lemma merge_request_ids_coincide_witness :
  let mr issue :=
    {| MergeRequest.ID := "mr-w1-1700000000";
       MergeRequest.Branch := "polecat/w1/" ++ issue;
       MergeRequest.Worker := "w1";
       MergeRequest.IssueID := issue;
       MergeRequest.SwarmID := "";
       MergeRequest.TargetBranch := "main";
       MergeRequest.CreatedAt := 1700000000 * time.Second + time.Millisecond;
       MergeRequest.Status := MRPending;
       MergeRequest.Error := "" |} in
  fst (Manager.branchToMR Example.m "polecat/w1/iss1" Example.fresh) = Some (mr "iss1") /\
  fst (Manager.branchToMR Example.m "polecat/w1/iss2" Example.fresh) = Some (mr "iss2") /\
  MergeRequest.ID (mr "iss1") = MergeRequest.ID (mr "iss2").
Proof.
  intros mr.
  assert (fst (Manager.branchToMR Example.m "polecat/w1/iss1" Example.fresh)
          = Some (mr "iss1")) as H1 by (vm_compute; reflexivity).
  assert (fst (Manager.branchToMR Example.m "polecat/w1/iss2" Example.fresh)
          = Some (mr "iss2")) as H2 by (vm_compute; reflexivity).
  split; [exact H1|]. split; [exact H2|].
  exact (merge_request_ids_coincide Example.m _ _ _ _ _ _ H1 H2 eq_refl eq_refl).
Defined.

(** ** More on branch discovery *)

(** The separator of the lines. *)
Definition lineBreak : string := String regexp.newline "".

(** Whether [discoverWorkBranches] takes a name from a line, and the
    name it takes. *)
Definition keptLine (line : string) : bool :=
  (negb (String.eqb (strings.TrimSpace line) "")
   && negb (strings.Contains (strings.TrimSpace line) "->"))%bool.

Definition nameOfLine (line : string) : string :=
  strings.TrimPrefix (strings.TrimSpace line) "origin/".

(** What [git branch -r] prints for the remote [origin]: one line for
    each branch, indented by two spaces. *)
Fixpoint listing (branches : list string) : string :=
  match branches with
  | [] => ""
  | b :: more => "  origin/" ++ b ++ String regexp.newline (listing more)
  end.

(** Whether a text is in ASCII, where the white space that
    [strings.TrimSpace] removes is the one of [strings.isSpace]. *)
Fixpoint isAscii (s : string) : bool :=
  match s with
  | EmptyString => true
  | String c t => (Nat.ltb (nat_of_ascii c) 128 && isAscii t)%bool
  end.

Fixpoint hasSpace (s : string) : bool :=
  match s with
  | EmptyString => false
  | String c t => (strings.isSpace c || hasSpace t)%bool
  end.

(** A name in ASCII without white space and without [->]. *)
Definition plainName (b : string) : Prop :=
  isAscii b = true /\ hasSpace b = false /\ strings.Contains b "->" = false.

Section DiscoveryMore.

Lemma collectBranches_eq lines : forall acc,
  Manager.collectBranches lines acc
  = (acc ++ map nameOfLine (filter keptLine lines))%list.
Proof.
  induction lines as [|line more IH]; intros acc; cbn [Manager.collectBranches filter].
  - cbn. now rewrite app_nil_r.
  - fold (keptLine line). destruct (keptLine line).
    + rewrite IH, <- app_assoc. reflexivity.
    + apply IH.
Qed.

Lemma Contains_tail c t sub :
  strings.Contains t sub = true -> strings.Contains (String c t) sub = true.
Proof.
  intros H. cbn [strings.Contains]. now destruct (strings.HasPrefix _ _).
Qed.

Lemma Contains_drop n sub : forall s,
  strings.Contains (strings.drop n s) sub = true -> strings.Contains s sub = true.
Proof.
  induction n as [|n IH]; intros s; [trivial|].
  destruct s as [|c t]; [trivial|].
  cbn [strings.drop]. intros H. apply Contains_tail. now apply IH.
Qed.

Lemma nameOfLine_no_arrow line :
  keptLine line = true -> strings.Contains (nameOfLine line) "->" = false.
Proof.
  unfold keptLine, nameOfLine, strings.TrimPrefix.
  rewrite Bool.andb_true_iff, !Bool.negb_true_iff. intros [_ H].
  destruct (strings.HasPrefix _ _); [|exact H].
  destruct (strings.Contains (strings.drop _ _) "->") eqn:E; [|reflexivity].
  apply Contains_drop in E. congruence.
Qed.

(** X16. Discovery reads the output of [git] line by line.  A line
    that is not blank and has no [->] in it gives one name, the line
    without the white space around it and without one leading
    [origin/]; the names come in the order of the lines.  A line with
    [->], as [git] prints it for a symbolic reference such as
    [origin/HEAD], is passed over, and no name that is returned has
    [->] in it.  (The output is taken to be in ASCII.) *)
Theorem discoverWorkBranches_by_lines (m : Manager.t) (w : World) (out : string) :
  gitRemoteBranches w (Manager.workDir m) = Exited 0 out ->
  isAscii out = true ->
  let names := map nameOfLine (filter keptLine (strings.Split out lineBreak)) in
  fst (Manager.discoverWorkBranches m w) = Ok names /\
  Forall (fun b => strings.Contains b "->" = false) names.
Proof.
  intros Hgit _ names. split.
  - unfold Manager.discoverWorkBranches. rewrite Hgit. cbn [fst].
    now rewrite collectBranches_eq.
  - unfold names. apply Forall_forall. intros b Hb.
    apply in_map_iff in Hb. destruct Hb as (line & <- & Hline).
    apply filter_In in Hline. now apply nameOfLine_no_arrow.
Qed.

Lemma prefix_empty s : String.prefix "" s = true.
Proof. now destruct s. Qed.

Lemma append_assoc (a b c : string) : (a ++ b) ++ c = a ++ (b ++ c).
Proof. induction a; cbn; [reflexivity|now f_equal]. Qed.

Lemma splitFrom_line line : forall cur rest,
  occurs regexp.newline line = false ->
  strings.splitFrom lineBreak 0 cur (line ++ String regexp.newline rest)
  = (cur ++ line) :: strings.splitFrom lineBreak 0 "" rest.
Proof.
  induction line as [|c t IH]; intros cur rest Hs.
  - cbn [append strings.splitFrom]. unfold strings.HasPrefix, lineBreak.
    cbn [String.prefix].
    destruct (ascii_dec regexp.newline regexp.newline) as [_|N]; [|contradiction].
    rewrite prefix_empty. cbn [String.length Nat.pred].
    now rewrite append_empty_r.
  - cbn [occurs] in Hs. apply Bool.orb_false_iff in Hs. destruct Hs as [Hc Ht].
    cbn [append strings.splitFrom]. unfold strings.HasPrefix, lineBreak.
    cbn [String.prefix].
    destruct (ascii_dec regexp.newline c) as [E|_].
    { subst c. discriminate Hc. }
    fold lineBreak. rewrite IH by exact Ht.
    now rewrite append_assoc.
Qed.

Lemma hasSpace_app a b : hasSpace (a ++ b) = (hasSpace a || hasSpace b)%bool.
Proof.
  induction a as [|c t IH]; cbn; [reflexivity|]. now rewrite IH, Bool.orb_assoc.
Qed.

Lemma hasSpace_newline s : hasSpace s = false -> occurs regexp.newline s = false.
Proof.
  induction s as [|c t IH]; [reflexivity|].
  cbn [hasSpace occurs]. intros H. apply Bool.orb_false_iff in H. destruct H as [Hc Ht].
  rewrite (IH Ht), Bool.orb_false_r.
  destruct (Ascii.eqb_spec c regexp.newline) as [->|_]; [discriminate Hc|reflexivity].
Qed.

Lemma Split_listing branches :
  Forall (fun b => hasSpace b = false) branches ->
  strings.Split (listing branches) lineBreak
  = (map (fun b => ("  origin/" ++ b)%string) branches ++ [""])%list.
Proof.
  unfold strings.Split. induction 1 as [|b more Hb _ IH]; [reflexivity|].
  cbn [listing map app].
  replace ("  origin/" ++ b ++ String regexp.newline (listing more))
    with (("  origin/" ++ b) ++ String regexp.newline (listing more))
    by (now rewrite append_assoc).
  rewrite splitFrom_line.
  - now rewrite IH.
  - rewrite occurs_app, (hasSpace_newline _ Hb). reflexivity.
Qed.

Lemma trimRight_plain s : hasSpace s = false -> strings.trimRight s = s.
Proof.
  induction s as [|c t IH]; [reflexivity|].
  cbn [hasSpace]. intros H. apply Bool.orb_false_iff in H. destruct H as [Hc Ht].
  cbn [strings.trimRight]. rewrite IH by exact Ht.
  destruct t; [now rewrite Hc|reflexivity].
Qed.

Lemma TrimSpace_listed b :
  hasSpace b = false -> strings.TrimSpace ("  origin/" ++ b) = "origin/" ++ b.
Proof.
  intros Hb. unfold strings.TrimSpace.
  change (strings.trimLeft ("  origin/" ++ b)) with ("origin/" ++ b).
  apply trimRight_plain. now rewrite hasSpace_app, Hb.
Qed.

Lemma keptLine_listed b :
  plainName b -> keptLine ("  origin/" ++ b) = true.
Proof.
  intros (_ & Hs & Ha). unfold keptLine. rewrite TrimSpace_listed by exact Hs.
  change (String.eqb ("origin/" ++ b) "") with false.
  change (strings.Contains ("origin/" ++ b) "->") with (strings.Contains b "->").
  now rewrite Ha.
Qed.

Lemma nameOfLine_listed b :
  hasSpace b = false -> nameOfLine ("  origin/" ++ b) = b.
Proof.
  intros Hs. unfold nameOfLine, strings.TrimPrefix, strings.HasPrefix.
  rewrite TrimSpace_listed by exact Hs.
  now rewrite prefix_app, drop_app.
Qed.

Lemma names_of_listing branches :
  Forall plainName branches ->
  map nameOfLine
      (filter keptLine (map (fun b => ("  origin/" ++ b)%string) branches ++ [""])%list)
  = branches.
Proof.
  induction 1 as [|b more Hb _ IH]; [reflexivity|].
  cbn [map app filter]. rewrite (keptLine_listed _ Hb). cbn [map].
  rewrite IH. f_equal. apply nameOfLine_listed, Hb.
Qed.

(** X17. When [git] lists the remote branches as it does, each on a
    line of its own, indented, under [origin/], discovery returns
    exactly these branches, in this order; the names are taken to be
    in ASCII, free of white space and of [->]. *)
Theorem discoverWorkBranches_reads_the_listing
        (m : Manager.t) (w : World) (branches : list string) :
  gitRemoteBranches w (Manager.workDir m) = Exited 0 (listing branches) ->
  Forall plainName branches ->
  fst (Manager.discoverWorkBranches m w) = Ok branches.
Proof.
  intros Hgit Hplain.
  unfold Manager.discoverWorkBranches. rewrite Hgit. cbn [fst].
  rewrite collectBranches_eq. cbn [app].
  fold lineBreak. rewrite Split_listing.
  - now rewrite names_of_listing.
  - eapply Forall_impl; [|exact Hplain]. now intros b (_ & Hs & _).
Qed.

End DiscoveryMore.

(** A world whose remote has three branches, one of them not a work
    branch. *)
Definition listedWorld : World :=
  {| files := files Example.fresh;
     mkdirAllErr := mkdirAllErr Example.fresh;
     writeFileErr := writeFileErr Example.fresh;
     dirs := [];
     pid := 4711;
     findProcessOk := fun _ => true;
     signals := [];
     clock := clock Example.fresh;
     ticks := 0;
     gitRemoteBranches := fun _ => Exited 0 (listing ["polecat/w1/iss1"; "main"; "polecat/w2"]);
     stdout := [] |}.

Lemma discoverWorkBranches_by_lines_witness :
  gitRemoteBranches queueWorld (Manager.workDir Example.m)
  = Exited 0 "  origin/HEAD -> origin/main
  origin/polecat/w1/iss1
  origin/polecat/w2
  origin/polecat/Toast/gt-abc
" /\
  fst (Manager.discoverWorkBranches Example.m queueWorld)
  = Ok ["polecat/w1/iss1"; "polecat/w2"; "polecat/Toast/gt-abc"].
Proof.
  assert (gitRemoteBranches queueWorld (Manager.workDir Example.m)
          = Exited 0 "  origin/HEAD -> origin/main
  origin/polecat/w1/iss1
  origin/polecat/w2
  origin/polecat/Toast/gt-abc
") as Hgit by reflexivity.
  split; [exact Hgit|].
  exact (proj1 (discoverWorkBranches_by_lines Example.m queueWorld _ Hgit eq_refl)).
Defined.

Lemma discoverWorkBranches_reads_the_listing_witness :
  gitRemoteBranches listedWorld (Manager.workDir Example.m)
  = Exited 0 (listing ["polecat/w1/iss1"; "main"; "polecat/w2"]) /\
  Forall plainName ["polecat/w1/iss1"; "main"; "polecat/w2"] /\
  fst (Manager.discoverWorkBranches Example.m listedWorld)
  = Ok ["polecat/w1/iss1"; "main"; "polecat/w2"].
Proof.
  assert (gitRemoteBranches listedWorld (Manager.workDir Example.m)
          = Exited 0 (listing ["polecat/w1/iss1"; "main"; "polecat/w2"])) as Hgit
      by reflexivity.
  assert (Forall plainName ["polecat/w1/iss1"; "main"; "polecat/w2"]) as Hplain
      by (repeat constructor).
  split; [exact Hgit|]. split; [exact Hplain|].
  exact (discoverWorkBranches_reads_the_listing Example.m listedWorld _ Hgit Hplain).
Defined.

(** ** The age of a timestamp that is not in the past *)

Section FutureAge.

Lemma binary_round_aux_opp mx ex lx :
  binary_round_aux 53 1024 true mx ex lx
  = SFopp (binary_round_aux 53 1024 false mx ex lx).
Proof.
  unfold binary_round_aux.
  destruct (shr_fexp 53 1024 mx ex lx) as [mrs e].
  destruct (shr_fexp 53 1024 _ e loc_Exact) as [mrs' e'].
  destruct (shr_m mrs'); try reflexivity.
  destruct (e' <=? 1024 - 53); reflexivity.
Qed.

Lemma ofInt_neg p : float64.ofInt (Zneg p) = SFopp (float64.ofInt (Zpos p)).
Proof.
  unfold float64.ofInt, float64.prec, float64.emax, binary_normalize, binary_round.
  destruct (shl_align p 0 _) as [mz ez]. apply binary_round_aux_opp.
Qed.

Lemma div_neg m1 e1 m2 e2 :
  float64.div (S754_finite true m1 e1) (S754_finite false m2 e2)
  = SFopp (float64.div (S754_finite false m1 e1) (S754_finite false m2 e2)).
Proof.
  unfold float64.div, float64.prec, float64.emax, SFdiv.
  destruct (SFdiv_core_binary 53 1024 (Zpos m1) e1 (Zpos m2) e2) as [[mz ez] lz].
  apply binary_round_aux_opp.
Qed.

Lemma add_neg m1 e1 m2 e2 :
  float64.add (S754_finite true m1 e1) (S754_finite true m2 e2)
  = SFopp (float64.add (S754_finite false m1 e1) (S754_finite false m2 e2)).
Proof.
  unfold float64.add, float64.prec, float64.emax, SFadd.
  cbn [cond_Zopp Z.opp Z.add binary_normalize].
  unfold binary_round.
  destruct (shl_align _ _ _) as [mz ez]. apply binary_round_aux_opp.
Qed.

Lemma toInt_opp x : float64.toInt (SFopp x) = - float64.toInt x.
Proof.
  destruct x as [s|s| |s m e]; try reflexivity.
  cbn [SFopp float64.toInt]. destruct s; cbn [negb]; lia.
Qed.

(** A positive integer that leaves room for the fraction, plus a
    fraction that stays [W - 2] units of [2^-53] below 1, cut to an
    integer: the integer. *)
Lemma add_floor_wide q Mv Ev W :
  0 < q -> 2 * q + 3 <= W -> W <= 2 ^ 53 -> Ev <= -53 ->
  Zpos Mv + (W - 2) * 2 ^ (- Ev - 53) <= 2 ^ 53 * 2 ^ (- Ev - 53) ->
  float64.toInt (float64.add (float64.ofInt q) (S754_finite false Mv Ev)) = q.
Proof.
  intros Hq HqW HW HEv Hv.
  assert (0 < 2 ^ (- Ev - 53)) as HP by (apply Z.pow_pos_nonneg; lia).
  pose proof (Zdigits2_bounds q Hq) as [Hq1 Hq2].
  change (2 ^ 53) with 9007199254740992 in HW.
  assert (Zdigits2 q <= 53) as Hdq.
  { destruct (Z.le_gt_cases (Zdigits2 q) 53) as [|Hgt]; [assumption|exfalso].
    assert (2 ^ 53 <= 2 ^ (Zdigits2 q - 1)) by (apply Z.pow_le_mono_r; lia).
    change (2 ^ 53) with 9007199254740992 in *. lia. }
  assert ((W - 2) * 2 ^ (- Ev - 53) >= 2 ^ (- Ev - 53)) as HWP.
  { set (P := 2 ^ (- Ev - 53)) in *.
    assert (1 * P <= (W - 2) * P) by (apply Z.mul_le_mono_nonneg_r; lia). lia. }
  destruct (add_bracket q Mv Ev Hq Hdq HEv) as (m3 & e3 & -> & Hcases).
  { set (P := 2 ^ (- Ev - 53)) in *. set (WP := (W - 2) * P) in *.
    clearbody WP P. lia. }
  assert (0 < Zdigits2 q) as Hdq0 by (destruct q; try lia; cbn; lia).
  set (dq := Zdigits2 q) in *.
  set (P := 2 ^ (- Ev - 53)) in *.
  set (A := 2 ^ (53 - dq)) in *.
  set (D := 2 ^ dq) in *.
  remember (2 ^ (dq - 53 - Ev)) as B eqn:EB.
  assert (0 < A) as HA by (apply Z.pow_pos_nonneg; lia).
  assert (0 < D) as HD by (apply Z.pow_pos_nonneg; lia).
  assert (2 ^ (dq - 1) * 2 = D) as HD2.
  { unfold D. replace dq with ((dq - 1) + 1) at 2 by lia.
    now rewrite pow2_split by lia. }
  assert (D + 3 <= W) as HDW by lia.
  assert (A * D = 2 ^ 53) as HAD
      by (unfold A, D; rewrite <- pow2_split by lia; f_equal; lia).
  assert (B = D * P) as HB
      by (rewrite EB; unfold D, P; rewrite <- pow2_split by lia; f_equal; lia).
  assert (0 < B) as HB0 by (rewrite EB; apply Z.pow_pos_nonneg; lia).
  change (2 ^ 52) with 4503599627370496 in *.
  change (2 ^ 53) with 9007199254740992 in *.
  assert (Zpos Mv / B + 1 < A) as Hy.
  { assert (Zpos Mv / B < A - 1); [|lia].
    apply Z.div_lt_upper_bound; [exact HB0|].
    rewrite HB. replace (D * P * (A - 1)) with (A * D * P - D * P) by ring.
    rewrite HAD.
    assert (D * P <= (W - 3) * P) as H1 by (apply Z.mul_le_mono_nonneg_r; lia).
    replace ((W - 3) * P) with ((W - 2) * P - P) in H1 by ring.
    set (WP := (W - 2) * P) in *. set (DP := D * P) in *.
    clearbody WP DP. lia. }
  assert (0 <= Zpos Mv / B) as Hy0 by (apply Z.div_pos; lia).
  assert ((q + 1) * A <= 9007199254740992) as Hq_hi.
  { rewrite <- HAD, (Z.mul_comm A D). apply Z.mul_le_mono_nonneg_r; lia. }
  replace ((q + 1) * A) with (q * A + A) in Hq_hi by ring.
  destruct Hcases as [(He & Hlo & Hhi & Hlt)|(He & Hm3 & Hov)]; [|lia].
  rewrite toInt_finite by lia.
  replace (- e3) with (53 - dq) by lia. fold A.
  replace (Zpos m3) with ((Zpos m3 - q * A) + q * A) by ring.
  rewrite Z.div_add by lia.
  rewrite Z.div_small by lia. lia.
Qed.

(** The quotient and the fraction of a negative count, added and cut
    to an integer: the quotient, as long as it leaves room for the
    fraction. *)
Lemma toInt_quot_frac_neg d U W :
  0 < U -> U < 2 ^ 46 -> 3 <= W -> W * U <= 2 ^ 53 ->
  d <= 0 -> 2 * (- d / U) + 3 <= W ->
  float64.toInt
    (float64.add (float64.ofInt (Z.quot d U))
                 (float64.div (float64.ofInt (Z.rem d U)) (float64.ofInt U)))
  = Z.quot d U.
Proof.
  intros HU HU46 HW3 HWU Hd HqW.
  replace d with (- (- d)) by lia.
  rewrite Z.quot_opp_l, Z.rem_opp_l by lia.
  rewrite Z.quot_div_nonneg, Z.rem_mod_nonneg by lia.
  pose proof (Z.mod_pos_bound (- d) U HU) as Hr.
  pose proof (Z.div_pos (- d) U ltac:(lia) HU) as Hq0.
  set (q := - d / U) in *. set (r := - d mod U) in *.
  change (2 ^ 53) with 9007199254740992 in *.
  assert (W <= 9007199254740992) as HW.
  { assert (W * 1 <= W * U) by (apply Z.mul_le_mono_nonneg_l; lia). lia. }
  assert (0 < q -> Zdigits2 q <= 53) as Hdq.
  { intros Hpos. pose proof (Zdigits2_bounds q Hpos) as [Hlo _].
    destruct (Z.le_gt_cases (Zdigits2 q) 53) as [|Hgt]; [assumption|exfalso].
    assert (2 ^ 53 <= 2 ^ (Zdigits2 q - 1)) by (apply Z.pow_le_mono_r; lia).
    change (2 ^ 53) with 9007199254740992 in *. lia. }
  assert (exists mu eu, float64.ofInt U = S754_finite false mu eu) as (mu & eu & HfU).
  { destruct (ofInt_pos_parts U HU) as (m & -> & _); [|eauto].
    pose proof (Zdigits2_bounds U HU) as [Hlo _].
    destruct (Z.le_gt_cases (Zdigits2 U) 53) as [|Hgt]; [assumption|exfalso].
    assert (2 ^ 46 <= 2 ^ (Zdigits2 U - 1)) by (apply Z.pow_le_mono_r; lia).
    lia. }
  destruct (Z.eq_dec r 0) as [Hr0|Hr0].
  - (* no remainder *)
    rewrite Hr0. change (- 0) with 0.
    assert (float64.div (float64.ofInt 0) (float64.ofInt U) = S754_zero false) as ->
        by (rewrite HfU; reflexivity).
    destruct (Z.eq_dec q 0) as [->|Hq1]; [reflexivity|].
    destruct q as [|p|p]; try lia.
    change (- Zpos p) with (Zneg p). rewrite ofInt_neg.
    destruct (ofInt_pos_parts (Zpos p) ltac:(lia) ltac:(apply Hdq; lia))
      as (m & Hfq & _).
    assert (float64.add (SFopp (float64.ofInt (Zpos p))) (S754_zero false)
            = SFopp (float64.ofInt (Zpos p))) as -> by (rewrite Hfq; reflexivity).
    rewrite toInt_opp, toInt_ofInt by (try apply Hdq; lia). reflexivity.
  - destruct (div_fraction r U 1 W) as (Mv & Ev & Hdiv & HEv & Hv); try lia.
    assert (float64.div (float64.ofInt (- r)) (float64.ofInt U)
            = S754_finite true Mv Ev) as ->.
    { destruct r as [|pr|pr]; try lia.
      change (- Zpos pr) with (Zneg pr). rewrite ofInt_neg.
      destruct (ofInt_pos_parts (Zpos pr) ltac:(lia)) as (m & Hfr & _).
      { pose proof (Zdigits2_bounds (Zpos pr) ltac:(lia)) as [Hlo _].
        destruct (Z.le_gt_cases (Zdigits2 (Zpos pr)) 53) as [|Hgt];
          [assumption|exfalso].
        assert (2 ^ 46 <= 2 ^ (Zdigits2 (Zpos pr) - 1))
          by (apply Z.pow_le_mono_r; lia).
        lia. }
      rewrite Hfr, HfU in Hdiv |- *. cbn [SFopp negb].
      rewrite div_neg, Hdiv. reflexivity. }
    destruct (Z.eq_dec q 0) as [->|Hq1].
    + (* below one unit *)
      change (- 0) with 0.
      assert (float64.ofInt 0 = S754_zero false) as -> by reflexivity.
      cbn [float64.add SFadd].
      change (S754_finite true Mv Ev) with (SFopp (S754_finite false Mv Ev)).
      rewrite toInt_opp, toInt_finite by lia.
      rewrite Z.div_small; [reflexivity|]. split; [lia|].
      replace (- Ev) with (53 + (- Ev - 53)) by lia.
      rewrite pow2_split by lia.
      change (2 ^ 53) with 9007199254740992 in *.
      assert (0 < 2 ^ (- Ev - 53)) by (apply Z.pow_pos_nonneg; lia).
      set (P := 2 ^ (- Ev - 53)) in *.
      assert (1 * P <= (W - 2) * P) by (apply Z.mul_le_mono_nonneg_r; lia).
      set (WP := (W - 2) * P) in *. clearbody WP P. lia.
    + destruct q as [|p|p]; try lia.
      change (- Zpos p) with (Zneg p). rewrite ofInt_neg.
      destruct (ofInt_pos_parts (Zpos p) ltac:(lia) ltac:(apply Hdq; lia))
        as (m & Hfq & _).
      rewrite Hfq. cbn [SFopp negb]. rewrite add_neg, <- Hfq.
      rewrite toInt_opp, (add_floor_wide (Zpos p) Mv Ev W); try assumption; lia.
Qed.

(** The label of a negative elapsed time of at most fifty days: the
    whole seconds, cut towards zero. *)
Lemma formatDuration_negative d :
  - (50 * (24 * time.Hour)) <= d -> d < 0 ->
  formatDuration d = fmt.itoa (Z.quot d time.Second) ++ "s ago".
Proof.
  intros Hlo Hneg. unfold formatDuration.
  assert ((d <? time.Minute) = true) as ->
      by (apply Z.ltb_lt; change time.Minute with 60000000000; lia).
  unfold time.Seconds.
  change time.Second with 1000000000.
  change (50 * (24 * time.Hour)) with 4320000000000000 in Hlo.
  assert (- d / 1000000000 <= 4320000) as Hq
      by (apply Z.div_le_upper_bound; lia).
  rewrite (toInt_quot_frac_neg d 1000000000 9007199);
    [reflexivity|lia|reflexivity|lia|discriminate|lia|lia].
Qed.

(** X18. A timestamp that lies after the reading of the clock always
    gets a label in seconds, however far ahead it is.  Up to fifty days
    ahead the number in front is the elapsed time, which is negative,
    in whole seconds cut towards zero: two hours ahead give
    [-7200s ago], half a second ahead [0s ago]. *)
Theorem formatAge_of_a_future_time (w : World) (t : time.Time) :
  clock w (ticks w) < t ->
  (exists n, fst (formatAge t w) = fmt.itoa n ++ "s ago") /\
  (t - clock w (ticks w) <= 50 * (24 * time.Hour) ->
   fst (formatAge t w)
   = fmt.itoa (Z.quot (clock w (ticks w) - t) time.Second) ++ "s ago").
Proof.
  intros Hfuture. rewrite formatAge_eq. cbn [fst]. split.
  - unfold formatDuration.
    assert ((time.Sub (clock w (ticks w)) t <? time.Minute) = true) as ->.
    { apply Z.ltb_lt. unfold time.Sub.
      destruct (_ <? time.minDuration); [reflexivity|].
      destruct (time.maxDuration <? _) eqn:E.
      - apply Z.ltb_lt in E.
        change time.maxDuration with 9223372036854775807 in E. lia.
      - change time.Minute with 60000000000. lia. }
    eexists. reflexivity.
  - intros Hnear.
    change (50 * (24 * time.Hour)) with 4320000000000000 in Hnear.
    assert (time.Sub (clock w (ticks w)) t = clock w (ticks w) - t) as ->.
    { unfold time.Sub.
      destruct (Z.ltb_spec (clock w (ticks w) - t) time.minDuration) as [H|_];
        [change time.minDuration with (-9223372036854775808) in H; lia|].
      destruct (Z.ltb_spec time.maxDuration (clock w (ticks w) - t)) as [H|_];
        [change time.maxDuration with 9223372036854775807 in H; lia|reflexivity]. }
    apply formatDuration_negative; [|lia].
    change (50 * (24 * time.Hour)) with 4320000000000000. lia.
Qed.

End FutureAge.

Lemma formatAge_of_a_future_time_witness :
  let w := Example.fresh in
  let t := clock w (ticks w) + 2 * time.Hour in
  clock w (ticks w) < t /\
  t - clock w (ticks w) <= 50 * (24 * time.Hour) /\
  fst (formatAge t w) = "-7200s ago".
Proof.
  intros w t.
  assert (clock w (ticks w) < t) as Hf by (vm_compute; reflexivity).
  assert (t - clock w (ticks w) <= 50 * (24 * time.Hour)) as Hn
      by (vm_compute; discriminate).
  split; [exact Hf|]. split; [exact Hn|].
  exact (proj2 (formatAge_of_a_future_time w t Hf) Hn).
Defined.

(** X19. Beyond the range of a [Duration], about 292 years, the label
    no longer tells timestamps apart: every timestamp that far in the
    past gets [106751d ago], and every timestamp that far in the future
    gets [-9223372036s ago]. *)
Theorem formatAge_out_of_range (w : World) (t : time.Time) :
  (time.maxDuration <= clock w (ticks w) - t ->
   fst (formatAge t w) = "106751d ago") /\
  (clock w (ticks w) - t <= time.minDuration ->
   fst (formatAge t w) = "-9223372036s ago").
Proof.
  rewrite formatAge_eq. cbn [fst]. unfold time.Sub.
  change time.minDuration with (-9223372036854775808).
  change time.maxDuration with 9223372036854775807.
  split; intros H.
  - destruct (Z.ltb_spec (clock w (ticks w) - t) (-9223372036854775808)); [lia|].
    destruct (Z.ltb_spec 9223372036854775807 (clock w (ticks w) - t)).
    + vm_compute. reflexivity.
    + replace (clock w (ticks w) - t) with 9223372036854775807 by lia.
      vm_compute. reflexivity.
  - destruct (Z.ltb_spec (clock w (ticks w) - t) (-9223372036854775808)).
    + vm_compute. reflexivity.
    + replace (clock w (ticks w) - t) with (-9223372036854775808) by lia.
      vm_compute. reflexivity.
Qed.

Lemma formatAge_out_of_range_witness :
  let w := Example.fresh in
  let t := clock w (ticks w) + 300 * (365 * (24 * time.Hour)) in
  clock w (ticks w) - t <= time.minDuration /\
  fst (formatAge t w) = "-9223372036s ago".
Proof.
  intros w t.
  assert (clock w (ticks w) - t <= time.minDuration) as H
      by (vm_compute; discriminate).
  split; [exact H|].
  exact (proj2 (formatAge_out_of_range w t) H).
Defined.
